(** * Flow-Theory engines: a shallow embedding of the Python sources

    The repository is a family of discrete-time simulators
    ([engine_a.py], [engine_b.py], [engine_c.py],
    [two_system_contagion_kernel.py], [kernel_2_capacity_pressure.py],
    [kernel_3_drift_cycle.py]).  Every function below is a transcription of
    the Python function of the same name: a [for] loop is a left fold over
    [py_range], [list.append] is [++ [x]], an indexed read or write that
    Python checks is a computation in the [result] monad.

    The sources compute on Python [float]s.  The transcription is generic in
    the arithmetic (class [Arith]): the same definitions run on IEEE-754
    binary64 ([binary64_arith], what CPython executes) and on exact rationals
    ([exact_arith], the real-number reading of the recurrences).  Facts about
    the shape of the computation are proved for every arithmetic.  Facts
    about values are proved on binary64, under the hypotheses they need
    there (a pressure that has not overflowed, a finite weight), or, where
    the statement is an inequality that rounding respects, over the
    rationals; the remarks named [_exact] record what the recurrences do
    over the rationals, where rounding, overflow and NaN do not exist.

    The functions are transcribed twice: by value, a state being the record
    of its fields, and on a store of objects ([Module objects]), a state
    being a reference, for what depends on the identity of objects and on
    calls made one after the other. *)

From Stdlib Require Import ZArith QArith Qabs Qcanon Lia Lqa Floats.
From stdpp Require Import base list.

Set Default Proof Using "Type".
Local Open Scope nat_scope.

(** ** Python builtins *)

(** The operations the sources use on [float]s. [flt a b] is [a < b]. *)
Class Arith (A : Type) := {
  fzero : A;
  fone : A;
  fadd : A -> A -> A;
  fsub : A -> A -> A;
  fmul : A -> A -> A;
  flt : A -> A -> bool;
  fabs : A -> A;
}.

Declare Scope arith_scope.
Delimit Scope arith_scope with A.
Infix "+" := fadd : arith_scope.
Infix "-" := fsub : arith_scope.
Infix "*" := fmul : arith_scope.
Infix "<?" := flt : arith_scope.

(** Exceptions the modelled code can raise. *)
Inductive exn := AssertionError | IndexError.

Inductive result (X : Type) :=
  | Ok (x : X)
  | Raise (e : exn).
Arguments Ok {X} x.
Arguments Raise {X} e.

#[export] Instance result_ret : MRet result := λ X x, Ok x.
#[export] Instance result_bind : MBind result := λ X Y k m,
  match m with
  | Ok x => k x
  | Raise e => Raise e
  end.

Module builtins.
Section builtins.
Context {A : Type} `{Arith A}.

(** [max(a, b)]: CPython keeps the first argument unless a later one
    compares strictly greater. *)
Definition py_max (a b : A) : A := if (a <? b)%A then b else a.

(** [min(a, b)]: the first argument unless a later one is strictly less. *)
Definition py_min (a b : A) : A := if (b <? a)%A then b else a.

(** [range(n)]: empty when [n <= 0]. Its items are never negative. *)
Definition py_range (n : Z) : list nat := seq 0 (Z.to_nat n).

(** [assert b]. *)
Definition py_assert (b : bool) : result unit :=
  if b then Ok tt else Raise AssertionError.

(** [l[i]] for [i >= 0]. *)
Definition getitem {X} (l : list X) (i : nat) : result X :=
  match l !! i with
  | Some x => Ok x
  | None => Raise IndexError
  end.

(** [l[i] = x] for [i >= 0]. *)
Definition setitem {X} (l : list X) (i : nat) (x : X) : result (list X) :=
  if i <? length l then Ok (<[i:=x]> l) else Raise IndexError.

(** [for i in items: s = body(s, i)], stopping at the first exception. *)
Fixpoint for_each {S I} (body : S -> I -> result S) (items : list I) (s : S)
    : result S :=
  match items with
  | [] => Ok s
  | i :: items => s' ← body s i; for_each body items s'
  end.

(** [shocks[i] if shocks is not None and i < len(shocks) else 0.0]. *)
Definition shock_or_zero (shocks : option (list A)) (i : nat) : A :=
  match shocks with
  | Some l => if i <? length l then default fzero (l !! i) else fzero
  | None => fzero
  end.
End builtins.
End builtins.
Import builtins.

(** ** engine_a.py *)

Module engine_a.
Section engine_a.
Context {A : Type} `{Arith A}.

Record EngineAState := {
  F : A;
  C : A;
  T : A;
  D : A;
}.

Record EngineAParams := {
  r : A;
  alpha : A;
  delta : A;
  lambda_trust : A;
  rho_trust : A;
  kappa_capacity : A;
}.

(** The structural overload [max(0.0, F - C)], which Engines A, B and C
    each write inline. *)
Definition pressure (F C : A) : A := py_max fzero (F - C)%A.

Definition engine_a_step (state : EngineAState) (params : EngineAParams)
    (shock_F shock_C : A) : EngineAState :=
  let '(F, C, T, D) := (F state, C state, T state, D state) in
  let P := py_max fzero (F - C)%A in
  let D_next := (D + alpha params * P - delta params * D)%A in
  let T_next := (T + rho_trust params - lambda_trust params * P)%A in
  let T_next := py_max fzero (py_min fone T_next) in
  let C_next := (C + kappa_capacity params * (F - C) + shock_C)%A in
  let F_next := (F + r params * T_next + shock_F - P)%A in
  {| F := F_next; C := C_next; T := T_next; D := D_next |}.

Definition run_engine_a (state : EngineAState) (params : EngineAParams)
    (steps : Z) (shocks_F shocks_C : option (list A)) : list EngineAState :=
  let history := [state] in
  let '(_, history) :=
    fold_left
      (fun '(state, history) t =>
         let sF := shock_or_zero shocks_F t in
         let sC := shock_or_zero shocks_C t in
         let state := engine_a_step state params sF sC in
         (state, history ++ [state]))
      (py_range steps) (state, history) in
  history.
End engine_a.
Arguments EngineAState A : clear implicits.
Arguments EngineAParams A : clear implicits.
End engine_a.

(** ** engine_b.py *)

Module engine_b.
Import engine_a.
Section engine_b.
Context {A : Type} `{Arith A}.

Record EngineBLayerParams := {
  r : A;
  alpha : A;
  delta : A;
  lambda_trust : A;
  rho_trust : A;
  kappa_capacity : A;
  beta_drift_from_other : A;
}.

Record EngineBParams := {
  fast : EngineBLayerParams;
  slow : EngineBLayerParams;
  gamma_fs : A;
}.

(** The fields [fast] and [slow] of the Python class, renamed: the
    parameter record has fields of the same names. *)
Record EngineBState := {
  fast_state : EngineAState A;
  slow_state : EngineAState A;
}.

Definition engine_b_step (state : EngineBState) (params : EngineBParams)
    (shock_F_fast shock_C_fast shock_F_slow shock_C_slow : A) : EngineBState :=
  let '(Ff, Cf, Tf, Df) :=
    (F (fast_state state), C (fast_state state),
     T (fast_state state), D (fast_state state)) in
  let '(Fs, Cs, Ts, Ds) :=
    (F (slow_state state), C (slow_state state),
     T (slow_state state), D (slow_state state)) in
  let Pf := py_max fzero (Ff - Cf)%A in
  let Ps := py_max fzero (Fs - Cs)%A in
  (* fast layer *)
  let Df_next := (Df + alpha (fast params) * Pf - delta (fast params) * Df)%A in
  let Tf_next :=
    (Tf + rho_trust (fast params) - lambda_trust (fast params) * Pf)%A in
  let Tf_next := py_max fzero (py_min fone Tf_next) in
  let Cf_next := (Cf + kappa_capacity (fast params) * (Ff - Cf) + shock_C_fast)%A in
  let Ff_next :=
    (Ff + r (fast params) * Tf_next + gamma_fs params * Ts + shock_F_fast - Pf)%A in
  (* slow layer *)
  let Ds_next :=
    (Ds + (alpha (slow params) * Ps
           + beta_drift_from_other (slow params) * Pf
           - delta (slow params) * Ds))%A in
  let Ts_next :=
    (Ts + rho_trust (slow params) - lambda_trust (slow params) * Ps)%A in
  let Ts_next := py_max fzero (py_min fone Ts_next) in
  let Cs_next := (Cs + kappa_capacity (slow params) * (Fs - Cs) + shock_C_slow)%A in
  let Fs_next := (Fs + r (slow params) * Ts_next + shock_F_slow - Ps)%A in
  let fast_next := {| F := Ff_next; C := Cf_next; T := Tf_next; D := Df_next |} in
  let slow_next := {| F := Fs_next; C := Cs_next; T := Ts_next; D := Ds_next |} in
  {| fast_state := fast_next; slow_state := slow_next |}.

Definition run_engine_b (state : EngineBState) (params : EngineBParams)
    (steps : Z) : list EngineBState :=
  let history := [state] in
  let '(_, history) :=
    fold_left
      (fun '(state, history) _ =>
         let state := engine_b_step state params fzero fzero fzero fzero in
         (state, history ++ [state]))
      (py_range steps) (state, history) in
  history.
End engine_b.
Arguments EngineBLayerParams A : clear implicits.
Arguments EngineBParams A : clear implicits.
Arguments EngineBState A : clear implicits.
End engine_b.

(** ** engine_c.py *)

Module engine_c.
Import engine_a.
Section engine_c.
Context {A : Type} `{Arith A}.

Record EngineCState := {
  systems : list (EngineAState A);
}.

Record EngineCParams := {
  params_per_system : list (EngineAParams A);
  W : list (list A);
}.

(** The list [pressures] that [engine_c_step] builds first. *)
Definition pressures (state : EngineCState) : list A :=
  fold_left (fun pressures s => pressures ++ [py_max fzero (F s - C s)%A])
            (systems state) [].

(** The list [endogenous_shocks_F] that [engine_c_step] builds next, from
    [pressures] and the coupling matrix. *)
Definition endogenous_shocks_F (N : nat) (params : EngineCParams)
    (pressures : list A) : result (list A) :=
  for_each
    (fun endogenous_shocks_F i =>
       total ←
         for_each
           (fun total j =>
              row ← getitem (W params) i;
              w ← getitem row j;
              p ← getitem pressures j;
              mret (total + w * p)%A)
           (py_range (Z.of_nat N)) fzero;
       setitem endogenous_shocks_F i total)
    (py_range (Z.of_nat N)) (replicate N fzero).

Definition engine_c_step (state : EngineCState) (params : EngineCParams)
    (shocks_F shocks_C : option (list A)) : result EngineCState :=
  let N := length (systems state) in
  _ ← py_assert (length (params_per_system params) =? N);
  _ ← py_assert ((length (W params) =? N)
                 && forallb (fun row => length row =? N) (W params));
  (* pressures of all systems *)
  let pressures := pressures state in
  (* endogenous shocks from coupling *)
  endogenous_shocks_F ← endogenous_shocks_F N params pressures;
  (* dynamics of each system *)
  new_systems ←
    for_each
      (fun new_systems i =>
         s ← getitem (systems state) i;
         p ← getitem (params_per_system params) i;
         let exo_F := shock_or_zero shocks_F i in
         let exo_C := shock_or_zero shocks_C i in
         e ← getitem endogenous_shocks_F i;
         let total_F_shock := (exo_F + e)%A in
         let new_s := engine_a_step s p total_F_shock exo_C in
         mret (new_systems ++ [new_s]))
      (py_range (Z.of_nat N)) [];
  mret {| systems := new_systems |}.

Definition run_engine_c (state : EngineCState) (params : EngineCParams)
    (steps : Z) : result (list EngineCState) :=
  let history := [state] in
  '(_, history) ←
    for_each
      (fun '(state, history) _ =>
         state ← engine_c_step state params None None;
         mret (state, history ++ [state]))
      (py_range steps) (state, history);
  mret history.
End engine_c.
Arguments EngineCState A : clear implicits.
Arguments EngineCParams A : clear implicits.
End engine_c.

(** ** two_system_contagion_kernel.py *)

Module two_system_contagion_kernel.
Section two_system_contagion_kernel.
Context {A : Type} `{Arith A}.

Record TwoSystemState := {
  t : Z;
  F1 : A;
  C1 : A;
  P1 : A;
  D1 : A;
  F2 : A;
  C2 : A;
  P2 : A;
  D2 : A;
  T : A;
}.

(** Returns [(F1_next, C1_next, D1_next, F2_next, C2_next, D2_next, T_next,
    P1, P2)]. *)
Definition two_system_step (F1 C1 D1 F2 C2 D2 T : A)
    (k1 k2 alpha1 alpha2 delta1 delta2 r1 r2 lambda_T coupling shock1 : A)
    : A * A * A * A * A * A * A * A * A :=
  (* local pressures *)
  let P1 := (F1 - C1)%A in
  let P2 := (F2 - C2)%A in
  (* drift: system 2 imports part of system 1's pressure *)
  let D1_next := ((fone - delta1) * D1 + alpha1 * P1)%A in
  let D2_next := ((fone - delta2) * D2 + alpha2 * (P2 + coupling * P1))%A in
  (* shared trust, eroded by total absolute pressure *)
  let total_pressure := (fabs P1 + fabs P2)%A in
  let T_next := py_max fzero (T - lambda_T * total_pressure)%A in
  (* flow *)
  let F1_next := (F1 + r1 * T - D1 - P1 + shock1)%A in
  let F2_next := (F2 + r2 * T - D2 - P2)%A in
  (* capacity *)
  let C1_next := (C1 + k1 * (F1 - C1))%A in
  let C2_next := (C2 + k2 * (F2 - C2))%A in
  (F1_next, C1_next, D1_next, F2_next, C2_next, D2_next, T_next, P1, P2).

Definition simulate_two_system_kernel (T_steps : Z)
    (F1_0 C1_0 D1_0 F2_0 C2_0 D2_0 T0 : A)
    (k1 k2 alpha1 alpha2 delta1 delta2 r1 r2 lambda_T coupling : A)
    (bubble_steps : Z) (bubble_shock : A) : list TwoSystemState :=
  let states := [] in
  let '(F1, C1, D1) := (F1_0, C1_0, D1_0) in
  let '(F2, C2, D2) := (F2_0, C2_0, D2_0) in
  let T := T0 in
  let '(_, states) :=
    fold_left
      (fun '(F1, C1, D1, F2, C2, D2, T, states) t =>
         let shock1 :=
           if (Z.of_nat t <? bubble_steps)%Z then bubble_shock else fzero in
         let '(F1, C1, D1, F2, C2, D2, T, P1, P2) :=
           two_system_step F1 C1 D1 F2 C2 D2 T
             k1 k2 alpha1 alpha2 delta1 delta2 r1 r2 lambda_T coupling shock1 in
         (F1, C1, D1, F2, C2, D2, T,
          states ++ [ {| t := Z.of_nat t;
                         F1 := F1; C1 := C1; P1 := P1; D1 := D1;
                         F2 := F2; C2 := C2; P2 := P2; D2 := D2;
                         T := T |} ]))
      (py_range T_steps) (F1, C1, D1, F2, C2, D2, T, states) in
  states.
End two_system_contagion_kernel.
Arguments TwoSystemState A : clear implicits.
End two_system_contagion_kernel.

(** ** kernel_2_capacity_pressure.py *)

Module kernel_2_capacity_pressure.
Section kernel_2_capacity_pressure.
Context {A : Type} `{Arith A}.

Record Kernel2State := {
  t : Z;
  stock : A;
  inflow : A;
  outflow : A;
  flow : A;
  capacity : A;
  pressure : A;
}.

(** Returns [(stock_next, capacity_next, flow, pressure)]. *)
Definition kernel2_step (stock capacity inflow outflow k_capacity : A)
    : A * A * A * A :=
  let flow := (inflow - outflow)%A in
  let pressure := (flow - capacity)%A in
  let stock_next := (stock + inflow - outflow)%A in
  let capacity_next := (capacity + k_capacity * (flow - capacity))%A in
  (stock_next, capacity_next, flow, pressure).

Definition simulate_kernel2 (T : Z) (S0 C0 k_capacity : A)
    (inflow_rule outflow_rule : Z -> A -> A -> A) : list Kernel2State :=
  let states := [] in
  let S := S0 in
  let C := C0 in
  let '(_, _, states) :=
    fold_left
      (fun '(S, C, states) t =>
         let I_t := inflow_rule (Z.of_nat t) S C in
         let O_t := outflow_rule (Z.of_nat t) S C in
         let '(S_next, C_next, F_t, P_t) :=
           kernel2_step S C I_t O_t k_capacity in
         let states :=
           states ++ [ {| t := Z.of_nat t; stock := S; inflow := I_t;
                          outflow := O_t; flow := F_t; capacity := C;
                          pressure := P_t |} ] in
         (S_next, C_next, states))
      (py_range T) (S, C, states) in
  states.
End kernel_2_capacity_pressure.
Arguments Kernel2State A : clear implicits.
End kernel_2_capacity_pressure.

(** ** kernel_3_drift_cycle.py *)

Module kernel_3_drift_cycle.
Section kernel_3_drift_cycle.
Context {A : Type} `{Arith A}.

Record Kernel3State := {
  t : Z;
  stock : A;
  inflow : A;
  outflow : A;
  flow : A;
  capacity : A;
  pressure : A;
  drift : A;
}.

(** Returns [(stock_next, capacity_next, drift_next, flow, pressure)]. *)
Definition kernel3_step (stock capacity drift inflow outflow : A)
    (k_capacity alpha delta : A) : A * A * A * A * A :=
  let flow := (inflow - outflow)%A in
  let pressure := (flow - capacity)%A in
  let stock_next := (stock + inflow - outflow)%A in
  let capacity_next := (capacity + k_capacity * (flow - capacity))%A in
  let drift_next := ((fone - delta) * drift + alpha * pressure)%A in
  (stock_next, capacity_next, drift_next, flow, pressure).

Definition simulate_kernel3 (T : Z) (S0 C0 D0 k_capacity alpha delta : A)
    (inflow_rule outflow_rule : Z -> A -> A -> A -> A) : list Kernel3State :=
  let states := [] in
  let S := S0 in
  let C := C0 in
  let D := D0 in
  let '(_, _, _, states) :=
    fold_left
      (fun '(S, C, D, states) t =>
         let I_t := inflow_rule (Z.of_nat t) S C D in
         let O_t := outflow_rule (Z.of_nat t) S C D in
         let '(S_next, C_next, D_next, F_t, P_t) :=
           kernel3_step S C D I_t O_t k_capacity alpha delta in
         let states :=
           states ++ [ {| t := Z.of_nat t; stock := S; inflow := I_t;
                          outflow := O_t; flow := F_t; capacity := C;
                          pressure := P_t; drift := D |} ] in
         (S_next, C_next, D_next, states))
      (py_range T) (S, C, D, states) in
  states.
End kernel_3_drift_cycle.
Arguments Kernel3State A : clear implicits.
End kernel_3_drift_cycle.

(** ** The two arithmetics *)

(** Exact rationals: a field with a decidable order. *)
#[export] Instance exact_arith : Arith Qc := {|
  fzero := 0%Qc;
  fone := 1%Qc;
  fadd := Qcplus;
  fsub := Qcminus;
  fmul := Qcmult;
  flt := fun a b => match (a ?= b)%Qc with Lt => true | _ => false end;
  fabs := fun a => Q2Qc (Qabs a);
|}.

(** IEEE-754 binary64 with round-to-nearest-even, the [float] of CPython.
    A decimal literal denotes the nearest double, as in Python. *)
Set Warnings "-inexact-float".

#[export] Instance binary64_arith : Arith float := {|
  fzero := 0%float;
  fone := 1%float;
  fadd := PrimFloat.add;
  fsub := PrimFloat.sub;
  fmul := PrimFloat.mul;
  flt := PrimFloat.ltb;
  fabs := PrimFloat.abs;
|}.

(** The decimal literal [n / d] in exact arithmetic. *)
Definition dec (n : Z) (d : positive) : Qc := Q2Qc (n # d).

(** ** Notions the statements use *)

Section notions.
Context {A : Type} `{Arith A}.
Import engine_a engine_b engine_c.

(** The left-to-right sum [f 0 + f 1 + ... + f (n-1)], from [0.0]. *)
Definition sigma (n : nat) (f : nat -> A) : A :=
  fold_left (fun total j => (total + f j)%A) (seq 0 n) fzero.

(** [W[i][j]]. *)
Definition entry (W : list (list A)) (i j : nat) : A :=
  default fzero (W !! i ≫= (.!! j)).

(** The pressure of system [j] of a network state. *)
Definition pressure_of (state : EngineCState A) (j : nat) : A :=
  default fzero ((fun s => pressure (F s) (C s)) <$> systems state !! j).

(** The dimension checks of [engine_c_step]. *)
Definition dimensions_ok (state : EngineCState A) (params : EngineCParams A)
    : Prop :=
  let N := length (systems state) in
  length (params_per_system params) = N /\
  length (W params) = N /\
  Forall (fun row => length row = N) (W params).

(** The state of a single system after [t] transitions of Engine A. *)
Fixpoint engine_a_after (state : EngineAState A) (params : EngineAParams A)
    (shocks_F shocks_C : option (list A)) (t : nat) : EngineAState A :=
  match t with
  | O => state
  | S t' =>
      engine_a_step (engine_a_after state params shocks_F shocks_C t') params
        (shock_or_zero shocks_F t') (shock_or_zero shocks_C t')
  end.

(** The state after [t] transitions of Engine B. *)
Fixpoint engine_b_after (state : EngineBState A) (params : EngineBParams A)
    (t : nat) : EngineBState A :=
  match t with
  | O => state
  | S t' =>
      engine_b_step (engine_b_after state params t') params
        fzero fzero fzero fzero
  end.

(** The network state after [t] transitions of Engine C. *)
Fixpoint engine_c_after (state : EngineCState A) (params : EngineCParams A)
    (t : nat) : result (EngineCState A) :=
  match t with
  | O => Ok state
  | S t' =>
      state' ← engine_c_after state params t';
      engine_c_step state' params None None
  end.

(** The network step as the design describes it: every system advances by
    the single-system kernel, its flow shock being its exogenous shock plus
    the coupling-weighted sum of the pressures of the state before the
    step. [engine_c_step] is compared with it. *)
Definition network_step_spec (state : EngineCState A)
    (params : EngineCParams A) (shocks_F shocks_C : option (list A))
    : EngineCState A :=
  let N := length (systems state) in
  {| systems :=
       imap (fun i sp =>
               engine_a_step sp.1 sp.2
                 (shock_or_zero shocks_F i
                  + sigma N (fun j => entry (W params) i j
                                      * pressure_of state j))%A
                 (shock_or_zero shocks_C i))
            (zip (systems state) (params_per_system params)) |}.

(** The network state after [t] transitions of the design's step. *)
Fixpoint network_after (state : EngineCState A) (params : EngineCParams A)
    (t : nat) : EngineCState A :=
  match t with
  | O => state
  | S t' => network_step_spec (network_after state params t') params None None
  end.
(** A layer's parameters of Engine B read as parameters of Engine A, the
    coupling [beta_drift_from_other] left out. *)
Definition layer_params (p : EngineBLayerParams A) : EngineAParams A :=
  {| engine_a.r := engine_b.r p;
     engine_a.alpha := engine_b.alpha p;
     engine_a.delta := engine_b.delta p;
     engine_a.lambda_trust := engine_b.lambda_trust p;
     engine_a.rho_trust := engine_b.rho_trust p;
     engine_a.kappa_capacity := engine_b.kappa_capacity p |}.

(** A record of Kernel 3 without its drift, as a record of Kernel 2. *)
Definition kernel2_view (st : kernel_3_drift_cycle.Kernel3State A)
    : kernel_2_capacity_pressure.Kernel2State A :=
  {| kernel_2_capacity_pressure.t := kernel_3_drift_cycle.t st;
     kernel_2_capacity_pressure.stock := kernel_3_drift_cycle.stock st;
     kernel_2_capacity_pressure.inflow := kernel_3_drift_cycle.inflow st;
     kernel_2_capacity_pressure.outflow := kernel_3_drift_cycle.outflow st;
     kernel_2_capacity_pressure.flow := kernel_3_drift_cycle.flow st;
     kernel_2_capacity_pressure.capacity := kernel_3_drift_cycle.capacity st;
     kernel_2_capacity_pressure.pressure := kernel_3_drift_cycle.pressure st |}.
(** The stock and capacity [(S, C)] that [simulate_kernel2] holds after [t]
    rounds. *)
Fixpoint kernel2_after (S0 C0 k_capacity : A)
    (inflow_rule outflow_rule : Z -> A -> A -> A) (t : nat) : A * A :=
  match t with
  | O => (S0, C0)
  | S t' =>
      let '(S_t, C_t) := kernel2_after S0 C0 k_capacity inflow_rule outflow_rule t' in
      let I_t := inflow_rule (Z.of_nat t') S_t C_t in
      let O_t := outflow_rule (Z.of_nat t') S_t C_t in
      let '(S_next, C_next, _, _) :=
        kernel_2_capacity_pressure.kernel2_step S_t C_t I_t O_t k_capacity in
      (S_next, C_next)
  end.

(** The stock, capacity and drift [(S, C, D)] that [simulate_kernel3] holds
    after [t] rounds. *)
Fixpoint kernel3_after (S0 C0 D0 k_capacity alpha delta : A)
    (inflow_rule outflow_rule : Z -> A -> A -> A -> A) (t : nat) : A * A * A :=
  match t with
  | O => (S0, C0, D0)
  | S t' =>
      let '(S_t, C_t, D_t) :=
        kernel3_after S0 C0 D0 k_capacity alpha delta inflow_rule outflow_rule
          t' in
      let I_t := inflow_rule (Z.of_nat t') S_t C_t D_t in
      let O_t := outflow_rule (Z.of_nat t') S_t C_t D_t in
      let '(S_next, C_next, D_next, _, _) :=
        kernel_3_drift_cycle.kernel3_step S_t C_t D_t I_t O_t k_capacity alpha delta in
      (S_next, C_next, D_next)
  end.

(** The flows, capacities, drifts and shared trust
    [(F1, C1, D1, F2, C2, D2, T)] that [simulate_two_system_kernel] holds
    after [t] rounds. *)
Fixpoint two_system_after (F1_0 C1_0 D1_0 F2_0 C2_0 D2_0 T0 : A)
    (k1 k2 alpha1 alpha2 delta1 delta2 r1 r2 lambda_T coupling : A)
    (bubble_steps : Z) (bubble_shock : A) (t : nat)
    : A * A * A * A * A * A * A :=
  match t with
  | O => (F1_0, C1_0, D1_0, F2_0, C2_0, D2_0, T0)
  | S t' =>
      let '(F1, C1, D1, F2, C2, D2, T) :=
        two_system_after F1_0 C1_0 D1_0 F2_0 C2_0 D2_0 T0 k1 k2 alpha1 alpha2
          delta1 delta2 r1 r2 lambda_T coupling bubble_steps bubble_shock t' in
      let shock1 :=
        if (Z.of_nat t' <? bubble_steps)%Z then bubble_shock else fzero in
      let '(F1, C1, D1, F2, C2, D2, T, _, _) :=
        two_system_contagion_kernel.two_system_step F1 C1 D1 F2 C2 D2 T
          k1 k2 alpha1 alpha2 delta1 delta2 r1 r2 lambda_T coupling shock1 in
      (F1, C1, D1, F2, C2, D2, T)
  end.
(** The record [simulate_kernel2] appends in round [t], from the stock and
    capacity it holds then. *)
Definition kernel2_record (k_capacity : A)
    (inflow_rule outflow_rule : Z -> A -> A -> A) (st : A * A) (t : nat)
    : kernel_2_capacity_pressure.Kernel2State A :=
  let I_t := inflow_rule (Z.of_nat t) st.1 st.2 in
  let O_t := outflow_rule (Z.of_nat t) st.1 st.2 in
  {| kernel_2_capacity_pressure.t := Z.of_nat t;
     kernel_2_capacity_pressure.stock := st.1;
     kernel_2_capacity_pressure.inflow := I_t;
     kernel_2_capacity_pressure.outflow := O_t;
     kernel_2_capacity_pressure.flow := (I_t - O_t)%A;
     kernel_2_capacity_pressure.capacity := st.2;
     kernel_2_capacity_pressure.pressure := (I_t - O_t - st.2)%A |}.

(** The record [simulate_kernel3] appends in round [t]. *)
Definition kernel3_record (k_capacity alpha delta : A)
    (inflow_rule outflow_rule : Z -> A -> A -> A -> A) (st : A * A * A)
    (t : nat) : kernel_3_drift_cycle.Kernel3State A :=
  let '(S_t, C_t, D_t) := st in
  let I_t := inflow_rule (Z.of_nat t) S_t C_t D_t in
  let O_t := outflow_rule (Z.of_nat t) S_t C_t D_t in
  {| kernel_3_drift_cycle.t := Z.of_nat t;
     kernel_3_drift_cycle.stock := S_t;
     kernel_3_drift_cycle.inflow := I_t;
     kernel_3_drift_cycle.outflow := O_t;
     kernel_3_drift_cycle.flow := (I_t - O_t)%A;
     kernel_3_drift_cycle.capacity := C_t;
     kernel_3_drift_cycle.pressure := (I_t - O_t - C_t)%A;
     kernel_3_drift_cycle.drift := D_t |}.

(** The record [simulate_two_system_kernel] appends in round [t]: the
    pressures of the state it holds then, and the rest of the state it holds
    after the round. *)
Definition two_system_record (before after : A * A * A * A * A * A * A)
    (t : nat) : two_system_contagion_kernel.TwoSystemState A :=
  let '(F1, C1, D1, F2, C2, D2, T) := before in
  let '(F1', C1', D1', F2', C2', D2', T') := after in
  {| two_system_contagion_kernel.t := Z.of_nat t;
     two_system_contagion_kernel.F1 := F1';
     two_system_contagion_kernel.C1 := C1';
     two_system_contagion_kernel.P1 := (F1 - C1)%A;
     two_system_contagion_kernel.D1 := D1';
     two_system_contagion_kernel.F2 := F2';
     two_system_contagion_kernel.C2 := C2';
     two_system_contagion_kernel.P2 := (F2 - C2)%A;
     two_system_contagion_kernel.D2 := D2';
     two_system_contagion_kernel.T := T' |}.
End notions.

(** ** Scenario A of the design *)

Section scenario_A_inputs.
Import engine_a.

Definition scenario_A_state : EngineAState Qc :=
  {| F := dec 10 1; C := dec 8 1; T := dec 5 10; D := dec 0 1 |}.

Definition scenario_A_params : EngineAParams Qc :=
  {| r := dec 1 10; alpha := dec 2 10; delta := dec 1 10;
     lambda_trust := dec 5 100; rho_trust := dec 2 100;
     kappa_capacity := dec 3 10 |}.

Definition scenario_A_state_binary64 : EngineAState float :=
  {| F := 10; C := 8; T := 0.5; D := 0 |}%float.

Definition scenario_A_params_binary64 : EngineAParams float :=
  {| r := 0.1; alpha := 0.2; delta := 0.1; lambda_trust := 0.05;
     rho_trust := 0.02; kappa_capacity := 0.3 |}%float.
End scenario_A_inputs.

(** ** Doubles *)

Section binary64_notions.
Import engine_a.

(** The pressure [max(0.0, F - C)] of a system is a finite double: [F - C]
    has not overflowed to infinity. (It is never NaN and never negative.) *)
Definition finite_pressure (s : EngineAState float) : Prop :=
  (pressure (F s) (C s) <? infinity)%float = true.
End binary64_notions.

(** ** The same functions on a store of objects

    An [EngineAState], an [EngineBState], an [EngineCState] and a record of
    a recording kernel are Python objects: a variable holds a reference to
    the object, two references can name one object, and constructing one
    allocates a fresh object. In this second transcription a state is a
    reference into a store; [x.f] reads the store and [Cls(...)] extends it.
    What the functions only read and never return (parameters, shock
    schedules, the coupling matrix), the lists they build for themselves and
    floats are kept as values, as above; the arithmetic of a step is the
    function of the first transcription, applied to the fields read. The
    sources never assign to a field of an object, so the transcription has
    no such operation. *)

Module objects.

(** A reference is the position of the object in the store. *)
Abbreviation ref := nat (only parsing).

Section objects.
Context {A : Type} `{Arith A}.
Import engine_a engine_b engine_c.

(** An object of one of the six classes of the sources. An [EngineBState]
    holds the references of its two layers, an [EngineCState] the list of
    the references of its systems. *)
Inductive object :=
  | AState (s : EngineAState A)
  | BState (fast slow : ref)
  | CState (systems : list ref)
  | TwoSystem (r : two_system_contagion_kernel.TwoSystemState A)
  | Kernel2 (r : kernel_2_capacity_pressure.Kernel2State A)
  | Kernel3 (r : kernel_3_drift_cycle.Kernel3State A).

(** The store: the objects allocated so far, the oldest first. *)
Local Abbreviation store := (list object) (only parsing).

(** A computation on the store returns or raises, and leaves a store; it is
    [None] when it follows a reference that names no object of the class
    expected, which a reference obtained from the constructors never
    does. *)
Definition py (X : Type) : Type := store -> option (result X * store).

#[global] Instance py_ret : MRet py := λ X x h, Some (Ok x, h).
#[global] Instance py_bind : MBind py := λ X Y k m h,
  match m h with
  | Some (Ok x, h') => k x h'
  | Some (Raise e, h') => Some (Raise e, h')
  | None => None
  end.

(** A computation that does not touch the store. *)
Definition lift {X} (r : result X) : py X := λ h, Some (r, h).

(** [Cls(...)]: a new object, at a reference not in use. *)
Definition new (o : object) : py ref := λ h, Some (Ok (length h), h ++ [o]).

(** The fields of the [EngineAState] at [l]. *)
Definition get_A (l : ref) : py (EngineAState A) := λ h,
  match h !! l with
  | Some (AState s) => Some (Ok s, h)
  | _ => None
  end.

(** The fields [fast] and [slow] of the [EngineBState] at [l]. *)
Definition get_B (l : ref) : py (ref * ref) := λ h,
  match h !! l with
  | Some (BState fast slow) => Some (Ok (fast, slow), h)
  | _ => None
  end.

(** The field [systems] of the [EngineCState] at [l]. *)
Definition get_C (l : ref) : py (list ref) := λ h,
  match h !! l with
  | Some (CState systems) => Some (Ok systems, h)
  | _ => None
  end.

(** [for i in items: s = body(s, i)]. *)
Fixpoint for_each {S I} (body : S -> I -> py S) (items : list I) (s : S)
    : py S :=
  match items with
  | [] => mret s
  | i :: items => s' ← body s i; for_each body items s'
  end.

(** *** engine_a.py *)

Definition engine_a_step (state : ref) (params : EngineAParams A)
    (shock_F shock_C : A) : py ref :=
  s ← get_A state;
  new (AState (engine_a.engine_a_step s params shock_F shock_C)).

Definition run_engine_a (state : ref) (params : EngineAParams A)
    (steps : Z) (shocks_F shocks_C : option (list A)) : py (list ref) :=
  let history := [state] in
  '(_, history) ←
    for_each
      (fun '(state, history) t =>
         let sF := shock_or_zero shocks_F t in
         let sC := shock_or_zero shocks_C t in
         state ← engine_a_step state params sF sC;
         mret (state, history ++ [state]))
      (py_range steps) (state, history);
  mret history.

(** *** engine_b.py *)

Definition engine_b_step (state : ref) (params : EngineBParams A)
    (shock_F_fast shock_C_fast shock_F_slow shock_C_slow : A) : py ref :=
  '(fast, slow) ← get_B state;
  f ← get_A fast;
  s ← get_A slow;
  let next :=
    engine_b.engine_b_step {| fast_state := f; slow_state := s |} params
      shock_F_fast shock_C_fast shock_F_slow shock_C_slow in
  fast_next ← new (AState (fast_state next));
  slow_next ← new (AState (slow_state next));
  new (BState fast_next slow_next).

Definition run_engine_b (state : ref) (params : EngineBParams A)
    (steps : Z) : py (list ref) :=
  let history := [state] in
  '(_, history) ←
    for_each
      (fun '(state, history) _ =>
         state ← engine_b_step state params fzero fzero fzero fzero;
         mret (state, history ++ [state]))
      (py_range steps) (state, history);
  mret history.

(** *** engine_c.py *)

Definition engine_c_step (state : ref) (params : EngineCParams A)
    (shocks_F shocks_C : option (list A)) : py ref :=
  systems ← get_C state;
  let N := length systems in
  _ ← lift (py_assert (length (params_per_system params) =? N));
  _ ← lift (py_assert ((length (W params) =? N)
                       && forallb (fun row => length row =? N) (W params)));
  (* pressures of all systems *)
  systems ← get_C state;
  pressures ←
    for_each
      (fun pressures s =>
         s ← get_A s;
         mret (pressures ++ [py_max fzero (F s - C s)%A]))
      systems [];
  (* endogenous shocks from coupling *)
  endogenous_shocks_F ← lift (endogenous_shocks_F N params pressures);
  (* dynamics of each system *)
  new_systems ←
    for_each
      (fun new_systems i =>
         systems ← get_C state;
         s ← lift (getitem systems i);
         p ← lift (getitem (params_per_system params) i);
         let exo_F := shock_or_zero shocks_F i in
         let exo_C := shock_or_zero shocks_C i in
         e ← lift (getitem endogenous_shocks_F i);
         let total_F_shock := (exo_F + e)%A in
         new_s ← engine_a_step s p total_F_shock exo_C;
         mret (new_systems ++ [new_s]))
      (py_range (Z.of_nat N)) [];
  new (CState new_systems).

Definition run_engine_c (state : ref) (params : EngineCParams A)
    (steps : Z) : py (list ref) :=
  let history := [state] in
  '(_, history) ←
    for_each
      (fun '(state, history) _ =>
         state ← engine_c_step state params None None;
         mret (state, history ++ [state]))
      (py_range steps) (state, history);
  mret history.

(** *** two_system_contagion_kernel.py *)

Definition simulate_two_system_kernel (T_steps : Z)
    (F1_0 C1_0 D1_0 F2_0 C2_0 D2_0 T0 : A)
    (k1 k2 alpha1 alpha2 delta1 delta2 r1 r2 lambda_T coupling : A)
    (bubble_steps : Z) (bubble_shock : A) : py (list ref) :=
  let states := [] in
  let '(F1, C1, D1) := (F1_0, C1_0, D1_0) in
  let '(F2, C2, D2) := (F2_0, C2_0, D2_0) in
  let T := T0 in
  '(_, states) ←
    for_each
      (fun '(F1, C1, D1, F2, C2, D2, T, states) t =>
         let shock1 :=
           if (Z.of_nat t <? bubble_steps)%Z then bubble_shock else fzero in
         let '(F1, C1, D1, F2, C2, D2, T, P1, P2) :=
           two_system_contagion_kernel.two_system_step F1 C1 D1 F2 C2 D2 T
             k1 k2 alpha1 alpha2 delta1 delta2 r1 r2 lambda_T coupling shock1 in
         record ←
           new (TwoSystem
                  {| two_system_contagion_kernel.t := Z.of_nat t;
                     two_system_contagion_kernel.F1 := F1;
                     two_system_contagion_kernel.C1 := C1;
                     two_system_contagion_kernel.P1 := P1;
                     two_system_contagion_kernel.D1 := D1;
                     two_system_contagion_kernel.F2 := F2;
                     two_system_contagion_kernel.C2 := C2;
                     two_system_contagion_kernel.P2 := P2;
                     two_system_contagion_kernel.D2 := D2;
                     two_system_contagion_kernel.T := T |});
         mret (F1, C1, D1, F2, C2, D2, T, states ++ [record]))
      (py_range T_steps) (F1, C1, D1, F2, C2, D2, T, states);
  mret states.

(** *** kernel_2_capacity_pressure.py *)

Definition simulate_kernel2 (T : Z) (S0 C0 k_capacity : A)
    (inflow_rule outflow_rule : Z -> A -> A -> A) : py (list ref) :=
  let states := [] in
  let S := S0 in
  let C := C0 in
  '(_, _, states) ←
    for_each
      (fun '(S, C, states) t =>
         let I_t := inflow_rule (Z.of_nat t) S C in
         let O_t := outflow_rule (Z.of_nat t) S C in
         let '(S_next, C_next, F_t, P_t) :=
           kernel_2_capacity_pressure.kernel2_step S C I_t O_t k_capacity in
         record ←
           new (Kernel2
                  {| kernel_2_capacity_pressure.t := Z.of_nat t;
                     kernel_2_capacity_pressure.stock := S;
                     kernel_2_capacity_pressure.inflow := I_t;
                     kernel_2_capacity_pressure.outflow := O_t;
                     kernel_2_capacity_pressure.flow := F_t;
                     kernel_2_capacity_pressure.capacity := C;
                     kernel_2_capacity_pressure.pressure := P_t |});
         mret (S_next, C_next, states ++ [record]))
      (py_range T) (S, C, states);
  mret states.

(** *** kernel_3_drift_cycle.py *)

Definition simulate_kernel3 (T : Z) (S0 C0 D0 k_capacity alpha delta : A)
    (inflow_rule outflow_rule : Z -> A -> A -> A -> A) : py (list ref) :=
  let states := [] in
  let S := S0 in
  let C := C0 in
  let D := D0 in
  '(_, _, _, states) ←
    for_each
      (fun '(S, C, D, states) t =>
         let I_t := inflow_rule (Z.of_nat t) S C D in
         let O_t := outflow_rule (Z.of_nat t) S C D in
         let '(S_next, C_next, D_next, F_t, P_t) :=
           kernel_3_drift_cycle.kernel3_step S C D I_t O_t k_capacity alpha
             delta in
         record ←
           new (Kernel3
                  {| kernel_3_drift_cycle.t := Z.of_nat t;
                     kernel_3_drift_cycle.stock := S;
                     kernel_3_drift_cycle.inflow := I_t;
                     kernel_3_drift_cycle.outflow := O_t;
                     kernel_3_drift_cycle.flow := F_t;
                     kernel_3_drift_cycle.capacity := C;
                     kernel_3_drift_cycle.pressure := P_t;
                     kernel_3_drift_cycle.drift := D |});
         mret (S_next, C_next, D_next, states ++ [record]))
      (py_range T) (S, C, D, states);
  mret states.
End objects.
Arguments object A : clear implicits.
Arguments py A X : clear implicits.
Abbreviation store A := (list (object A)) (only parsing).
End objects.

(** ** Notions on the store *)

Section store_notions.
Context {A : Type} `{Arith A}.
Import engine_a engine_b engine_c.

(** The object at [l] is an [EngineAState] with the fields of [s]. *)
Definition holds_A (h : objects.store A) (l : objects.ref)
    (s : EngineAState A) : Prop :=
  h !! l = Some (objects.AState s).

(** The object at [l] is an [EngineBState] whose layers hold [s]. *)
Definition holds_B (h : objects.store A) (l : objects.ref)
    (s : EngineBState A) : Prop :=
  exists fast slow,
    h !! l = Some (objects.BState fast slow) /\
    holds_A h fast (fast_state s) /\ holds_A h slow (slow_state s).

(** The object at [l] is an [EngineCState] whose systems hold those of
    [s]. *)
Definition holds_C (h : objects.store A) (l : objects.ref)
    (s : EngineCState A) : Prop :=
  exists systems,
    h !! l = Some (objects.CState systems) /\
    Forall2 (holds_A h) systems (engine_c.systems s).

(** The object at [l] is the record [r] of a recording kernel. *)
Definition holds_two_system (h : objects.store A) (l : objects.ref)
    (r : two_system_contagion_kernel.TwoSystemState A) : Prop :=
  h !! l = Some (objects.TwoSystem r).

Definition holds_kernel2 (h : objects.store A) (l : objects.ref)
    (r : kernel_2_capacity_pressure.Kernel2State A) : Prop :=
  h !! l = Some (objects.Kernel2 r).

Definition holds_kernel3 (h : objects.store A) (l : objects.ref)
    (r : kernel_3_drift_cycle.Kernel3State A) : Prop :=
  h !! l = Some (objects.Kernel3 r).

(** Two calls of [m] in a row, the first on the store [h] and the second
    on the store the first leaves: both return, neither modifies an object
    that existed before it, and in the end both results hold the values
    [v]. *)
Definition returns_twice {X V} (holds : objects.store A -> X -> V -> Prop)
    (m : objects.py A X) (h : objects.store A) (v : V) : Prop :=
  exists x h' x' h'',
    m h = Some (Ok x, h') /\ m h' = Some (Ok x', h'') /\
    h `prefix_of` h' /\ h' `prefix_of` h'' /\
    holds h'' x v /\ holds h'' x' v.

(** A call of [m] on the store [h] raises [e] and leaves the store as it
    is, so that a second call is the same call once more. *)
Definition raises_cleanly {X} (m : objects.py A X) (h : objects.store A)
    (e : exn) : Prop :=
  m h = Some (Raise e, h).
End store_notions.

(** * Proofs *)

(** ** Loops *)

Section loops.
Context {A : Type} `{Arith A}.

Lemma for_each_app {S I} (body : S -> I -> result S) (l1 l2 : list I) (s : S) :
  for_each body (l1 ++ l2) s = for_each body l1 s ≫= for_each body l2.
Proof.
  revert s. induction l1 as [|i l1 IH]; intros s; simpl; [done|].
  destruct (body s i) as [s'|e]; simpl; [apply IH|done].
Qed.

Lemma py_range_nat (n : nat) : py_range (Z.of_nat n) = seq 0 n.
Proof. unfold py_range. by rewrite Nat2Z.id. Qed.

Lemma py_range_nonpos (n : Z) : (n <= 0)%Z -> py_range n = [].
Proof. intros Hn. unfold py_range. replace (Z.to_nat n) with 0 by lia. done. Qed.

Lemma length_py_range (n : Z) : length (py_range n) = Z.to_nat n.
Proof. unfold py_range. apply length_seq. Qed.

Lemma getitem_Some {X} (l : list X) (i : nat) (x : X) :
  l !! i = Some x -> getitem l i = Ok x.
Proof. intros Hl. unfold getitem. by rewrite Hl. Qed.

(** Loop invariants, indexed by the number of rounds done. *)
Lemma fold_left_invariant {S} (P : nat -> S -> Prop) (f : S -> nat -> S)
    (n : nat) (s : S) :
  P 0 s -> (forall k s, k < n -> P k s -> P (Datatypes.S k) (f s k)) ->
  P n (fold_left f (seq 0 n) s).
Proof.
  intros Hs Hf. induction n as [|n IH]; [done|].
  rewrite seq_S, fold_left_app. simpl. apply Hf; [lia|].
  apply IH. intros k s' Hk. apply Hf. lia.
Qed.

(** A loop whose body is pure is a left fold. *)
Lemma for_each_pure {S I} (body : S -> I -> result S) (g : S -> I -> S)
    (items : list I) (s : S) :
  (forall s i, i ∈ items -> body s i = Ok (g s i)) ->
  for_each body items s = Ok (fold_left g items s).
Proof.
  revert s. induction items as [|i items IH]; intros s Hb; simpl; [done|].
  rewrite Hb by left. simpl. apply IH. intros. apply Hb. by right.
Qed.

(** A loop that appends one item per index builds the list of the items,
    in index order. *)
Lemma for_each_append {X} (body : list X -> nat -> result (list X))
    (g : nat -> X) (n : nat) (acc : list X) :
  (forall acc i, i < n -> body acc i = Ok (acc ++ [g i])) ->
  for_each body (seq 0 n) acc = Ok (acc ++ (g <$> seq 0 n)).
Proof.
  induction n as [|n IH]; intros Hf.
  - simpl. by rewrite app_nil_r.
  - rewrite seq_S, for_each_app, IH by (intros; apply Hf; lia).
    simpl. rewrite Hf by lia.
    by rewrite fmap_app, app_assoc.
Qed.

(** A loop that stores one computed item per index into a list of [n]
    slots overwrites every slot. *)
Lemma for_each_store {X} (f : nat -> result X) (g : nat -> X) (d : X) (n : nat) :
  (forall i, i < n -> f i = Ok (g i)) ->
  for_each (fun acc i => x ← f i; setitem acc i x) (seq 0 n) (replicate n d)
  = Ok (g <$> seq 0 n).
Proof.
  intros Hf.
  assert (Hk : forall k, k <= n ->
    for_each (fun acc i => x ← f i; setitem acc i x) (seq 0 k) (replicate n d)
    = Ok ((g <$> seq 0 k) ++ replicate (n - k) d)).
  { induction k as [|k IH]; intros Hk.
    - simpl. by rewrite Nat.sub_0_r.
    - rewrite seq_S, for_each_app, IH by lia. simpl.
      rewrite Hf by lia. simpl. unfold setitem.
      rewrite length_app, length_fmap, length_seq, length_replicate.
      destruct (Nat.ltb_spec k (k + (n - k))) as [_|?]; [|lia].
      f_equal. rewrite fmap_app, <- app_assoc. simpl.
      replace (n - k) with (S (n - S k)) by lia. simpl.
      rewrite insert_app_r_alt by (rewrite length_fmap, length_seq; lia).
      rewrite length_fmap, length_seq, Nat.sub_diag. done. }
  rewrite Hk by lia. by rewrite Nat.sub_diag, app_nil_r.
Qed.
Lemma fold_left_ext {S I} (f g : S -> I -> S) (items : list I) (s : S) :
  (forall s i, f s i = g s i) -> fold_left f items s = fold_left g items s.
Proof.
  intros Hfg. revert s. induction items as [|i items IH]; intros s; simpl;
    [done|]. by rewrite Hfg, IH.
Qed.

Lemma lookup_fmap_seq {X} (f : nat -> X) (n i : nat) (x : X) :
  (f <$> seq 0 n) !! i = Some x -> i < n /\ x = f i.
Proof.
  rewrite list_lookup_fmap. intros Hx.
  destruct (seq 0 n !! i) as [j|] eqn:Hj; [|done].
  apply lookup_seq in Hj as [-> Hi]. simpl in Hx. by injection Hx as <-.
Qed.

End loops.

(** ** Engine C: one step *)

Section engine_c_step.
Context {A : Type} `{Arith A}.
Import engine_a engine_c.

Lemma pressures_fmap (state : EngineCState A) :
  pressures state = (fun s => pressure (F s) (C s)) <$> systems state.
Proof.
  unfold pressures.
  enough (Hacc : forall l acc,
    fold_left (fun pressures s => pressures ++ [py_max fzero (F s - C s)%A]) l acc
    = acc ++ ((fun s => pressure (F s) (C s)) <$> l)) by apply (Hacc _ []).
  induction l as [|s l IH]; intros acc; simpl.
  - by rewrite app_nil_r.
  - rewrite IH, <- app_assoc. done.
Qed.

Lemma pressures_lookup (state : EngineCState A) (j : nat) :
  j < length (systems state) ->
  pressures state !! j = Some (pressure_of state j).
Proof.
  intros Hj. rewrite pressures_fmap, list_lookup_fmap. unfold pressure_of.
  destruct (lookup_lt_is_Some_2 (systems state) j Hj) as [s ->]. done.
Qed.

Lemma entry_lookup (W : list (list A)) (i j N : nat) :
  length W = N -> Forall (fun row => length row = N) W -> i < N -> j < N ->
  exists row, W !! i = Some row /\ row !! j = Some (entry W i j).
Proof.
  intros HW Hrows Hi Hj.
  destruct (lookup_lt_is_Some_2 W i) as [row Hrow]; [lia|].
  exists row. split; [done|].
  unfold entry. rewrite Hrow. simpl.
  rewrite Forall_lookup in Hrows. specialize (Hrows _ _ Hrow).
  destruct (lookup_lt_is_Some_2 row j) as [w ->]; [lia|]. done.
Qed.

Lemma endogenous_shocks_F_sigma (state : EngineCState A)
    (params : EngineCParams A) :
  dimensions_ok state params ->
  let N := length (systems state) in
  endogenous_shocks_F N params (pressures state)
  = Ok ((fun i => sigma N (fun j => entry (W params) i j * pressure_of state j)%A)
          <$> seq 0 N).
Proof.
  intros (Hp & HW & Hrows) N. unfold endogenous_shocks_F.
  rewrite py_range_nat. apply for_each_store. intros i Hi.
  unfold sigma. apply for_each_pure. intros total j Hj.
  apply elem_of_seq in Hj.
  destruct (entry_lookup (W params) i j N) as (row & Hrow & Hw); try done; [lia|].
  rewrite (getitem_Some _ _ _ Hrow). simpl.
  rewrite (getitem_Some _ _ _ Hw). simpl.
  rewrite (getitem_Some _ _ _ (pressures_lookup state j ltac:(lia))). done.
Qed.

(** With the dimension checks passed, the step raises nothing and is the
    network step of the design. *)
Lemma engine_c_step_ok (state : EngineCState A) (params : EngineCParams A)
    (shocks_F shocks_C : option (list A)) :
  dimensions_ok state params ->
  engine_c_step state params shocks_F shocks_C
  = Ok (network_step_spec state params shocks_F shocks_C).
Proof.
  intros Hdim. pose proof Hdim as (Hp & HW & Hrows).
  unfold engine_c_step.
  rewrite Hp, Nat.eqb_refl. simpl.
  rewrite HW, Nat.eqb_refl. simpl.
  replace (forallb _ (W params)) with true; cycle 1.
  { symmetry. apply forallb_forall. intros row Hin.
    apply Nat.eqb_eq. rewrite Forall_forall in Hrows. apply Hrows.
    by apply list_elem_of_In. }
  simpl. rewrite (endogenous_shocks_F_sigma state params Hdim). simpl.
  rewrite py_range_nat.
  rewrite (for_each_append _ (fun i =>
    match systems state !! i, params_per_system params !! i with
    | Some s, Some p =>
        engine_a_step s p
          (shock_or_zero shocks_F i
           + sigma (length (systems state))
               (fun j => entry (W params) i j * pressure_of state j))%A
          (shock_or_zero shocks_C i)
    | _, _ => {| F := fzero; C := fzero; T := fzero; D := fzero |}
    end)); cycle 1.
  { intros acc i Hi.
    destruct (lookup_lt_is_Some_2 (systems state) i Hi) as [s Hs].
    destruct (lookup_lt_is_Some_2 (params_per_system params) i) as [p Hpi];
      [lia|].
    rewrite (getitem_Some _ _ _ Hs). simpl.
    rewrite (getitem_Some _ _ _ Hpi). simpl.
    unfold getitem. rewrite list_lookup_fmap, lookup_seq_lt by done. simpl.
    rewrite Hs, Hpi. done. }
  simpl. unfold network_step_spec. f_equal. f_equal.
  apply list_eq. intros i.
  rewrite list_lookup_fmap, list_lookup_imap, lookup_zip_with.
  destruct (decide (i < length (systems state))) as [Hi|Hi].
  - rewrite lookup_seq_lt by done. simpl.
    destruct (lookup_lt_is_Some_2 (systems state) i Hi) as [s ->].
    destruct (lookup_lt_is_Some_2 (params_per_system params) i) as [p ->];
      [lia|]. done.
  - rewrite lookup_seq_ge by lia. simpl.
    rewrite (lookup_ge_None_2 (systems state)) by lia. done.
Qed.
End engine_c_step.

(** ** The drivers, as histories *)

Section drivers.
Context {A : Type} `{Arith A}.
Import engine_a engine_b engine_c.

(** A driver loop that keeps the current state and appends it to the
    history records the iterates of its step. *)
Lemma history_loop {S} (step : S -> nat -> S) (after : nat -> S) (n : nat) :
  (forall t, after (Datatypes.S t) = step (after t) t) ->
  fold_left (fun '(state, history) t =>
               let state := step state t in (state, history ++ [state]))
            (seq 0 n) (after 0, [after 0])
  = (after n, after <$> seq 0 (Datatypes.S n)).
Proof.
  intros Hafter. induction n as [|n IH]; [done|].
  rewrite seq_S, fold_left_app, IH. simpl fold_left.
  rewrite <- Hafter.
  by rewrite (seq_S (Datatypes.S n)), fmap_app.
Qed.

Lemma run_engine_a_history (state : EngineAState A) (params : EngineAParams A)
    (steps : Z) (shocks_F shocks_C : option (list A)) :
  run_engine_a state params steps shocks_F shocks_C
  = engine_a_after state params shocks_F shocks_C
      <$> seq 0 (S (Z.to_nat steps)).
Proof.
  unfold run_engine_a, py_range.
  pose proof (history_loop
    (fun state t => engine_a_step state params
                      (shock_or_zero shocks_F t) (shock_or_zero shocks_C t))
    (engine_a_after state params shocks_F shocks_C) (Z.to_nat steps)
    (fun t => eq_refl)) as Hloop.
  simpl in Hloop. by rewrite Hloop.
Qed.

Lemma run_engine_b_history (state : EngineBState A) (params : EngineBParams A)
    (steps : Z) :
  run_engine_b state params steps
  = engine_b_after state params <$> seq 0 (S (Z.to_nat steps)).
Proof.
  unfold run_engine_b, py_range.
  pose proof (history_loop
    (fun state _ => engine_b_step state params fzero fzero fzero fzero)
    (engine_b_after state params) (Z.to_nat steps)
    (fun t => eq_refl)) as Hloop.
  simpl in Hloop. by rewrite Hloop.
Qed.

(** What the loop of [run_engine_c] holds after [n] rounds, if no round
    raised. *)
Lemma run_engine_c_loop (state : EngineCState A) (params : EngineCParams A)
    (n : nat) (last : EngineCState A) (history : list (EngineCState A)) :
  for_each (fun '(state, history) _ =>
              state ← engine_c_step state params None None;
              mret (state, history ++ [state]))
           (seq 0 n) (state, [state])
  = Ok (last, history) ->
  engine_c_after state params n = Ok last /\
  length history = S n /\
  forall t, t <= n ->
    exists state_t, engine_c_after state params t = Ok state_t /\
                    history !! t = Some state_t.
Proof.
  revert last history. induction n as [|n IH]; intros last history.
  - simpl. intros [= <- <-]. repeat split; [done..|].
    intros t Ht. exists state. by replace t with 0 by lia.
  - rewrite seq_S, for_each_app. simpl.
    destruct (for_each _ (seq 0 n) _) as [[last' history']|e] eqn:Hloop;
      [|done].
    destruct (IH _ _ eq_refl) as (Hlast & Hlen & Hhist). simpl.
    destruct (engine_c_step last' params None None) as [next|e] eqn:Hstep;
      [|done].
    simpl. intros [= <- <-]. simpl. rewrite Hlast. simpl.
    split; [done|]. split; [rewrite length_app; simpl; lia|].
    intros t Ht. destruct (decide (t = S n)) as [->|Hne].
    + exists next. simpl. rewrite Hlast. simpl. split; [done|].
      rewrite lookup_app_r by lia. by rewrite Hlen, Nat.sub_diag.
    + destruct (Hhist t) as (state_t & Ht1 & Ht2); [lia|].
      exists state_t. split; [done|].
      rewrite lookup_app_l by lia. done.
Qed.

Lemma run_engine_c_Ok (state : EngineCState A) (params : EngineCParams A)
    (steps : Z) (history : list (EngineCState A)) :
  run_engine_c state params steps = Ok history ->
  length history = S (Z.to_nat steps) /\
  forall t, t <= Z.to_nat steps ->
    exists state_t, engine_c_after state params t = Ok state_t /\
                    history !! t = Some state_t.
Proof.
  unfold run_engine_c, py_range.
  destruct (for_each _ _ _) as [[last history']|e] eqn:Hloop; [|done].
  simpl. intros [= <-].
  by destruct (run_engine_c_loop _ _ _ _ _ Hloop) as (_ & ? & ?).
Qed.

(** If every round's step succeeds, so does the driver. *)
Lemma run_engine_c_total (state : EngineCState A) (params : EngineCParams A)
    (steps : Z) :
  (forall t, t <= Z.to_nat steps -> exists state_t,
      engine_c_after state params t = Ok state_t) ->
  exists history, run_engine_c state params steps = Ok history.
Proof.
  intros Hafter. unfold run_engine_c, py_range.
  enough (Hn : forall n, n <= Z.to_nat steps -> exists last history,
    for_each (fun '(state, history) _ =>
                state ← engine_c_step state params None None;
                mret (state, history ++ [state]))
             (seq 0 n) (state, [state]) = Ok (last, history)).
  { destruct (Hn (Z.to_nat steps)) as (last & history & ->); [done|].
    by exists history. }
  induction n as [|n IH]; intros Hn.
  - by exists state, [state].
  - destruct IH as (last & history & Hloop); [lia|].
    rewrite seq_S, for_each_app, Hloop. simpl.
    destruct (run_engine_c_loop _ _ _ _ _ Hloop) as (Hlast & _).
    destruct (Hafter (S n) Hn) as (next & Hnext).
    simpl in Hnext. rewrite Hlast in Hnext. simpl in Hnext.
    rewrite Hnext. simpl. eauto.
Qed.
End drivers.

(** ** Engine C: dimensions along a run *)

Section engine_c_dimensions.
Context {A : Type} `{Arith A}.
Import engine_a engine_c.

Lemma length_network_step_spec (state : EngineCState A)
    (params : EngineCParams A) (shocks_F shocks_C : option (list A)) :
  length (params_per_system params) = length (systems state) ->
  length (systems (network_step_spec state params shocks_F shocks_C))
  = length (systems state).
Proof.
  intros Hp. unfold network_step_spec. simpl.
  rewrite length_imap, length_zip_with. lia.
Qed.

Lemma lookup_network_step_spec (state : EngineCState A)
    (params : EngineCParams A) (shocks_F shocks_C : option (list A))
    (i : nat) (s : EngineAState A) (p : EngineAParams A) :
  systems state !! i = Some s ->
  params_per_system params !! i = Some p ->
  systems (network_step_spec state params shocks_F shocks_C) !! i
  = Some (engine_a_step s p
            (shock_or_zero shocks_F i
             + sigma (length (systems state))
                 (fun j => entry (W params) i j * pressure_of state j))%A
            (shock_or_zero shocks_C i)).
Proof.
  intros Hs Hp. unfold network_step_spec. simpl.
  rewrite list_lookup_imap, lookup_zip_with, Hs, Hp. done.
Qed.

Lemma dimensions_ok_network_step_spec (state : EngineCState A)
    (params : EngineCParams A) (shocks_F shocks_C : option (list A)) :
  dimensions_ok state params ->
  dimensions_ok (network_step_spec state params shocks_F shocks_C) params.
Proof.
  intros (Hp & HW & Hrows). unfold dimensions_ok.
  rewrite length_network_step_spec by done. done.
Qed.

(** The assertions of the step are the dimension checks. *)
Lemma engine_c_step_checked (state next : EngineCState A)
    (params : EngineCParams A) (shocks_F shocks_C : option (list A)) :
  engine_c_step state params shocks_F shocks_C = Ok next ->
  dimensions_ok state params.
Proof.
  unfold engine_c_step, dimensions_ok.
  destruct (Nat.eqb_spec (length (params_per_system params))
              (length (systems state))) as [Hp|]; [|done].
  simpl.
  destruct (Nat.eqb_spec (length (W params)) (length (systems state)))
    as [HW|]; [|done].
  simpl.
  destruct (forallb _ (W params)) eqn:Hrows; [|done].
  intros _. repeat split; [done..|].
  rewrite Forall_forall. intros row Hin.
  rewrite forallb_forall in Hrows. apply Nat.eqb_eq, Hrows.
  by apply list_elem_of_In.
Qed.

Lemma engine_c_step_mismatch (state : EngineCState A)
    (params : EngineCParams A) (shocks_F shocks_C : option (list A)) :
  ~ dimensions_ok state params ->
  engine_c_step state params shocks_F shocks_C = Raise AssertionError.
Proof.
  intros Hdim. unfold engine_c_step.
  destruct (Nat.eqb_spec (length (params_per_system params))
              (length (systems state))) as [Hp|]; [|done].
  simpl.
  destruct (Nat.eqb_spec (length (W params)) (length (systems state)))
    as [HW|]; [|done].
  simpl.
  destruct (forallb _ (W params)) eqn:Hrows; [|done].
  destruct Hdim. repeat split; [done..|].
  rewrite Forall_forall. intros row Hin.
  rewrite forallb_forall in Hrows. apply Nat.eqb_eq, Hrows.
  by apply list_elem_of_In.
Qed.

Lemma dimensions_ok_network_after (state : EngineCState A)
    (params : EngineCParams A) (t : nat) :
  dimensions_ok state params ->
  dimensions_ok (network_after state params t) params /\
  length (systems (network_after state params t)) = length (systems state).
Proof.
  intros Hdim. induction t as [|t [IH1 IH2]]; [done|].
  cbn [network_after]. split.
  - by apply dimensions_ok_network_step_spec.
  - rewrite length_network_step_spec; [done|]. by destruct IH1.
Qed.

Lemma engine_c_after_ok (state : EngineCState A) (params : EngineCParams A)
    (t : nat) :
  dimensions_ok state params ->
  engine_c_after state params t = Ok (network_after state params t).
Proof.
  intros Hdim. induction t as [|t IH]; [done|]. simpl. rewrite IH. simpl.
  apply engine_c_step_ok. by apply dimensions_ok_network_after.
Qed.

Lemma run_engine_c_ok (state : EngineCState A) (params : EngineCParams A)
    (steps : Z) :
  dimensions_ok state params ->
  run_engine_c state params steps
  = Ok (network_after state params <$> seq 0 (S (Z.to_nat steps))).
Proof.
  intros Hdim.
  destruct (run_engine_c_total state params steps) as [history Hrun].
  { intros t _. eexists. by apply engine_c_after_ok. }
  rewrite Hrun. f_equal.
  destruct (run_engine_c_Ok _ _ _ _ Hrun) as [Hlen Hhist].
  apply list_eq. intros t.
  rewrite list_lookup_fmap.
  destruct (decide (t <= Z.to_nat steps)) as [Ht|Ht].
  - destruct (Hhist t Ht) as (state_t & Hafter & ->).
    rewrite engine_c_after_ok in Hafter by done.
    injection Hafter as <-.
    by rewrite lookup_seq_lt by lia.
  - rewrite lookup_seq_ge by lia.
    by rewrite lookup_ge_None_2 by lia.
Qed.
End engine_c_dimensions.

(** ** Exact arithmetic *)

(** Turns a goal on [Qc] into one on [Q], where [lra] and [nra] apply. *)
Ltac qc_to_q :=
  unfold Qcminus, Qcle, Qclt in *;
  unfold Qcplus, Qcopp, Qcmult, Q2Qc in *;
  cbn [this] in *;
  repeat (rewrite Qred_correct in * ).

Section exact.
Local Open Scope Qc_scope.
Import engine_a.

Lemma flt_exact (a b : Qc) : flt a b = true <-> a < b.
Proof. simpl. rewrite Qclt_alt. destruct (a ?= b); split; congruence. Qed.

Lemma flt_exact_false (a b : Qc) : flt a b = false <-> b <= a.
Proof.
  rewrite Qcle_ngt, <- flt_exact. destruct (flt a b); split; congruence.
Qed.

Lemma py_max_exact (a b : Qc) :
  a <= py_max a b /\ b <= py_max a b /\ (py_max a b = a \/ py_max a b = b).
Proof.
  unfold py_max. destruct (flt a b) eqn:Hlt.
  - apply flt_exact in Hlt. repeat split; [|apply Qcle_refl|by right].
    by apply Qclt_le_weak.
  - apply flt_exact_false in Hlt. repeat split; [apply Qcle_refl|done|by left].
Qed.



Lemma fabs_exact_nonneg (a : Qc) : 0 <= fabs a.
Proof. simpl. qc_to_q. apply Qabs_nonneg. Qed.
End exact.

(** ** Scenario A *)

Section scenario_A.
Import engine_a.

(** Scenario A in exact arithmetic: the pressure is 2 and the step returns
    D_next=0.4, T_next=0.42, C_next=8.6, F_next=8.042, the decimals the design
    works out by hand. *)
Remark engine_a_step_scenario_A_exact :
  pressure (F scenario_A_state) (C scenario_A_state) = dec 2 1 /\
  engine_a_step scenario_A_state scenario_A_params (dec 0 1) (dec 0 1)
  = {| F := dec 8042 1000; C := dec 86 10; T := dec 42 100; D := dec 4 10 |}.
Proof.
  split.
  - apply Qc_is_canon. reflexivity.
  - unfold engine_a_step. cbn [F C T D]. f_equal; apply Qc_is_canon; reflexivity.
Qed.

(** C3, amended. On the doubles the program computes with, one step of
    Engine A from F=10, C=8, T=0.5, D=0 with r=0.1, alpha=0.2, delta=0.1,
    lambda_trust=0.05, rho_trust=0.02, kappa_capacity=0.3 and zero shocks
    computes the pressure P=2 and returns the doubles that the literals
    0.4, 8.6 and 8.042 denote for D_next, C_next and F_next, and the trust
    T_next=0.42000000000000004, which is greater than the double that 0.42
    denotes: [0.5 + 0.02] rounds to 0.52, and [0.52 - 0.05 * 2] is
    [0.52 - 0.1], which rounds up. *)
Theorem engine_a_step_scenario_A :
  pressure (F scenario_A_state_binary64) (C scenario_A_state_binary64)
  = 2%float /\
  engine_a_step scenario_A_state_binary64 scenario_A_params_binary64
    0%float 0%float
  = {| F := 8.042; C := 8.6; T := 0.42000000000000004; D := 0.4 |}%float /\
  (0.5 + 0.02 = 0.52)%float /\
  (0.05 * 2 = 0.1)%float /\
  (0.52 - 0.1 = 0.42000000000000004)%float /\
  (0.42 <? 0.42000000000000004)%float = true.
Proof.
  split; [reflexivity|].
  split; [unfold engine_a_step; cbn [F C T D]; reflexivity|].
  repeat split; reflexivity.
Qed.

(** The trust that the step of scenario A returns on doubles is not the
    double that 0.42 denotes, but a greater one. *)
Lemma engine_a_step_scenario_A_trust_above_0_42 :
  (T (engine_a_step scenario_A_state_binary64 scenario_A_params_binary64
        0 0) =? 0.42)%float = false /\
  (0.42 <? T (engine_a_step scenario_A_state_binary64
                scenario_A_params_binary64 0 0))%float = true.
Proof. split; reflexivity. Qed.
End scenario_A.

(** ** Pressure *)

Section pressure.
Local Open Scope Qc_scope.
Import engine_a engine_b engine_c.

Lemma pressure_exact (F C : Qc) :
  0 <= pressure F C /\ F - C <= pressure F C /\
  (pressure F C = 0 \/ pressure F C = F - C).
Proof. apply py_max_exact. Qed.

(** Kernel 2 at stock 0, capacity 8, inflow 5, outflow 0: the flow 5 is
    below the capacity and the reported pressure is -3, not 0. *)
Lemma kernel2_step_pressure_negative :
  (kernel_2_capacity_pressure.kernel2_step (dec 0 1) (dec 8 1) (dec 5 1) (dec 0 1) (dec 3 10)).2
  = dec (-3) 1 /\
  (kernel_2_capacity_pressure.kernel2_step (dec 0 1) (dec 8 1) (dec 5 1) (dec 0 1) (dec 3 10)).2 < 0.
Proof. split; [apply Qc_is_canon|]; reflexivity. Qed.

(** C6, amended. In Engines A, B and C the pressure of a system is
    [max(0, F - C)]: never negative, at least [F - C], and one of the two.
    Kernel 2, Kernel 3 and the two-system kernel report the signed
    difference flow minus capacity instead. *)
Theorem pressure_by_variant :
  (forall F C : Qc,
      0 <= pressure F C /\ F - C <= pressure F C /\
      (pressure F C = 0 \/ pressure F C = F - C)) /\
  (forall (state : EngineAState Qc) params shock_F shock_C,
      let P := pressure (F state) (C state) in
      D (engine_a_step state params shock_F shock_C)
      = D state + engine_a.alpha params * P - engine_a.delta params * D state) /\
  (forall (state : EngineBState Qc) params sFf sCf sFs sCs,
      let Pf := pressure (F (fast_state state)) (C (fast_state state)) in
      let Ps := pressure (F (slow_state state)) (C (slow_state state)) in
      let next := engine_b_step state params sFf sCf sFs sCs in
      D (fast_state next)
      = D (fast_state state) + engine_b.alpha (fast params) * Pf
        - engine_b.delta (fast params) * D (fast_state state) /\
      F (slow_state next)
      = F (slow_state state)
        + engine_b.r (slow params) * T (slow_state next) + sFs - Ps) /\
  (forall state : EngineCState Qc,
      pressures state = (fun s => pressure (F s) (C s)) <$> systems state) /\
  (forall stock capacity inflow outflow k_capacity : Qc,
      (kernel_2_capacity_pressure.kernel2_step stock capacity inflow outflow k_capacity).2
      = inflow - outflow - capacity) /\
  (forall stock capacity drift inflow outflow k_capacity alpha delta : Qc,
      (kernel_3_drift_cycle.kernel3_step stock capacity drift inflow outflow k_capacity alpha delta).2
      = inflow - outflow - capacity) /\
  (forall F1 C1 D1 F2 C2 D2 T k1 k2 alpha1 alpha2 delta1 delta2 r1 r2
          lambda_T coupling shock1 : Qc,
      let step := two_system_contagion_kernel.two_system_step F1 C1 D1 F2 C2 D2 T k1 k2 alpha1 alpha2
                    delta1 delta2 r1 r2 lambda_T coupling shock1 in
      step.1.2 = F1 - C1 /\ step.2 = F2 - C2).
Proof.
  split; [exact pressure_exact|].
  split; [done|]. split; [done|].
  split; [exact pressures_fmap|]. done.
Qed.
End pressure.

(** ** Trust *)

Section trust.
Local Open Scope Qc_scope.
Import engine_a engine_b engine_c.






Lemma trust_erosion_exact (T lambda_T a1 a2 : Qc) :
  0 <= lambda_T -> 0 <= T -> 0 <= a1 -> 0 <= a2 ->
  0 <= py_max 0 (T - lambda_T * (a1 + a2)) <= T.
Proof.
  intros Hlam HT Ha1 Ha2.
  destruct (py_max_exact 0 (T - lambda_T * (a1 + a2))) as (H0 & _ & [Heq|Heq]);
    rewrite Heq in *.
  - done.
  - split; [done|]. clear Heq H0. qc_to_q. nra.
Qed.

(** One step of the two-system kernel, on the shared trust. *)
Lemma two_system_step_T_next
    (F1 C1 D1 F2 C2 D2 T k1 k2 alpha1 alpha2 delta1 delta2 r1 r2
     lambda_T coupling shock1 : Qc) :
  0 <= lambda_T -> 0 <= T ->
  0 <= (two_system_contagion_kernel.two_system_step F1 C1 D1 F2 C2 D2 T
          k1 k2 alpha1 alpha2 delta1 delta2 r1 r2 lambda_T coupling shock1).1.1.2
    <= T.
Proof.
  intros Hlam HT.
  exact (trust_erosion_exact T lambda_T (fabs (F1 - C1)) (fabs (F2 - C2))
           Hlam HT (fabs_exact_nonneg _) (fabs_exact_nonneg _)).
Qed.
End trust.

(** ** The recording kernels *)

Section recording_kernels.
Context {A : Type} `{Arith A}.
Import two_system_contagion_kernel.

Lemma length_simulate_two_system_kernel (T_steps : Z)
    (F1_0 C1_0 D1_0 F2_0 C2_0 D2_0 T0 : A)
    (k1 k2 alpha1 alpha2 delta1 delta2 r1 r2 lambda_T coupling : A)
    (bubble_steps : Z) (bubble_shock : A) :
  length (simulate_two_system_kernel T_steps F1_0 C1_0 D1_0 F2_0 C2_0 D2_0 T0
            k1 k2 alpha1 alpha2 delta1 delta2 r1 r2 lambda_T coupling
            bubble_steps bubble_shock)
  = Z.to_nat T_steps.
Proof.
  unfold simulate_two_system_kernel, py_range.
  match goal with
  | |- context [fold_left ?f (seq 0 ?n) ?s] =>
      pose proof (fold_left_invariant
        (fun k acc => length acc.2 = k) f n s eq_refl) as Hinv
  end.
  simpl in Hinv.
  destruct (fold_left _ _ _) as [acc states]. apply Hinv.
  intros k [[[[[[[F1 C1] D1] F2] C2] D2] T] states'] _ Hk. simpl in *.
  rewrite length_app. simpl. lia.
Qed.

Lemma length_simulate_kernel2 (T : Z) (S0 C0 k_capacity : A)
    (inflow_rule outflow_rule : Z -> A -> A -> A) :
  length (kernel_2_capacity_pressure.simulate_kernel2 T S0 C0 k_capacity
            inflow_rule outflow_rule)
  = Z.to_nat T.
Proof.
  unfold kernel_2_capacity_pressure.simulate_kernel2, py_range.
  match goal with
  | |- context [fold_left ?f (seq 0 ?n) ?s] =>
      pose proof (fold_left_invariant
        (fun k acc => length acc.2 = k) f n s eq_refl) as Hinv
  end.
  simpl in Hinv.
  destruct (fold_left _ _ _) as [[S C] states]. apply Hinv.
  intros k [[S' C'] states'] _ Hk. simpl in *.
  rewrite length_app. simpl. lia.
Qed.

Lemma length_simulate_kernel3 (T : Z) (S0 C0 D0 k_capacity alpha delta : A)
    (inflow_rule outflow_rule : Z -> A -> A -> A -> A) :
  length (kernel_3_drift_cycle.simulate_kernel3 T S0 C0 D0 k_capacity alpha
            delta inflow_rule outflow_rule)
  = Z.to_nat T.
Proof.
  unfold kernel_3_drift_cycle.simulate_kernel3, py_range.
  match goal with
  | |- context [fold_left ?f (seq 0 ?n) ?s] =>
      pose proof (fold_left_invariant
        (fun k acc => length acc.2 = k) f n s eq_refl) as Hinv
  end.
  simpl in Hinv.
  destruct (fold_left _ _ _) as [[[S C] D] states]. apply Hinv.
  intros k [[[S' C'] D'] states'] _ Hk. simpl in *.
  rewrite length_app. simpl. lia.
Qed.
End recording_kernels.

(** The recording kernels, record by record. *)

Section recorded_series.
Context {A : Type} `{Arith A}.

(** A loop that keeps a state and appends one record per round. *)
Lemma record_loop {S R} (step : S -> nat -> S) (rec : S -> nat -> R)
    (after : nat -> S) (n : nat) :
  (forall t, after (Datatypes.S t) = step (after t) t) ->
  fold_left (fun acc t => (step acc.1 t, acc.2 ++ [rec acc.1 t]))
            (seq 0 n) (after 0, [])
  = (after n, (fun t => rec (after t) t) <$> seq 0 n).
Proof.
  intros Hafter. induction n as [|n IH]; [done|].
  rewrite seq_S, fold_left_app, IH. simpl.
  by rewrite Hafter, fmap_app.
Qed.

Lemma simulate_kernel2_series (T : Z) (S0 C0 k_capacity : A)
    (inflow_rule outflow_rule : Z -> A -> A -> A) :
  kernel_2_capacity_pressure.simulate_kernel2 T S0 C0 k_capacity
    inflow_rule outflow_rule
  = (fun t =>
       kernel2_record k_capacity inflow_rule outflow_rule
         (kernel2_after S0 C0 k_capacity inflow_rule outflow_rule t) t)
    <$> seq 0 (Z.to_nat T).
Proof.
  unfold kernel_2_capacity_pressure.simulate_kernel2, py_range.
  set (step := fun (st : A * A) (t : nat) =>
    (st.1 + inflow_rule (Z.of_nat t) st.1 st.2
     - outflow_rule (Z.of_nat t) st.1 st.2,
     st.2 + k_capacity
            * (inflow_rule (Z.of_nat t) st.1 st.2
               - outflow_rule (Z.of_nat t) st.1 st.2 - st.2))%A).
  rewrite (fold_left_ext _
    (fun acc t =>
       (step acc.1 t,
        acc.2 ++ [kernel2_record k_capacity inflow_rule outflow_rule acc.1 t])))
    by (by intros [[S C] states] t).
  rewrite (record_loop step _
    (kernel2_after S0 C0 k_capacity inflow_rule outflow_rule)).
  - by destruct (kernel2_after _ _ _ _ _ (Z.to_nat T)).
  - intros t. simpl.
    by destruct (kernel2_after S0 C0 k_capacity inflow_rule outflow_rule t).
Qed.
End recorded_series.

Section recorded_series_more.
Context {A : Type} `{Arith A}.

Lemma simulate_kernel3_series (T : Z) (S0 C0 D0 k_capacity alpha delta : A)
    (inflow_rule outflow_rule : Z -> A -> A -> A -> A) :
  kernel_3_drift_cycle.simulate_kernel3 T S0 C0 D0 k_capacity alpha delta
    inflow_rule outflow_rule
  = (fun t =>
       kernel3_record k_capacity alpha delta inflow_rule outflow_rule
         (kernel3_after S0 C0 D0 k_capacity alpha delta inflow_rule
            outflow_rule t) t)
    <$> seq 0 (Z.to_nat T).
Proof.
  unfold kernel_3_drift_cycle.simulate_kernel3, py_range.
  set (step := fun (st : A * A * A) (t : nat) =>
    let I_t := inflow_rule (Z.of_nat t) st.1.1 st.1.2 st.2 in
    let O_t := outflow_rule (Z.of_nat t) st.1.1 st.1.2 st.2 in
    (st.1.1 + I_t - O_t,
     st.1.2 + k_capacity * (I_t - O_t - st.1.2),
     (fone - delta) * st.2 + alpha * (I_t - O_t - st.1.2))%A).
  rewrite (fold_left_ext _
    (fun acc t =>
       (step acc.1 t,
        acc.2 ++ [kernel3_record k_capacity alpha delta inflow_rule
                    outflow_rule acc.1 t])))
    by (by intros [[[S_t C_t] D_t] states] t).
  rewrite (record_loop step _
    (kernel3_after S0 C0 D0 k_capacity alpha delta inflow_rule outflow_rule)).
  - by destruct (kernel3_after _ _ _ _ _ _ _ _ (Z.to_nat T)) as [[S_t C_t] D_t].
  - intros t. simpl.
    by destruct (kernel3_after S0 C0 D0 k_capacity alpha delta inflow_rule
                   outflow_rule t) as [[S_t C_t] D_t].
Qed.

Lemma simulate_two_system_kernel_series (T_steps : Z)
    (F1_0 C1_0 D1_0 F2_0 C2_0 D2_0 T0 : A)
    (k1 k2 alpha1 alpha2 delta1 delta2 r1 r2 lambda_T coupling : A)
    (bubble_steps : Z) (bubble_shock : A) :
  let after :=
    two_system_after F1_0 C1_0 D1_0 F2_0 C2_0 D2_0 T0 k1 k2 alpha1 alpha2
      delta1 delta2 r1 r2 lambda_T coupling bubble_steps bubble_shock in
  two_system_contagion_kernel.simulate_two_system_kernel T_steps
    F1_0 C1_0 D1_0 F2_0 C2_0 D2_0 T0 k1 k2 alpha1 alpha2 delta1 delta2
    r1 r2 lambda_T coupling bubble_steps bubble_shock
  = (fun t => two_system_record (after t) (after (S t)) t)
    <$> seq 0 (Z.to_nat T_steps).
Proof.
  intros after.
  unfold two_system_contagion_kernel.simulate_two_system_kernel, py_range.
  set (step := fun (st : A * A * A * A * A * A * A) (t : nat) =>
    let '(F1, C1, D1, F2, C2, D2, T) := st in
    let shock1 :=
      if (Z.of_nat t <? bubble_steps)%Z then bubble_shock else fzero in
    let '(F1', C1', D1', F2', C2', D2', T', _, _) :=
      two_system_contagion_kernel.two_system_step F1 C1 D1 F2 C2 D2 T
        k1 k2 alpha1 alpha2 delta1 delta2 r1 r2 lambda_T coupling shock1 in
    (F1', C1', D1', F2', C2', D2', T')).
  assert (Hstep : forall t, after (S t) = step (after t) t).
  { intros t. unfold step, after. simpl.
    by destruct (two_system_after _ _ _ _ _ _ _ _ _ _ _ _ _ _ _ _ _ _ _ t)
      as [[[[[[F1 C1] D1] F2] C2] D2] T]. }
  rewrite (fold_left_ext _
    (fun acc t => (step acc.1 t,
                   acc.2 ++ [two_system_record acc.1 (step acc.1 t) t])))
    by (by intros [[[[[[[F1 C1] D1] F2] C2] D2] T] states] t).
  rewrite (record_loop step (fun st t => two_system_record st (step st t) t)
             after _ Hstep).
  destruct (after (Z.to_nat T_steps)) as [[[[[[F1 C1] D1] F2] C2] D2] T].
  simpl. apply list_fmap_ext. intros _ t _. simpl. by rewrite Hstep.
Qed.
End recorded_series_more.

Section two_system_trust.
Local Open Scope Qc_scope.
Import two_system_contagion_kernel.

(** Along a run of the two-system kernel with [lambda_T >= 0] from a
    trust [T0 >= 0], the recorded trust stays in [[0, T0]] and never
    increases from one record to a later one. *)
Lemma simulate_two_system_kernel_trust (T_steps : Z)
    (F1_0 C1_0 D1_0 F2_0 C2_0 D2_0 T0 : Qc)
    (k1 k2 alpha1 alpha2 delta1 delta2 r1 r2 lambda_T coupling : Qc)
    (bubble_steps : Z) (bubble_shock : Qc) :
  0 <= lambda_T -> 0 <= T0 ->
  let states :=
    simulate_two_system_kernel T_steps F1_0 C1_0 D1_0 F2_0 C2_0 D2_0 T0
      k1 k2 alpha1 alpha2 delta1 delta2 r1 r2 lambda_T coupling
      bubble_steps bubble_shock in
  (forall i st, states !! i = Some st -> 0 <= T st <= T0) /\
  (forall i j st_i st_j, (i <= j)%nat ->
      states !! i = Some st_i -> states !! j = Some st_j ->
      T st_j <= T st_i).
Proof.
  intros Hlam HT0. unfold simulate_two_system_kernel, py_range.
  match goal with
  | |- context [fold_left ?f (seq 0 ?n) ?s] =>
      pose proof (fold_left_invariant
        (fun (k : nat) acc =>
           0 <= acc.1.2 <= T0 /\
           (forall i st, acc.2 !! i = Some st -> acc.1.2 <= T st <= T0) /\
           (forall i j st_i st_j, (i <= j)%nat ->
               acc.2 !! i = Some st_i -> acc.2 !! j = Some st_j ->
               T st_j <= T st_i)) f n s) as Hinv
  end.
  simpl in Hinv.
  destruct (fold_left _ _ _) as [[acc Tn] states].
  destruct Hinv as ((HTn & _) & Hrange & Hmono).
  - split; [split; [done|apply Qcle_refl]|]. split; intros; done.
  - intros k [[[[[[[F1 C1] D1] F2] C2] D2] Tk] recs]
      _ ((HTk & HTk0) & Hrange & Hmono).
    cbn [fst snd] in *.
    set (shock1 := if (Z.of_nat k <? bubble_steps)%Z then _ else _).
    pose proof (two_system_step_T_next F1 C1 D1 F2 C2 D2 Tk k1 k2 alpha1
      alpha2 delta1 delta2 r1 r2 lambda_T coupling shock1) as Hstep.
    unfold two_system_step in *. cbn [fst snd] in *.
    set (Tnext := py_max _ _) in *.
    destruct (Hstep Hlam HTk) as [Hn0 HnT].
    match goal with |- context [recs ++ [?r]] => set (rec := r) in * end.
    assert (HrecT : T rec = Tnext) by done.
    assert (Hrec : forall i st, (recs ++ [rec]) !! i = Some st ->
              (recs !! i = Some st /\ (i < length recs)%nat) \/
              (i = length recs /\ st = rec)).
    { intros i st Hl. apply lookup_app_Some in Hl as [Hl|[Hlen Hl]].
      - left. split; [done|]. by eapply lookup_lt_Some.
      - right. apply list_lookup_singleton_Some in Hl as [Hi ->].
        split; [lia|done]. }
    clearbody rec Tnext.
    split; [split; [done|by eapply Qcle_trans]|]. split.
    + intros i st Hl. destruct (Hrec _ _ Hl) as [[Hl' _]|[_ ->]].
      * destruct (Hrange _ _ Hl'). split; [by eapply Qcle_trans|done].
      * rewrite HrecT. split; [apply Qcle_refl|by eapply Qcle_trans].
    + intros i j st_i st_j Hij Hi Hj.
      destruct (Hrec _ _ Hi) as [[Hi' Hilt]|[Hieq ->]],
               (Hrec _ _ Hj) as [[Hj' Hjlt]|[Hjeq ->]].
      * eauto.
      * rewrite HrecT. destruct (Hrange _ _ Hi'). by eapply Qcle_trans.
      * lia.
      * apply Qcle_refl.
  - cbn [fst snd] in *. split; [|done].
    intros i st Hl. destruct (Hrange _ _ Hl).
    split; [by eapply Qcle_trans|done].
Qed.
End two_system_trust.

(** ** Claims on trust *)

Section trust_claims.
Local Open Scope Qc_scope.
Import engine_a engine_b engine_c.





(** The two-system kernel at trust -1, with nothing else going on, returns
    trust 0: the shared trust went up. *)
Lemma two_system_step_trust_increases :
  (two_system_contagion_kernel.two_system_step
     (dec 0 1) (dec 0 1) (dec 0 1) (dec 0 1) (dec 0 1) (dec 0 1) (dec (-1) 1)
     (dec 2 10) (dec 5 100) (dec 4 10) (dec 2 10) (dec 1 10) (dec 5 100)
     (dec 8 10) (dec 5 10) (dec 1 10) (dec 3 10) (dec 0 1)).1.1.2
  = dec 0 1 /\
  dec (-1) 1 < dec 0 1 /\ 0 <= dec 1 10.
Proof. split; [apply Qc_is_canon; reflexivity|split; by vm_compute]. Qed.

(** C10, amended. In the two-system kernel, when [lambda_T >= 0] and the
    shared trust [T] is not negative, the trust one step returns satisfies
    [0 <= T_next <= T]; so over a run started at a trust [T >= 0] the
    recorded trust never increases and stays in [[0, T]]. *)
Theorem two_system_trust_never_increases
    (F1 C1 D1 F2 C2 D2 T k1 k2 alpha1 alpha2 delta1 delta2 r1 r2
     lambda_T coupling shock1 : Qc) :
  0 <= lambda_T -> 0 <= T ->
  0 <= (two_system_contagion_kernel.two_system_step F1 C1 D1 F2 C2 D2 T
          k1 k2 alpha1 alpha2 delta1 delta2 r1 r2 lambda_T coupling shock1).1.1.2
    <= T /\
  forall T_steps bubble_steps bubble_shock,
    let states :=
      two_system_contagion_kernel.simulate_two_system_kernel T_steps
        F1 C1 D1 F2 C2 D2 T k1 k2 alpha1 alpha2 delta1 delta2 r1 r2
        lambda_T coupling bubble_steps bubble_shock in
    (forall i st, states !! i = Some st ->
        0 <= two_system_contagion_kernel.T st <= T) /\
    (forall i j st_i st_j, (i <= j)%nat ->
        states !! i = Some st_i -> states !! j = Some st_j ->
        two_system_contagion_kernel.T st_j <= two_system_contagion_kernel.T st_i).
Proof.
  intros Hlam HT. split.
  - by apply two_system_step_T_next.
  - intros T_steps bubble_steps bubble_shock.
    by apply simulate_two_system_kernel_trust.
Qed.

Lemma two_system_trust_never_increases_witness :
  0 <= (two_system_contagion_kernel.two_system_step
          (dec 2 1) (dec 1 1) (dec 0 1) (dec 1 1) (dec 1 1) (dec 0 1) (dec 1 1)
          (dec 2 10) (dec 5 100) (dec 4 10) (dec 2 10) (dec 1 10) (dec 5 100)
          (dec 8 10) (dec 5 10) (dec 1 10) (dec 3 10) (dec 5 10)).1.1.2
    <= dec 1 1.
Proof.
  apply (two_system_trust_never_increases
           (dec 2 1) (dec 1 1) (dec 0 1) (dec 1 1) (dec 1 1) (dec 0 1) (dec 1 1)
           (dec 2 10) (dec 5 100) (dec 4 10) (dec 2 10) (dec 1 10) (dec 5 100)
           (dec 8 10) (dec 5 10) (dec 1 10) (dec 3 10) (dec 5 10));
    by vm_compute.
Defined.
End trust_claims.

(** ** Claims on the drivers *)

Section driver_claims.
Context {A : Type} `{Arith A}.
Import engine_a engine_b engine_c.

(** C5, amended. For every step count [steps >= 0] the drivers of Engines
    A, B and C return [steps + 1] states: index 0 is the initial state and
    index [t] the state after [t] transitions (Engine C returns whenever
    the dimensions fit). The other three drivers return one record per
    step, [steps] records. In [simulate_kernel2] and [simulate_kernel3] the
    record of index [t] is stamped [t] and holds the stock, capacity (and
    drift) after [t] transitions, those the step [t] starts from: the record
    of index 0 holds the initial [S0], [C0] (and [D0]), and what the last
    step returns is in no record. In [simulate_two_system_kernel] the record
    of index [t] is stamped [t] and holds the flows, capacities, drifts and
    trust after [t + 1] transitions: the initial condition is in no
    record. *)
Theorem history_length_by_variant (steps : Z) :
  (0 <= steps)%Z ->
  (forall (state : EngineAState A) params shocks_F shocks_C,
      let history := run_engine_a state params steps shocks_F shocks_C in
      Z.of_nat (length history) = (steps + 1)%Z /\
      history !! 0 = Some state /\
      forall t, t <= Z.to_nat steps ->
        history !! t
        = Some (engine_a_after state params shocks_F shocks_C t)) /\
  (forall (state : EngineBState A) params,
      let history := run_engine_b state params steps in
      Z.of_nat (length history) = (steps + 1)%Z /\
      history !! 0 = Some state /\
      forall t, t <= Z.to_nat steps ->
        history !! t = Some (engine_b_after state params t)) /\
  (forall (state : EngineCState A) params,
      (dimensions_ok state params ->
       exists history, run_engine_c state params steps = Ok history) /\
      forall history, run_engine_c state params steps = Ok history ->
        Z.of_nat (length history) = (steps + 1)%Z /\
        history !! 0 = Some state /\
        forall t, t <= Z.to_nat steps ->
          exists state_t, engine_c_after state params t = Ok state_t /\
                          history !! t = Some state_t) /\
  (forall F1_0 C1_0 D1_0 F2_0 C2_0 D2_0 T0 k1 k2 alpha1 alpha2 delta1 delta2
          r1 r2 lambda_T coupling bubble_steps (bubble_shock : A),
      let states :=
        two_system_contagion_kernel.simulate_two_system_kernel steps
          F1_0 C1_0 D1_0 F2_0 C2_0 D2_0 T0 k1 k2 alpha1 alpha2 delta1
          delta2 r1 r2 lambda_T coupling bubble_steps bubble_shock in
      Z.of_nat (length states) = steps /\
      forall t r, states !! t = Some r ->
        two_system_contagion_kernel.t r = Z.of_nat t /\
        (two_system_contagion_kernel.F1 r, two_system_contagion_kernel.C1 r,
         two_system_contagion_kernel.D1 r, two_system_contagion_kernel.F2 r,
         two_system_contagion_kernel.C2 r, two_system_contagion_kernel.D2 r,
         two_system_contagion_kernel.T r)
        = two_system_after F1_0 C1_0 D1_0 F2_0 C2_0 D2_0 T0 k1 k2 alpha1
            alpha2 delta1 delta2 r1 r2 lambda_T coupling bubble_steps
            bubble_shock (S t)) /\
  (forall (S0 C0 k_capacity : A) inflow_rule outflow_rule,
      let states :=
        kernel_2_capacity_pressure.simulate_kernel2 steps S0 C0 k_capacity
          inflow_rule outflow_rule in
      Z.of_nat (length states) = steps /\
      (forall r, states !! 0 = Some r ->
         kernel_2_capacity_pressure.stock r = S0 /\
         kernel_2_capacity_pressure.capacity r = C0) /\
      forall t r, states !! t = Some r ->
        kernel_2_capacity_pressure.t r = Z.of_nat t /\
        (kernel_2_capacity_pressure.stock r,
         kernel_2_capacity_pressure.capacity r)
        = kernel2_after S0 C0 k_capacity inflow_rule outflow_rule t) /\
  (forall (S0 C0 D0 k_capacity alpha delta : A) inflow_rule outflow_rule,
      let states :=
        kernel_3_drift_cycle.simulate_kernel3 steps S0 C0 D0 k_capacity
          alpha delta inflow_rule outflow_rule in
      Z.of_nat (length states) = steps /\
      (forall r, states !! 0 = Some r ->
         kernel_3_drift_cycle.stock r = S0 /\
         kernel_3_drift_cycle.capacity r = C0 /\
         kernel_3_drift_cycle.drift r = D0) /\
      forall t r, states !! t = Some r ->
        kernel_3_drift_cycle.t r = Z.of_nat t /\
        (kernel_3_drift_cycle.stock r, kernel_3_drift_cycle.capacity r,
         kernel_3_drift_cycle.drift r)
        = kernel3_after S0 C0 D0 k_capacity alpha delta inflow_rule
            outflow_rule t).
Proof.
  intros Hsteps.
  assert (Hseq : forall {X} (f : nat -> X) t, t <= Z.to_nat steps ->
            (f <$> seq 0 (S (Z.to_nat steps))) !! t = Some (f t)).
  { intros X f t Ht. rewrite list_lookup_fmap, lookup_seq_lt by lia. done. }
  split; [|split; [|split; [|split; [|split]]]].
  - intros state params shocks_F shocks_C history. subst history.
    rewrite run_engine_a_history. split; [|split].
    + rewrite length_fmap, length_seq. lia.
    + apply (Hseq _ (engine_a_after state params shocks_F shocks_C) 0). lia.
    + intros t Ht. by apply Hseq.
  - intros state params history. subst history.
    rewrite run_engine_b_history. split; [|split].
    + rewrite length_fmap, length_seq. lia.
    + apply (Hseq _ (engine_b_after state params) 0). lia.
    + intros t Ht. by apply Hseq.
  - intros state params. split.
    + intros Hdim. rewrite run_engine_c_ok by done. eauto.
    + intros history Hrun.
      destruct (run_engine_c_Ok _ _ _ _ Hrun) as [Hlen Hhist].
      split; [lia|]. split; [|done].
      destruct (Hhist 0) as (state0 & Hafter & Hlook); [lia|].
      simpl in Hafter. by injection Hafter as <-.
  - intros. subst states. split.
    + rewrite length_simulate_two_system_kernel. lia.
    + intros t r Hr. rewrite simulate_two_system_kernel_series in Hr.
      apply lookup_fmap_seq in Hr as [_ ->].
      destruct (two_system_after _ _ _ _ _ _ _ _ _ _ _ _ _ _ _ _ _ _ _ (S t))
        as [[[[[[F1' C1'] D1'] F2'] C2'] D2'] T'].
      by destruct (two_system_after _ _ _ _ _ _ _ _ _ _ _ _ _ _ _ _ _ _ _ t)
        as [[[[[[F1 C1] D1] F2] C2] D2] T].
  - intros. subst states. split; [|split].
    + rewrite length_simulate_kernel2. lia.
    + intros r Hr. rewrite simulate_kernel2_series in Hr.
      by apply lookup_fmap_seq in Hr as [_ ->].
    + intros t r Hr. rewrite simulate_kernel2_series in Hr.
      apply lookup_fmap_seq in Hr as [_ ->].
      by destruct (kernel2_after S0 C0 k_capacity inflow_rule outflow_rule t).
  - intros. subst states. split; [|split].
    + rewrite length_simulate_kernel3. lia.
    + intros r Hr. rewrite simulate_kernel3_series in Hr.
      by apply lookup_fmap_seq in Hr as [_ ->].
    + intros t r Hr. rewrite simulate_kernel3_series in Hr.
      apply lookup_fmap_seq in Hr as [_ ->].
      by destruct (kernel3_after _ _ _ _ _ _ _ _ t) as [[S_t C_t] D_t].
Qed.

(** C7, amended. With a negative step count no driver raises an error and
    none runs a step: the drivers of Engines A, B and C return the history
    that holds the initial state alone (Engine C without checking the
    dimensions), the two-system kernel and Kernels 2 and 3 return the empty
    list. *)
Theorem negative_steps_run_nothing (steps : Z) :
  (steps < 0)%Z ->
  (forall (state : EngineAState A) params shocks_F shocks_C,
      run_engine_a state params steps shocks_F shocks_C = [state]) /\
  (forall (state : EngineBState A) params,
      run_engine_b state params steps = [state]) /\
  (forall (state : EngineCState A) params,
      run_engine_c state params steps = Ok [state]) /\
  (forall F1_0 C1_0 D1_0 F2_0 C2_0 D2_0 T0 k1 k2 alpha1 alpha2 delta1 delta2
          r1 r2 lambda_T coupling bubble_steps (bubble_shock : A),
      two_system_contagion_kernel.simulate_two_system_kernel steps
        F1_0 C1_0 D1_0 F2_0 C2_0 D2_0 T0 k1 k2 alpha1 alpha2 delta1
        delta2 r1 r2 lambda_T coupling bubble_steps bubble_shock
      = []) /\
  (forall (S0 C0 k_capacity : A) inflow_rule outflow_rule,
      kernel_2_capacity_pressure.simulate_kernel2 steps S0 C0 k_capacity
        inflow_rule outflow_rule
      = []) /\
  (forall (S0 C0 D0 k_capacity alpha delta : A) inflow_rule outflow_rule,
      kernel_3_drift_cycle.simulate_kernel3 steps S0 C0 D0 k_capacity
        alpha delta inflow_rule outflow_rule
      = []).
Proof.
  intros Hsteps.
  unfold run_engine_a, run_engine_b, run_engine_c,
    two_system_contagion_kernel.simulate_two_system_kernel,
    kernel_2_capacity_pressure.simulate_kernel2,
    kernel_3_drift_cycle.simulate_kernel3.
  rewrite py_range_nonpos by lia. done.
Qed.

(** C9. When the dimension checks pass, one step of Engine C returns a
    network of exactly as many systems, and the system at index [i] is the
    single-system kernel applied to the input system at index [i] with the
    parameter set at index [i] (its flow shock being the exogenous shock
    [i] plus the endogenous one, its capacity shock the exogenous one). *)
Theorem engine_c_step_index_aligned (state : EngineCState A)
    (params : EngineCParams A) (shocks_F shocks_C : option (list A)) :
  dimensions_ok state params ->
  exists next,
    engine_c_step state params shocks_F shocks_C = Ok next /\
    length (systems next) = length (systems state) /\
    dimensions_ok next params /\
    forall i s p,
      systems state !! i = Some s ->
      params_per_system params !! i = Some p ->
      exists endogenous,
        systems next !! i
        = Some (engine_a_step s p (shock_or_zero shocks_F i + endogenous)%A
                  (shock_or_zero shocks_C i)).
Proof.
  intros Hdim. exists (network_step_spec state params shocks_F shocks_C).
  split; [by apply engine_c_step_ok|].
  split; [apply length_network_step_spec, Hdim|].
  split; [by apply dimensions_ok_network_step_spec|].
  intros i s p Hs Hp. eexists. by apply lookup_network_step_spec.
Qed.
End driver_claims.

(** ** Coupling *)

Section coupling.
Local Open Scope Qc_scope.
Import engine_a engine_c.

Lemma sigma_zero (n : nat) (f : nat -> Qc) :
  (forall j, f j = 0) -> sigma n f = 0.
Proof.
  intros Hf. unfold sigma. induction n as [|n IH]; [done|].
  rewrite seq_S, fold_left_app, IH. simpl. rewrite Hf.
  apply Qcplus_0_l.
Qed.

Lemma entry_zero (W : list (list Qc)) (i j : nat) :
  Forall (Forall (fun w => w = 0)) W -> entry W i j = 0.
Proof.
  intros HW. unfold entry.
  destruct (W !! i) as [row|] eqn:Hrow; [|done]. simpl.
  destruct (row !! j) as [w|] eqn:Hw; [|done]. simpl.
  rewrite Forall_lookup in HW. specialize (HW _ _ Hrow).
  rewrite Forall_lookup in HW. by apply (HW _ _ Hw).
Qed.

Lemma sigma_zero_coupling (params : EngineCParams Qc) (n i : nat)
    (P : nat -> Qc) :
  Forall (Forall (fun w => w = 0)) (W params) ->
  sigma n (fun j => entry (W params) i j * P j) = 0.
Proof.
  intros HW. apply sigma_zero. intros j. rewrite entry_zero by done.
  apply Qcmult_0_l.
Qed.

Lemma zero_coupling_step (state : EngineCState Qc) params shocks_F shocks_C
    i s p :
  Forall (Forall (fun w => w = 0)) (W params) ->
  systems state !! i = Some s ->
  params_per_system params !! i = Some p ->
  systems (network_step_spec state params shocks_F shocks_C) !! i
  = Some (engine_a_step s p (shock_or_zero shocks_F i)
            (shock_or_zero shocks_C i)).
Proof.
  intros HW Hs Hp. rewrite (lookup_network_step_spec _ _ _ _ _ _ _ Hs Hp).
  simpl. rewrite sigma_zero_coupling by done.
  by rewrite Qcplus_0_r.
Qed.

Lemma zero_coupling_after (state : EngineCState Qc) params i s p t :
  dimensions_ok state params ->
  Forall (Forall (fun w => w = 0)) (W params) ->
  systems state !! i = Some s ->
  params_per_system params !! i = Some p ->
  systems (network_after state params t) !! i
  = Some (engine_a_after s p None None t).
Proof.
  intros Hdim HW Hs Hp. induction t as [|t IH]; [done|].
  cbn [network_after engine_a_after].
  by rewrite (zero_coupling_step _ _ _ _ _ _ _ HW IH Hp).
Qed.

Lemma zero_coupling_run (state : EngineCState Qc) params steps i s p :
  dimensions_ok state params ->
  Forall (Forall (fun w => w = 0)) (W params) ->
  systems state !! i = Some s ->
  params_per_system params !! i = Some p ->
  (fun st => systems st !! i)
    <$> (network_after state params <$> seq 0 (S (Z.to_nat steps)))
  = Some <$> run_engine_a s p steps None None.
Proof.
  intros Hdim HW Hs Hp.
  rewrite run_engine_a_history, <- !list_fmap_compose.
  apply list_fmap_ext. intros _ t _. simpl.
  by apply zero_coupling_after.
Qed.

(** In exact arithmetic, with an all-zero coupling matrix (and fitting
    dimensions) Engine C is Engine A on every system: one step returns, at each index, the
    Engine A step of that system with the same parameters and the same
    exogenous shocks; and along a run of the driver the trajectory of
    system [i] is, step for step, the history of [run_engine_a] on that
    system alone. In particular a network of one system with the 1x1 zero
    matrix reproduces the history of Engine A. *)
Remark zero_coupling_is_engine_a_exact :
  (forall (state : EngineCState Qc) params,
      dimensions_ok state params ->
      Forall (Forall (fun w => w = 0)) (W params) ->
      (forall shocks_F shocks_C, exists next,
          engine_c_step state params shocks_F shocks_C = Ok next /\
          length (systems next) = length (systems state) /\
          forall i s p,
            systems state !! i = Some s ->
            params_per_system params !! i = Some p ->
            systems next !! i
            = Some (engine_a_step s p (shock_or_zero shocks_F i)
                      (shock_or_zero shocks_C i))) /\
      (forall steps, exists history,
          run_engine_c state params steps = Ok history /\
          length history = S (Z.to_nat steps) /\
          forall i s p,
            systems state !! i = Some s ->
            params_per_system params !! i = Some p ->
            (fun st => systems st !! i) <$> history
            = Some <$> run_engine_a s p steps None None)) /\
  (forall (s : EngineAState Qc) (p : EngineAParams Qc) steps,
      run_engine_c {| systems := [s] |}
        {| params_per_system := [p]; W := [[0]] |} steps
      = Ok ((fun s => {| systems := [s] |})
              <$> run_engine_a s p steps None None)).
Proof.
  split.
  - intros state params Hdim HW. split.
    + intros shocks_F shocks_C.
      exists (network_step_spec state params shocks_F shocks_C).
      split; [by apply engine_c_step_ok|].
      split; [apply length_network_step_spec, Hdim|].
      intros i s p Hs Hp. by apply zero_coupling_step.
    + intros steps. eexists. split; [by apply run_engine_c_ok|].
      split; [by rewrite length_fmap, length_seq|].
      intros i s p Hs Hp. by apply zero_coupling_run.
  - intros s p steps.
    set (state := {| systems := [s] |}).
    set (params := {| params_per_system := [p]; W := [[0]] |}).
    assert (Hdim : dimensions_ok state params).
    { repeat split; repeat constructor. }
    assert (HW : Forall (Forall (fun w => w = 0)) (W params)).
    { repeat constructor. }
    rewrite run_engine_c_ok by done. f_equal.
    rewrite run_engine_a_history, <- list_fmap_compose.
    apply list_fmap_ext. intros _ t _. simpl.
    pose proof (zero_coupling_after state params 0%nat s p t Hdim HW
                  eq_refl eq_refl) as Hsys.
    destruct (dimensions_ok_network_after state params t Hdim) as [_ Hlen].
    destruct (network_after state params t) as [l]. simpl in *.
    destruct l as [|s' [|? ?]]; simpl in *; try done.
    by injection Hsys as ->.
Qed.

(** Scenario B in exact arithmetic: with two systems, [W[0][1] = 1] and
    every other entry zero, and system 1 at pressure 5, the endogenous shock
    of system 0 is 5 whatever system 0 is. *)
Remark scenario_B_exact (s0 s1 : EngineAState Qc) params :
  length (params_per_system params) = 2%nat ->
  W params = [[0; 1]; [0; 0]] ->
  pressure (F s1) (C s1) = dec 5 1 ->
  endogenous_shocks_F 2 params (pressures {| systems := [s0; s1] |})
  = Ok [dec 5 1; 0].
Proof.
  intros Hp HW HP. set (state := {| systems := [s0; s1] |}).
  assert (Hsum : forall P0 P1 : Qc, 0 + 0 * P0 + 1 * P1 = P1)
    by (intros; ring).
  assert (Hsum' : forall P0 P1 : Qc, 0 + 0 * P0 + 0 * P1 = 0)
    by (intros; ring).
  assert (HP1 : pressure_of state 1 = dec 5 1) by exact HP.
  assert (Hdim : dimensions_ok state params).
  { split; [done|]. rewrite HW. split; [done|]. by repeat constructor. }
  rewrite (endogenous_shocks_F_sigma state params Hdim).
  cbn [length systems state seq fmap list_fmap]. rewrite HW.
  unfold sigma. cbn [seq fold_left].
  change (entry _ 0 0) with (0 : Qc). change (entry _ 0 1) with (1 : Qc).
  change (entry _ 1 0) with (0 : Qc). change (entry _ 1 1) with (0 : Qc).
  rewrite HP1, Hsum, Hsum'. reflexivity.
Qed.
End coupling.

(** ** The claims at concrete inputs *)

Section instances.
Import engine_a engine_c.

(** Run for one step, the two-system kernel returns one record, not two,
    which holds the capacity 1.2 reached after the step and not the initial
    1; Kernels 2 and 3 return one record too, which holds the initial stock
    10 and capacity 8 (and drift 1). *)
Lemma recording_drivers_one_record :
  let states :=
    two_system_contagion_kernel.simulate_two_system_kernel 1
      (dec 2 1) (dec 1 1) (dec 0 1) (dec 1 1) (dec 1 1) (dec 0 1) (dec 1 1)
      (dec 2 10) (dec 5 100) (dec 4 10) (dec 2 10) (dec 1 10) (dec 5 100)
      (dec 8 10) (dec 5 10) (dec 1 10) (dec 3 10) 10 (dec 5 10) in
  let states2 :=
    kernel_2_capacity_pressure.simulate_kernel2 1 (dec 10 1) (dec 8 1)
      (dec 1 2) (fun _ _ _ => dec 2 1) (fun _ _ _ => dec 1 1) in
  let states3 :=
    kernel_3_drift_cycle.simulate_kernel3 1 (dec 10 1) (dec 8 1) (dec 1 1)
      (dec 1 2) (dec 1 4) (dec 1 2) (fun _ _ _ _ => dec 2 1)
      (fun _ _ _ _ => dec 1 1) in
  Z.of_nat (length states) = 1%Z /\
  (Z.of_nat (length states) <? 1 + 1)%Z = true /\
  two_system_contagion_kernel.C1 <$> states = [dec 12 10] /\
  Z.of_nat (length states2) = 1%Z /\
  (fun r => (kernel_2_capacity_pressure.stock r,
             kernel_2_capacity_pressure.capacity r)) <$> states2
  = [(dec 10 1, dec 8 1)] /\
  Z.of_nat (length states3) = 1%Z /\
  (fun r => (kernel_3_drift_cycle.stock r, kernel_3_drift_cycle.capacity r,
             kernel_3_drift_cycle.drift r)) <$> states3
  = [(dec 10 1, dec 8 1, dec 1 1)].
Proof.
  split; [done|]. split; [done|]. split; [|done].
  unfold two_system_contagion_kernel.simulate_two_system_kernel. simpl.
  f_equal; apply Qc_is_canon; reflexivity.
Qed.

Lemma history_length_by_variant_witness :
  Z.of_nat (length (run_engine_a scenario_A_state_binary64
                      scenario_A_params_binary64 50 None None))
  = 51%Z.
Proof.
  apply (proj1 (history_length_by_variant 50 ltac:(by vm_compute))
           scenario_A_state_binary64 scenario_A_params_binary64 None None).
Defined.

(** With the step count -1 the driver of Engine A returns the history of
    the initial state, and the driver of Engine C does so even for a
    network whose parameter list and coupling matrix are empty. *)
Lemma negative_steps_no_error :
  run_engine_a scenario_A_state scenario_A_params (-1) None None
  = [scenario_A_state] /\
  run_engine_c {| systems := [scenario_A_state] |}
    {| params_per_system := []; W := [] |} (-1)
  = Ok [ {| systems := [scenario_A_state] |} ].
Proof. split; reflexivity. Qed.

Lemma negative_steps_run_nothing_witness :
  run_engine_a scenario_A_state_binary64 scenario_A_params_binary64 (-5)
    None None
  = [scenario_A_state_binary64].
Proof.
  apply (proj1 (negative_steps_run_nothing (-5) eq_refl)).
Defined.

Lemma engine_c_step_index_aligned_witness :
  let state :=
    {| systems := [scenario_A_state_binary64; scenario_A_state_binary64] |} in
  let params :=
    {| params_per_system :=
         [scenario_A_params_binary64; scenario_A_params_binary64];
       W := [[0; 1]; [0.5; 0]]%float |} in
  exists next,
    engine_c_step state params None None = Ok next /\
    length (systems next) = length (systems state) /\
    dimensions_ok next params /\
    forall i s p,
      systems state !! i = Some s ->
      params_per_system params !! i = Some p ->
      exists endogenous,
        systems next !! i
        = Some (engine_a_step s p (shock_or_zero None i + endogenous)%A
                  (shock_or_zero None i)).
Proof.
  apply engine_c_step_index_aligned.
  repeat split; repeat constructor.
Defined.
End instances.

(** ** On binary64

    Rounding, overflow and NaN: what holds on the doubles the program
    computes with, read off the specification of the primitive floats. *)

Section binary64.
Import engine_a engine_c.
Local Open Scope float_scope.

Lemma ltb_leb (a b : float) : (a <? b) = true -> (a <=? b) = true.
Proof.
  rewrite ltb_spec, leb_spec. unfold SFltb, SFleb.
  by destruct (SFcompare _ _) as [[]|].
Qed.

(** [max(0.0, min(1.0, x))] lies in [[0, 1]] for every double [x], the
    infinities and NaN included. *)
Remark clamp_binary64 (x : float) :
  (0 <=? py_max 0 (py_min 1 x)) = true /\ (py_max 0 (py_min 1 x) <=? 1) = true.
Proof.
  unfold py_max, py_min. cbn [flt binary64_arith].
  destruct (x <? 1) eqn:Hx1.
  - destruct (0 <? x) eqn:Hx0.
    + split; by apply ltb_leb.
    + split; reflexivity.
  - split; reflexivity.
Qed.

(** Every trust a step of Engine A returns on doubles lies in [[0, 1]]. *)
Remark engine_a_step_trust_binary64 (state : EngineAState float) params
    shock_F shock_C :
  (0 <=? T (engine_a_step state params shock_F shock_C)) = true /\
  (T (engine_a_step state params shock_F shock_C) <=? 1) = true.
Proof. apply clamp_binary64. Qed.

(** The pressure of Engines A, B and C is never negative (and never NaN) on
    doubles. *)
Remark pressure_binary64 (F C : float) : (0 <=? pressure F C) = true.
Proof.
  unfold pressure, py_max. cbn [flt binary64_arith fzero fsub].
  destruct (0 <? F - C) eqn:Hx; [by apply ltb_leb|reflexivity].
Qed.

Lemma pressure_binary64_cases (F C : float) :
  (pressure F C <? infinity) = true ->
  Prim2SF (pressure F C) = S754_zero false \/
  exists m e, Prim2SF (pressure F C) = S754_finite false m e.
Proof.
  unfold pressure, py_max. cbn [flt binary64_arith fzero fsub].
  destruct (0 <? F - C) eqn:Hx; [|by left].
  rewrite !ltb_spec in *. unfold SFltb in *.
  change (Prim2SF 0) with (S754_zero false) in Hx.
  change (Prim2SF infinity) with (S754_infinity false).
  destruct (Prim2SF (F - C)) as [s|s| |s m e]; simpl in *; try done.
  - destruct s; done.
  - destruct s; [done|]. intros _. right. eauto.
Qed.

Lemma mul_zero_pressure (F C : float) :
  (pressure F C <? infinity) = true -> 0 * pressure F C = 0.
Proof.
  intros Hfin. apply Prim2SF_inj. rewrite mul_spec.
  destruct (pressure_binary64_cases F C Hfin) as [->|(m & e & ->)]; reflexivity.
Qed.

Lemma sigma_signed_zero (n : nat) (f : nat -> float) :
  (forall j, f j = 0 \/ f j = -0) -> sigma n f = 0.
Proof.
  intros Hf. unfold sigma. induction n as [|n IH]; [done|].
  rewrite seq_S, fold_left_app, IH. simpl.
  by destruct (Hf n) as [-> | ->].
Qed.

Lemma mul_signed_zero_pressure (w F C : float) :
  w = 0 \/ w = -0 -> (pressure F C <? infinity) = true ->
  w * pressure F C = 0 \/ w * pressure F C = -0.
Proof.
  intros [-> | ->] Hfin.
  - left. by apply mul_zero_pressure.
  - right. apply Prim2SF_inj. rewrite mul_spec.
    destruct (pressure_binary64_cases F C Hfin) as [->|(m & e & ->)];
      reflexivity.
Qed.

Lemma mul_signed_zero_pressure_of (state : EngineCState float) (w : float)
    (j : nat) :
  w = 0 \/ w = -0 -> Forall finite_pressure (systems state) ->
  w * pressure_of state j = 0 \/ w * pressure_of state j = -0.
Proof.
  intros Hw Hfin. unfold pressure_of.
  destruct (systems state !! j) as [s|] eqn:Hs.
  - simpl. rewrite Forall_lookup in Hfin.
    by apply mul_signed_zero_pressure, (Hfin _ _ Hs).
  - destruct Hw as [-> | ->]; [by left|by right].
Qed.


(** Adding [0.0] leaves every double as it is, except [-0.0]. *)
Lemma add_zero_binary64 (x : float) :
  x + 0 = x \/ Prim2SF x = S754_zero true.
Proof.
  destruct (Prim2SF x) as [[]|s| |s m e] eqn:Hx; [by right|left..];
    apply Prim2SF_inj; rewrite add_spec, Hx; reflexivity.
Qed.







(** C1, amended. When the dimension checks pass, the endogenous flow shock
    that one step of Engine C computes for system [i] is the sum over [j],
    taken from left to right starting at [0.0] in the arithmetic at hand, of
    [W[i][j]] times the pressure [max(0, F_j - C_j)] of system [j] in the
    state before the step; and the step advances system [i] by the
    single-system kernel under that shock added to its exogenous one. This
    holds in every arithmetic, so on doubles, where each product and each
    partial sum is rounded. With two systems, [W[0][1] = 1.0] and every other
    entry zero, and system 1 at pressure 5, the endogenous shock of system 0
    on doubles is exactly 5.0 for every system 0 whose own pressure is
    finite. *)
Theorem engine_c_step_endogenous_shock :
  (forall (A : Type) (arith : Arith A) (state : EngineCState A) params
          shocks_F shocks_C,
      dimensions_ok state params ->
      let N := length (systems state) in
      let endogenous := fun i =>
        sigma N (fun j => entry (W params) i j * pressure_of state j)%A in
      endogenous_shocks_F N params (pressures state)
      = Ok (endogenous <$> seq 0 N) /\
      exists next,
        engine_c_step state params shocks_F shocks_C = Ok next /\
        forall i s p,
          systems state !! i = Some s ->
          params_per_system params !! i = Some p ->
          systems next !! i
          = Some (engine_a_step s p
                    (shock_or_zero shocks_F i + endogenous i)%A
                    (shock_or_zero shocks_C i))) /\
  (forall (s0 s1 : EngineAState float) params,
      length (params_per_system params) = 2%nat ->
      W params = [[0; 1]; [0; 0]] ->
      pressure (F s1) (C s1) = 5 ->
      (pressure (F s0) (C s0) <? infinity) = true ->
      endogenous_shocks_F 2 params (pressures {| systems := [s0; s1] |})
      = Ok [5; 0]).
Proof.
  split.
  - intros A arith state params shocks_F shocks_C Hdim N endogenous.
    split; [exact (endogenous_shocks_F_sigma state params Hdim)|].
    exists (network_step_spec state params shocks_F shocks_C).
    split; [by apply engine_c_step_ok|].
    intros i s p Hs Hp.
    exact (lookup_network_step_spec _ _ _ _ _ _ _ Hs Hp).
  - intros s0 s1 params Hp HW HP1 Hfin.
    set (state := {| systems := [s0; s1] |}).
    assert (Hdim : dimensions_ok state params).
    { split; [done|]. rewrite HW. split; [done|]. by repeat constructor. }
    rewrite (endogenous_shocks_F_sigma state params Hdim).
    cbn [length systems state seq fmap list_fmap]. rewrite HW.
    unfold sigma. cbn [seq fold_left].
    change (entry _ 0 0) with 0. change (entry _ 0 1) with 1.
    change (entry _ 1 0) with 0. change (entry _ 1 1) with 0.
    change (pressure_of state 0) with (pressure (F s0) (C s0)).
    change (pressure_of state 1) with (pressure (F s1) (C s1)).
    cbn [fadd fmul fzero binary64_arith].
    rewrite HP1, (mul_zero_pressure _ _ Hfin). reflexivity.
Qed.

(** Scenario B where the pressure of system 0 overflows: its flow 1.5e308
    and capacity -1.5e308 are finite doubles and system 1 is at pressure 5,
    yet [F - C] is infinite, [0.0 * inf] is NaN, and the endogenous shock of
    system 0 is NaN, not 5.0. *)
Lemma engine_c_step_endogenous_shock_overflow :
  (abs 1.5e308 <? infinity) = true /\
  pressure 13 8 = 5 /\
  pressure 1.5e308 (-1.5e308) = infinity /\
  endogenous_shocks_F 2
    {| params_per_system :=
         [scenario_A_params_binary64; scenario_A_params_binary64];
       W := [[0; 1]; [0; 0]] |}
    (pressures
       {| systems := [ {| F := 1.5e308; C := -1.5e308; T := 0.5; D := 0 |};
                       {| F := 13; C := 8; T := 0.5; D := 0 |} ] |})
  = Ok [nan; nan].
Proof. repeat split; reflexivity. Qed.

Lemma engine_c_step_endogenous_shock_witness :
  endogenous_shocks_F 2
    {| params_per_system :=
         [scenario_A_params_binary64; scenario_A_params_binary64];
       W := [[0; 1]; [0; 0]] |}
    (pressures
       {| systems := [ scenario_A_state_binary64;
                       {| F := 13; C := 8; T := 0.5; D := 0 |} ] |})
  = Ok [5; 0].
Proof.
  apply (proj2 engine_c_step_endogenous_shock); reflexivity.
Defined.
End binary64.

(** * Further properties of the code *)

(** ** Engine C: errors *)

Section engine_c_errors.
Context {A : Type} `{Arith A}.
Import engine_a engine_c.

(** X1. [engine_c_step] returns exactly when its two dimension assertions
    hold, and then its result is the network step; otherwise it raises
    [AssertionError]. It never raises [IndexError]: the assertions cover
    every index it reads or writes. *)
Theorem engine_c_step_raises_only_on_mismatch (state : EngineCState A)
    (params : EngineCParams A) (shocks_F shocks_C : option (list A)) :
  match engine_c_step state params shocks_F shocks_C with
  | Ok next =>
      dimensions_ok state params /\
      next = network_step_spec state params shocks_F shocks_C
  | Raise e => e = AssertionError /\ ~ dimensions_ok state params
  end.
Proof.
  destruct (engine_c_step state params shocks_F shocks_C) as [next|e] eqn:Hstep.
  - pose proof (engine_c_step_checked _ _ _ _ _ Hstep) as Hdim.
    split; [done|]. rewrite engine_c_step_ok in Hstep by done.
    by injection Hstep.
  - assert (Hdim : ~ dimensions_ok state params).
    { intros Hdim. by rewrite engine_c_step_ok in Hstep. }
    split; [|done].
    rewrite engine_c_step_mismatch in Hstep by done. by injection Hstep.
Qed.

Lemma for_each_raise_first {S I} (body : S -> I -> result S) (i : I)
    (items : list I) (s : S) (e : exn) :
  body s i = Raise e -> for_each body (i :: items) s = Raise e.
Proof. intros Hb. simpl. by rewrite Hb. Qed.

(** X2. When the dimensions do not fit and at least one step is asked for,
    [run_engine_c] raises [AssertionError] in its first round: it returns no
    history, not even the initial state. *)
Theorem run_engine_c_mismatch (state : EngineCState A)
    (params : EngineCParams A) (steps : Z) :
  ~ dimensions_ok state params -> (0 < steps)%Z ->
  run_engine_c state params steps = Raise AssertionError.
Proof.
  intros Hdim Hsteps. unfold run_engine_c, py_range.
  destruct (Z.to_nat steps) as [|n] eqn:Hn; [lia|].
  cbn [seq]. rewrite (for_each_raise_first _ _ _ _ AssertionError); [done|].
  by rewrite engine_c_step_mismatch.
Qed.

(** X3. Every network state of a history that [run_engine_c] returns has as
    many systems as the initial one; and a history of more than the initial
    state is only returned for dimensions that fit. *)
Theorem run_engine_c_keeps_systems (state : EngineCState A)
    (params : EngineCParams A) (steps : Z) (history : list (EngineCState A)) :
  run_engine_c state params steps = Ok history ->
  Forall (fun state_t => length (systems state_t) = length (systems state))
         history /\
  ((0 < steps)%Z -> dimensions_ok state params).
Proof.
  intros Hrun. destruct (run_engine_c_Ok _ _ _ _ Hrun) as [Hlen Hhist]. split.
  - assert (Hafter : forall t state_t,
      engine_c_after state params t = Ok state_t ->
      length (systems state_t) = length (systems state)).
    { induction t as [|t IH]; intros state_t; simpl.
      - by intros [= <-].
      - destruct (engine_c_after state params t) as [prev|]; [|done]. simpl.
        intros Hstep.
        pose proof (engine_c_step_checked _ _ _ _ _ Hstep) as Hdim.
        rewrite engine_c_step_ok in Hstep by done. injection Hstep as <-.
        rewrite length_network_step_spec by apply Hdim. by apply IH. }
    apply Forall_lookup. intros t state_t Ht.
    destruct (Hhist t) as (state_t' & Hat & Ht').
    { apply lookup_lt_Some in Ht. lia. }
    rewrite Ht in Ht'. injection Ht' as <-. by eapply Hafter.
  - intros Hsteps. destruct (Hhist 1) as (state_1 & Hat & _); [lia|].
    simpl in Hat. by eapply engine_c_step_checked.
Qed.

End engine_c_errors.

Section engine_c_errors_at_inputs.
Import engine_a engine_c.

Lemma run_engine_c_mismatch_witness :
  run_engine_c
    {| systems := [scenario_A_state_binary64; scenario_A_state_binary64] |}
    {| params_per_system := [scenario_A_params_binary64];
       W := [[0; 1]; [0; 0]]%float |} 3
  = Raise AssertionError.
Proof.
  apply run_engine_c_mismatch; [|done].
  intros (Hlen & _). discriminate Hlen.
Defined.

Lemma run_engine_c_keeps_systems_witness :
  exists history,
    run_engine_c
      {| systems := [scenario_A_state_binary64;
                              scenario_A_state_binary64] |}
      {| params_per_system :=
           [scenario_A_params_binary64; scenario_A_params_binary64];
         W := [[0; 1]; [0.5; 0]]%float |} 2
    = Ok history /\
    Forall (fun state_t => length (systems state_t) = 2) history.
Proof.
  eexists. split; [reflexivity|].
  exact (proj1 (run_engine_c_keeps_systems
    {| systems := [scenario_A_state_binary64; scenario_A_state_binary64] |}
    {| params_per_system :=
         [scenario_A_params_binary64; scenario_A_params_binary64];
       W := [[0; 1]; [0.5; 0]]%float |} 2 _ eq_refl)).
Defined.
End engine_c_errors_at_inputs.

(** ** Shock schedules *)

Section shock_schedules.
Context {A : Type} `{Arith A}.
Import engine_a engine_c.

Lemma shock_or_zero_nil (i : nat) :
  shock_or_zero (Some []) i = shock_or_zero (A:=A) None i.
Proof. done. Qed.

Lemma shock_or_zero_pad (l : list A) (k i : nat) :
  shock_or_zero (Some (l ++ replicate k fzero)) i = shock_or_zero (Some l) i.
Proof.
  unfold shock_or_zero. rewrite length_app, length_replicate.
  destruct (Nat.ltb_spec i (length l)) as [Hi|Hi].
  - destruct (Nat.ltb_spec i (length l + k)); [|lia].
    by rewrite lookup_app_l.
  - destruct (Nat.ltb_spec i (length l + k)) as [Hik|]; [|done].
    rewrite lookup_app_r, lookup_replicate_2 by lia. done.
Qed.

Lemma shock_or_zero_take (l : list A) (n i : nat) :
  i < n -> shock_or_zero (Some (take n l)) i = shock_or_zero (Some l) i.
Proof.
  intros Hi. unfold shock_or_zero. rewrite length_take, lookup_take_lt by done.
  destruct (Nat.ltb_spec i (length l)), (Nat.ltb_spec i (n `min` length l));
    try done; lia.
Qed.

Lemma shock_or_zero_drop (shocks : option (list A)) (n i : nat) :
  shock_or_zero (drop n <$> shocks) i = shock_or_zero shocks (n + i).
Proof.
  destruct shocks as [l|]; [|done]. unfold shock_or_zero. simpl.
  rewrite length_drop, lookup_drop.
  destruct (Nat.ltb_spec i (length l - n)), (Nat.ltb_spec (n + i) (length l));
    try done; lia.
Qed.

Lemma engine_a_after_ext (state : EngineAState A) params
    (shocks_F shocks_F' shocks_C shocks_C' : option (list A)) (t : nat) :
  (forall i, i < t -> shock_or_zero shocks_F i = shock_or_zero shocks_F' i) ->
  (forall i, i < t -> shock_or_zero shocks_C i = shock_or_zero shocks_C' i) ->
  engine_a_after state params shocks_F shocks_C t
  = engine_a_after state params shocks_F' shocks_C' t.
Proof.
  induction t as [|t IH]; intros HF HC; [done|]. simpl.
  rewrite IH, HF, HC by (intros; auto with lia). done.
Qed.

(** X4. [run_engine_a] reads its shock schedules at the step indices below
    [steps] only, a missing entry counting as zero: two pairs of schedules
    that give the same shock at every such index give the same history. *)
Theorem run_engine_a_reads_shocks_below_steps (state : EngineAState A) params
    (steps : Z) (shocks_F shocks_F' shocks_C shocks_C' : option (list A)) :
  (forall t, t < Z.to_nat steps ->
     shock_or_zero shocks_F t = shock_or_zero shocks_F' t) ->
  (forall t, t < Z.to_nat steps ->
     shock_or_zero shocks_C t = shock_or_zero shocks_C' t) ->
  run_engine_a state params steps shocks_F shocks_C
  = run_engine_a state params steps shocks_F' shocks_C'.
Proof.
  intros HF HC. rewrite !run_engine_a_history.
  apply list_fmap_ext. intros i t Ht.
  apply lookup_seq in Ht as [-> Hi]. simpl.
  apply engine_a_after_ext; intros j Hj; [apply HF|apply HC]; lia.
Qed.

(** X5. For [run_engine_a], no schedule is the empty schedule, a schedule
    shorter than the run is the same schedule padded with zeros, and the
    entries of a schedule from index [steps] on are never read. *)
Theorem run_engine_a_schedule_edges (state : EngineAState A) params
    (steps : Z) (shocks_F shocks_C : list A) (k_F k_C : nat) :
  run_engine_a state params steps None None
  = run_engine_a state params steps (Some []) (Some []) /\
  run_engine_a state params steps (Some shocks_F) (Some shocks_C)
  = run_engine_a state params steps
      (Some (shocks_F ++ replicate k_F fzero))
      (Some (shocks_C ++ replicate k_C fzero)) /\
  run_engine_a state params steps (Some shocks_F) (Some shocks_C)
  = run_engine_a state params steps
      (Some (take (Z.to_nat steps) shocks_F))
      (Some (take (Z.to_nat steps) shocks_C)).
Proof.
  split; [done|]. rewrite !run_engine_a_history. split.
  - apply list_fmap_ext. intros _ t _.
    apply engine_a_after_ext; intros; by rewrite shock_or_zero_pad.
  - apply list_fmap_ext. intros i t Ht. apply lookup_seq in Ht as [-> Hi].
    simpl. apply engine_a_after_ext; intros j Hj; symmetry;
      apply shock_or_zero_take; lia.
Qed.

Lemma engine_c_step_cases (state : EngineCState A) (params : EngineCParams A)
    (shocks_F shocks_C : option (list A)) :
  (dimensions_ok state params /\
   engine_c_step state params shocks_F shocks_C
   = Ok (network_step_spec state params shocks_F shocks_C)) \/
  (~ dimensions_ok state params /\
   engine_c_step state params shocks_F shocks_C = Raise AssertionError).
Proof.
  destruct (engine_c_step state params shocks_F shocks_C) as [next|e] eqn:Hstep.
  - left. pose proof (engine_c_step_checked _ _ _ _ _ Hstep) as Hdim.
    split; [done|]. by rewrite <- Hstep, engine_c_step_ok.
  - right. assert (Hdim : ~ dimensions_ok state params).
    { intros Hdim. by rewrite engine_c_step_ok in Hstep. }
    split; [done|]. by rewrite <- Hstep, engine_c_step_mismatch.
Qed.

(** X6. [engine_c_step] treats its exogenous shock lists index by index: no
    list is the empty list, and a list shorter than the number of systems is
    the same list padded with zeros (no [IndexError], no truncation of the
    network). *)
Theorem engine_c_step_schedule_edges (state : EngineCState A)
    (params : EngineCParams A) (shocks_F shocks_C : list A) (k_F k_C : nat) :
  engine_c_step state params None None
  = engine_c_step state params (Some []) (Some []) /\
  engine_c_step state params (Some shocks_F) (Some shocks_C)
  = engine_c_step state params
      (Some (shocks_F ++ replicate k_F fzero))
      (Some (shocks_C ++ replicate k_C fzero)).
Proof.
  split; [done|].
  destruct (engine_c_step_cases state params (Some shocks_F) (Some shocks_C))
    as [[Hdim ->]|[Hdim ->]].
  - rewrite engine_c_step_ok by done. f_equal.
    unfold network_step_spec. f_equal.
    apply imap_ext. intros i [s p] _. cbn [fst snd].
    by rewrite !shock_or_zero_pad.
  - by rewrite engine_c_step_mismatch.
Qed.
End shock_schedules.

Section shock_schedules_at_inputs.
Import engine_a.

Lemma run_engine_a_reads_shocks_below_steps_witness :
  run_engine_a scenario_A_state_binary64 scenario_A_params_binary64 2
    (Some [0.5]%float) None
  = run_engine_a scenario_A_state_binary64 scenario_A_params_binary64 2
      (Some [0.5; 0; 7]%float) (Some []).
Proof.
  apply run_engine_a_reads_shocks_below_steps.
  - intros [|[|t]] Ht; [reflexivity|reflexivity|]. simpl in Ht. lia.
  - intros t _. reflexivity.
Defined.
End shock_schedules_at_inputs.

(** ** Longer runs and resumed runs *)

Section resumed_runs.
Context {A : Type} `{Arith A}.
Import engine_a engine_b engine_c.

Lemma engine_a_after_add (state : EngineAState A) params
    (shocks_F shocks_C : option (list A)) (n t : nat) :
  engine_a_after state params shocks_F shocks_C (n + t)
  = engine_a_after (engine_a_after state params shocks_F shocks_C n) params
      (drop n <$> shocks_F) (drop n <$> shocks_C) t.
Proof.
  induction t as [|t IH]; [by rewrite Nat.add_0_r|].
  rewrite Nat.add_succ_r. simpl. by rewrite IH, !shock_or_zero_drop.
Qed.

Lemma engine_b_after_add (state : EngineBState A) params (n t : nat) :
  engine_b_after state params (n + t)
  = engine_b_after (engine_b_after state params n) params t.
Proof.
  induction t as [|t IH]; [by rewrite Nat.add_0_r|].
  rewrite Nat.add_succ_r. simpl. by rewrite IH.
Qed.

Lemma take_fmap_seq {X} (f : nat -> X) (n m : nat) :
  n <= m -> take n (f <$> seq 0 m) = f <$> seq 0 n.
Proof.
  intros Hnm. rewrite <- fmap_take, take_seq. by rewrite Nat.min_l.
Qed.

Lemma last_fmap_seq {X} (f : nat -> X) (n : nat) :
  last (f <$> seq 0 (S n)) = Some (f n).
Proof.
  rewrite seq_S, fmap_app. change (f <$> [0 + n]) with [f n].
  apply last_snoc.
Qed.

Lemma fmap_seq_resume {X} (f g : nat -> X) (n m : nat) :
  (forall t, f (n + t) = g t) ->
  f <$> seq 0 (S (n + m)) = (f <$> seq 0 (S n)) ++ drop 1 (g <$> seq 0 (S m)).
Proof.
  intros Hfg.
  replace (S (n + m)) with (S n + m) by lia.
  rewrite seq_app, fmap_app. f_equal.
  change (drop 1 (g <$> seq 0 (S m))) with (g <$> seq 1 m).
  apply list_eq. intros i. rewrite !list_lookup_fmap.
  destruct (decide (i < m)) as [Hi|Hi].
  - rewrite !lookup_seq_lt by done. simpl. f_equal.
    rewrite <- Hfg. f_equal. lia.
  - rewrite !lookup_seq_ge by lia. done.
Qed.

(** X7. Asking for more steps only extends the history: for
    [0 <= n <= m] the history of [n] steps is the first [n + 1] states of the
    history of [m] steps, for Engine A (same schedules), Engine B, and
    Engine C whenever the longer run returns. *)
Theorem shorter_run_is_prefix (n m : Z) :
  (0 <= n <= m)%Z ->
  (forall (state : EngineAState A) params shocks_F shocks_C,
      run_engine_a state params n shocks_F shocks_C
      = take (S (Z.to_nat n)) (run_engine_a state params m shocks_F shocks_C)) /\
  (forall (state : EngineBState A) params,
      run_engine_b state params n
      = take (S (Z.to_nat n)) (run_engine_b state params m)) /\
  (forall (state : EngineCState A) params history,
      run_engine_c state params m = Ok history ->
      run_engine_c state params n = Ok (take (S (Z.to_nat n)) history)).
Proof.
  intros Hnm. split; [|split].
  - intros. rewrite !run_engine_a_history, take_fmap_seq by lia. done.
  - intros. rewrite !run_engine_b_history, take_fmap_seq by lia. done.
  - intros state params history Hm.
    destruct (run_engine_c_Ok _ _ _ _ Hm) as [Hlen_m Hhist_m].
    destruct (run_engine_c_total state params n) as [history_n Hn].
    { intros t Ht. destruct (Hhist_m t) as (state_t & Hat & _); [lia|]. eauto. }
    rewrite Hn. f_equal.
    destruct (run_engine_c_Ok _ _ _ _ Hn) as [Hlen_n Hhist_n].
    apply list_eq. intros t.
    destruct (decide (t <= Z.to_nat n)) as [Ht|Ht].
    + rewrite lookup_take_lt by lia.
      destruct (Hhist_n t Ht) as (s1 & Hat1 & ->).
      destruct (Hhist_m t) as (s2 & Hat2 & ->); [lia|]. congruence.
    + rewrite lookup_take_ge by lia. apply lookup_ge_None_2. lia.
Qed.

(** X8. A run can be resumed from its last state: the history of [n + m]
    steps is the history of [n] steps followed by the history of [m] steps
    started at its last state, without that state, Engine A reading the
    schedules from index [n] on. *)
Theorem resumed_run (n m : Z) :
  (0 <= n)%Z -> (0 <= m)%Z ->
  (forall (state : EngineAState A) params shocks_F shocks_C,
      let history := run_engine_a state params n shocks_F shocks_C in
      run_engine_a state params (n + m) shocks_F shocks_C
      = history
        ++ drop 1 (run_engine_a (default state (last history)) params m
                     (drop (Z.to_nat n) <$> shocks_F)
                     (drop (Z.to_nat n) <$> shocks_C))) /\
  (forall (state : EngineBState A) params,
      let history := run_engine_b state params n in
      run_engine_b state params (n + m)
      = history
        ++ drop 1 (run_engine_b (default state (last history)) params m)).
Proof.
  intros Hn Hm. split.
  - intros state params shocks_F shocks_C history. subst history.
    rewrite !run_engine_a_history, last_fmap_seq. simpl default.
    rewrite Z2Nat.inj_add by lia.
    apply fmap_seq_resume. intros t. apply engine_a_after_add.
  - intros state params history. subst history.
    rewrite !run_engine_b_history, last_fmap_seq. simpl default.
    rewrite Z2Nat.inj_add by lia.
    apply fmap_seq_resume. intros t. apply engine_b_after_add.
Qed.
End resumed_runs.

Section resumed_runs_at_inputs.
Import engine_a.

Lemma shorter_run_is_prefix_witness :
  run_engine_a scenario_A_state_binary64 scenario_A_params_binary64 2
    (Some [0.5; 0.25; 1]%float) None
  = take 3 (run_engine_a scenario_A_state_binary64 scenario_A_params_binary64
              5 (Some [0.5; 0.25; 1]%float) None).
Proof.
  apply (proj1 (shorter_run_is_prefix 2 5 ltac:(by vm_compute))).
Defined.

Lemma resumed_run_witness :
  let history :=
    run_engine_a scenario_A_state_binary64 scenario_A_params_binary64 2
      (Some [0.5; 0.25; 1]%float) None in
  run_engine_a scenario_A_state_binary64 scenario_A_params_binary64 (2 + 3)
    (Some [0.5; 0.25; 1]%float) None
  = history
    ++ drop 1 (run_engine_a (default scenario_A_state_binary64 (last history))
                 scenario_A_params_binary64 3
                 (drop 2 <$> Some [0.5; 0.25; 1]%float) (drop 2 <$> None)).
Proof.
  apply (proj1 (resumed_run 2 3 ltac:(by vm_compute) ltac:(by vm_compute))).
Defined.
End resumed_runs_at_inputs.

(** ** Engine B against Engine A *)

Section engine_b_layers.
Local Open Scope Qc_scope.
Import engine_a engine_b.

Lemma engine_b_step_fast (state : EngineBState Qc) params sFf sCf sFs sCs :
  fast_state (engine_b_step state params sFf sCf sFs sCs)
  = engine_a_step (fast_state state) (layer_params (fast params))
      (gamma_fs params * T (slow_state state) + sFf) sCf.
Proof.
  unfold engine_b_step, engine_a_step. cbn -[py_max py_min].
  f_equal. cbn. ring.
Qed.

Lemma engine_b_step_slow (state : EngineBState Qc) params sFf sCf sFs sCs :
  let alone :=
    engine_a_step (slow_state state) (layer_params (slow params)) sFs sCs in
  slow_state (engine_b_step state params sFf sCf sFs sCs)
  = {| F := F alone; C := C alone; T := T alone;
       D := D alone
            + beta_drift_from_other (slow params)
              * pressure (F (fast_state state)) (C (fast_state state)) |}.
Proof.
  unfold engine_b_step, engine_a_step, pressure. cbn -[py_max py_min].
  f_equal. cbn. ring.
Qed.

(** In exact arithmetic one step of Engine B is one step of Engine A on
    each layer, with two cross terms: the fast layer feels the extra flow shock
    [gamma_fs * T_slow] (the slow trust before the step), and the slow
    layer's drift gains [beta_drift_from_other * P_fast]. The fast layer's
    own [beta_drift_from_other] plays no part. *)
Remark engine_b_step_per_layer_exact (state : EngineBState Qc) params
    sFf sCf sFs sCs :
  let next := engine_b_step state params sFf sCf sFs sCs in
  let slow_alone :=
    engine_a_step (slow_state state) (layer_params (slow params)) sFs sCs in
  fast_state next
  = engine_a_step (fast_state state) (layer_params (fast params))
      (gamma_fs params * T (slow_state state) + sFf) sCf /\
  slow_state next
  = {| F := F slow_alone; C := C slow_alone; T := T slow_alone;
       D := D slow_alone
            + beta_drift_from_other (slow params)
              * pressure (F (fast_state state)) (C (fast_state state)) |}.
Proof. split; [apply engine_b_step_fast|apply engine_b_step_slow]. Qed.

(** In exact arithmetic, with [gamma_fs = 0] and the slow layer's
    [beta_drift_from_other = 0] the two layers of Engine B do not interact:
    along [run_engine_b] each layer follows, state for state, the history of
    [run_engine_a] on that layer alone. *)
Remark run_engine_b_uncoupled_exact (state : EngineBState Qc) params steps :
  gamma_fs params = 0 -> beta_drift_from_other (slow params) = 0 ->
  fast_state <$> run_engine_b state params steps
  = run_engine_a (fast_state state) (layer_params (fast params)) steps
      None None /\
  slow_state <$> run_engine_b state params steps
  = run_engine_a (slow_state state) (layer_params (slow params)) steps
      None None.
Proof.
  intros Hgamma Hbeta.
  assert (Hafter : forall t,
    fast_state (engine_b_after state params t)
    = engine_a_after (fast_state state) (layer_params (fast params)) None None t
    /\
    slow_state (engine_b_after state params t)
    = engine_a_after (slow_state state) (layer_params (slow params)) None None t).
  { induction t as [|t [IHf IHs]]; [done|].
    cbn [engine_b_after engine_a_after]. split.
    - rewrite engine_b_step_fast, Hgamma, IHf.
      f_equal; try (change (shock_or_zero None t) with (0 : Qc); ring).
    - rewrite engine_b_step_slow, Hbeta, IHs.
      change (shock_or_zero None t) with (fzero : Qc).
      set (alone := engine_a_step _ _ _ _).
      destruct alone as [F' C' T' D']. cbn [F C T D].
      f_equal. set (P := pressure _ _). change fzero with (0 : Qc). ring. }
  rewrite run_engine_b_history, !run_engine_a_history, <- !list_fmap_compose.
  split; apply list_fmap_ext; intros _ t _; apply Hafter.
Qed.
End engine_b_layers.

Section engine_b_slow_layer.
Context {A : Type} `{Arith A}.
Import engine_a engine_b.

(** X9. One step of Engine B against one step of Engine A on each layer,
    in every arithmetic. The capacity, trust and drift of the fast layer and
    the flow, capacity and trust of the slow layer are those that Engine A
    returns for that layer alone. The two couplings enter the fast flow, as
    the term [gamma_fs * T_slow] (the slow trust before the step) added
    before the shock, and the slow drift, as the term
    [beta_drift_from_other * P_fast] inside its increment. The fast layer's
    own [beta_drift_from_other] is never read. *)
Theorem engine_b_step_is_engine_a_per_layer (state : EngineBState A) params
    sFf sCf sFs sCs :
  let next := engine_b_step state params sFf sCf sFs sCs in
  let fast_alone :=
    engine_a_step (fast_state state) (layer_params (fast params)) sFf sCf in
  let slow_alone :=
    engine_a_step (slow_state state) (layer_params (slow params)) sFs sCs in
  let P_fast := pressure (F (fast_state state)) (C (fast_state state)) in
  let P_slow := pressure (F (slow_state state)) (C (slow_state state)) in
  (C (fast_state next), T (fast_state next), D (fast_state next))
  = (C fast_alone, T fast_alone, D fast_alone) /\
  (F (slow_state next), C (slow_state next), T (slow_state next))
  = (F slow_alone, C slow_alone, T slow_alone) /\
  F (fast_state next)
  = (F (fast_state state) + engine_b.r (fast params) * T fast_alone
     + gamma_fs params * T (slow_state state) + sFf - P_fast)%A /\
  D (slow_state next)
  = (D (slow_state state)
     + (engine_b.alpha (slow params) * P_slow
        + beta_drift_from_other (slow params) * P_fast
        - engine_b.delta (slow params) * D (slow_state state)))%A /\
  forall fast',
    layer_params fast' = layer_params (fast params) ->
    engine_b_step state
      {| fast := fast'; slow := slow params; gamma_fs := gamma_fs params |}
      sFf sCf sFs sCs
    = next.
Proof.
  intros next fast_alone slow_alone P_fast P_slow.
  split; [reflexivity|]. split; [reflexivity|].
  split; [reflexivity|]. split; [reflexivity|].
  intros fast' [= Hr Halpha Hdelta Hlambda Hrho Hkappa].
  subst next. unfold engine_b_step. cbn [fast slow gamma_fs].
  by rewrite Hr, Halpha, Hdelta, Hlambda, Hrho, Hkappa.
Qed.

(** X11. In every arithmetic, the flow, capacity and trust of the slow
    layer along [run_engine_b] are those of [run_engine_a] on the slow layer
    alone: the fast layer and the couplings reach the slow layer through its
    drift only, and the drift feeds back into nothing. *)
Theorem run_engine_b_slow_layer_autonomous (state : EngineBState A) params
    (steps : Z) :
  let view := fun s : EngineAState A => (F s, C s, T s) in
  (fun s => view (slow_state s)) <$> run_engine_b state params steps
  = view <$> run_engine_a (slow_state state) (layer_params (slow params))
               steps None None.
Proof.
  intros view.
  assert (Hafter : forall t,
    view (slow_state (engine_b_after state params t))
    = view (engine_a_after (slow_state state) (layer_params (slow params))
              None None t)).
  { induction t as [|t IH]; [done|].
    cbn [engine_b_after engine_a_after]. unfold view in *.
    injection IH as HF HC HT.
    unfold engine_b_step, engine_a_step. cbn -[py_max py_min].
    by rewrite HF, HC, HT. }
  rewrite run_engine_b_history, run_engine_a_history, <- !list_fmap_compose.
  apply list_fmap_ext. intros _ t _. apply Hafter.
Qed.
End engine_b_slow_layer.

(** ** Drift and capacity *)

Section drift_and_capacity.
Local Open Scope Qc_scope.
Import engine_a engine_c.

Lemma drift_update_nonneg (D alpha delta P : Qc) :
  0 <= alpha -> 0 <= delta <= 1 -> 0 <= P -> 0 <= D ->
  0 <= D + alpha * P - delta * D.
Proof. intros Ha [Hd0 Hd1] HP HD. qc_to_q. nra. Qed.

Lemma engine_a_step_drift_nonneg (state : EngineAState Qc) params shock_F
    shock_C :
  0 <= alpha params -> 0 <= delta params <= 1 -> 0 <= D state ->
  0 <= D (engine_a_step state params shock_F shock_C).
Proof.
  intros Ha Hd HD.
  exact (drift_update_nonneg _ _ _ _ Ha Hd
           (proj1 (py_max_exact 0 (F state - C state))) HD).
Qed.

(** In exact arithmetic drift never turns negative in Engines A and C: with
    [alpha >= 0] and [0 <= delta <= 1], a history started at drifts [D >= 0]
    holds drifts [D >= 0] only, whatever the shocks, the other parameters
    and the coupling matrix. *)
Remark drift_stays_nonnegative_exact :
  (forall (state : EngineAState Qc) params steps shocks_F shocks_C,
      0 <= alpha params -> 0 <= delta params <= 1 -> 0 <= D state ->
      Forall (fun s => 0 <= D s)
             (run_engine_a state params steps shocks_F shocks_C)) /\
  (forall (state : EngineCState Qc) params steps history,
      Forall (fun p => 0 <= alpha p /\ 0 <= delta p <= 1)
             (params_per_system params) ->
      Forall (fun s => 0 <= D s) (systems state) ->
      run_engine_c state params steps = Ok history ->
      Forall (fun state_t => Forall (fun s => 0 <= D s) (systems state_t))
             history).
Proof.
  split.
  - intros state params steps shocks_F shocks_C Ha Hd HD.
    rewrite run_engine_a_history. apply Forall_fmap, Forall_forall.
    intros t _. simpl. induction t as [|t IH]; [done|].
    by apply engine_a_step_drift_nonneg.
  - intros state params steps history Hparams HD Hrun.
    destruct (run_engine_c_Ok _ _ _ _ Hrun) as [Hlen Hhist].
    assert (Hafter : forall t state_t,
      engine_c_after state params t = Ok state_t ->
      Forall (fun s => 0 <= D s) (systems state_t)).
    { induction t as [|t IH]; intros state_t; simpl.
      - by intros [= <-].
      - destruct (engine_c_after state params t) as [prev|]; [|done]. simpl.
        intros Hstep.
        pose proof (engine_c_step_checked _ _ _ _ _ Hstep) as Hdim.
        rewrite engine_c_step_ok in Hstep by done. injection Hstep as <-.
        apply Forall_lookup. intros i s. unfold network_step_spec. simpl.
        rewrite list_lookup_imap, lookup_zip_with.
        destruct (systems prev !! i) as [s0|] eqn:Hs0; [|done]. simpl.
        destruct (params_per_system params !! i) as [p0|] eqn:Hp0; [|done].
        simpl. intros [= <-].
        rewrite Forall_lookup in Hparams. destruct (Hparams _ _ Hp0).
        apply engine_a_step_drift_nonneg; try done.
        specialize (IH prev eq_refl). rewrite Forall_lookup in IH. eauto. }
    apply Forall_lookup. intros t state_t Ht.
    destruct (Hhist t) as (state_t' & Hat & Ht').
    { apply lookup_lt_Some in Ht. lia. }
    rewrite Ht in Ht'. injection Ht' as <-. by eapply Hafter.
Qed.

Lemma capacity_update_between (C F k : Qc) :
  0 <= k <= 1 ->
  (C <= F -> C <= C + k * (F - C) <= F) /\
  (F <= C -> F <= C + k * (F - C) <= C).
Proof. intros [Hk0 Hk1]. split; intros HCF; split; qc_to_q; nra. Qed.

(** In exact arithmetic capacity adapts toward flow without overshooting:
    with an
    adjustment speed in [[0, 1]] (and no capacity shock in Engine A) the next
    capacity lies between the current capacity and the current flow, in
    Engine A, Kernel 2 and Kernel 3. *)
Remark capacity_moves_toward_flow_exact (k : Qc) :
  0 <= k <= 1 ->
  (forall (state : EngineAState Qc) params shock_F,
      kappa_capacity params = k ->
      let C_next := C (engine_a_step state params shock_F 0) in
      (C state <= F state -> C state <= C_next <= F state) /\
      (F state <= C state -> F state <= C_next <= C state)) /\
  (forall stock capacity inflow outflow : Qc,
      let '(_, capacity_next, flow, _) :=
        kernel_2_capacity_pressure.kernel2_step stock capacity inflow outflow k
      in
      (capacity <= flow -> capacity <= capacity_next <= flow) /\
      (flow <= capacity -> flow <= capacity_next <= capacity)) /\
  (forall stock capacity drift inflow outflow alpha delta : Qc,
      let '(_, capacity_next, _, flow, _) :=
        kernel_3_drift_cycle.kernel3_step stock capacity drift inflow outflow
          k alpha delta
      in
      (capacity <= flow -> capacity <= capacity_next <= flow) /\
      (flow <= capacity -> flow <= capacity_next <= capacity)).
Proof.
  intros Hk. split; [|split].
  - intros state params shock_F Hkappa C_next. subst C_next.
    unfold engine_a_step. cbn [C]. rewrite Hkappa.
    change (@fadd Qc _) with Qcplus. change (@fmul Qc _) with Qcmult.
    change (@fsub Qc _) with Qcminus.
    rewrite Qcplus_0_r. by apply capacity_update_between.
  - intros. by apply capacity_update_between.
  - intros. by apply capacity_update_between.
Qed.

End drift_and_capacity.

(** ** Engine C: what reaches a system *)

Section engine_c_influence.
Context {A : Type} `{Arith A}.
Import engine_a engine_c.

Lemma sigma_ext (n : nat) (f g : nat -> A) :
  (forall j, j < n -> f j = g j) -> sigma n f = sigma n g.
Proof.
  intros Hfg. unfold sigma. induction n as [|n IH]; [done|].
  rewrite seq_S, !fold_left_app, IH by (intros; apply Hfg; lia).
  simpl. by rewrite Hfg by lia.
Qed.

(** X14. A system of Engine C is reached by the others through their
    pressures only: if two networks of the same size agree on system [i] and
    on every pressure [max(0, F_j - C_j)], one step gives system [i] the
    same next state in both, whatever the trusts, drifts, flows and
    capacities of the other systems are. *)
Theorem engine_c_step_coupling_through_pressure
    (state state' : EngineCState A) (params : EngineCParams A)
    (shocks_F shocks_C : option (list A)) (i : nat) :
  dimensions_ok state params ->
  length (systems state') = length (systems state) ->
  (forall j, pressure_of state j = pressure_of state' j) ->
  systems state !! i = systems state' !! i ->
  exists next next',
    engine_c_step state params shocks_F shocks_C = Ok next /\
    engine_c_step state' params shocks_F shocks_C = Ok next' /\
    systems next !! i = systems next' !! i.
Proof.
  intros Hdim Hlen HP Hi.
  assert (Hdim' : dimensions_ok state' params).
  { unfold dimensions_ok in *. by rewrite Hlen. }
  exists (network_step_spec state params shocks_F shocks_C),
         (network_step_spec state' params shocks_F shocks_C).
  split; [by apply engine_c_step_ok|]. split; [by apply engine_c_step_ok|].
  unfold network_step_spec. cbn [systems].
  rewrite !list_lookup_imap, !lookup_zip_with, <- Hi, Hlen.
  destruct (systems state !! i) as [s|]; [|done]. simpl.
  destruct (params_per_system params !! i) as [p|]; [|done]. simpl.
  do 3 f_equal. apply sigma_ext. intros j _. by rewrite HP.
Qed.
End engine_c_influence.

Section engine_c_influence_exact.
Local Open Scope Qc_scope.
Import engine_a engine_c.

Lemma entry_zero_row (W : list (list Qc)) (i j : nat) (row : list Qc) :
  W !! i = Some row -> Forall (fun w => w = 0) row -> entry W i j = 0.
Proof.
  intros Hrow Hzero. unfold entry. rewrite Hrow. simpl.
  destruct (row !! j) as [w|] eqn:Hw; [|done]. simpl.
  rewrite Forall_lookup in Hzero. by apply (Hzero _ _ Hw).
Qed.

Lemma zero_row_after (state : EngineCState Qc) params i row s p t :
  W params !! i = Some row -> Forall (fun w => w = 0) row ->
  systems state !! i = Some s ->
  params_per_system params !! i = Some p ->
  systems (network_after state params t) !! i
  = Some (engine_a_after s p None None t).
Proof.
  intros Hrow Hzero Hs Hp. induction t as [|t IH]; [done|].
  cbn [network_after engine_a_after].
  rewrite (lookup_network_step_spec _ _ _ _ _ _ _ IH Hp).
  rewrite sigma_zero.
  - change (shock_or_zero None i) with (0 : Qc).
    change (shock_or_zero None t) with (0 : Qc).
    change (@fadd Qc _ 0 0) with (0 + 0). by rewrite Qcplus_0_r.
  - intros j. rewrite (entry_zero_row _ _ _ _ Hrow Hzero). apply Qcmult_0_l.
Qed.

(** In exact arithmetic a system whose row of the coupling matrix is all
    zero is not influenced by the network: along [run_engine_c] its trajectory is, state
    for state, the history of [run_engine_a] on that system alone, whatever
    the other rows and the other systems are. *)
Remark zero_row_system_is_isolated_exact (state : EngineCState Qc) params steps
    i row s p :
  dimensions_ok state params ->
  W params !! i = Some row -> Forall (fun w => w = 0) row ->
  systems state !! i = Some s ->
  params_per_system params !! i = Some p ->
  exists history,
    run_engine_c state params steps = Ok history /\
    (fun state_t => systems state_t !! i) <$> history
    = Some <$> run_engine_a s p steps None None.
Proof.
  intros Hdim Hrow Hzero Hs Hp. eexists. split; [by apply run_engine_c_ok|].
  rewrite run_engine_a_history, <- !list_fmap_compose.
  apply list_fmap_ext. intros _ t _. simpl. by eapply zero_row_after.
Qed.

Lemma pressure_no_overload (F C : Qc) : F <= C -> pressure F C = 0.
Proof.
  intros HFC. destruct (pressure_exact F C) as (H0 & Hle & [Heq|Heq]); [done|].
  rewrite Heq in *. apply Qcle_antisym; [|done]. qc_to_q. lra.
Qed.

Lemma pressure_of_no_overload (state : EngineCState Qc) (j : nat) :
  Forall (fun s => F s <= C s) (systems state) -> pressure_of state j = 0.
Proof.
  intros Hunder. unfold pressure_of.
  destruct (systems state !! j) as [s|] eqn:Hs; [|done].
  rewrite Forall_lookup in Hunder. specialize (Hunder _ _ Hs).
  change (pressure (F s) (C s) = 0). by apply pressure_no_overload.
Qed.

(** In exact arithmetic, while no system is over capacity ([F <= C]
    everywhere) the
    coupling matrix has no effect: one step of Engine C (dimensions
    fitting) is then the Engine A step of every system under its exogenous
    shocks alone. *)
Remark engine_c_step_without_overload_exact (state : EngineCState Qc) params
    shocks_F shocks_C :
  dimensions_ok state params ->
  Forall (fun s => F s <= C s) (systems state) ->
  exists next,
    engine_c_step state params shocks_F shocks_C = Ok next /\
    length (systems next) = length (systems state) /\
    forall i s p,
      systems state !! i = Some s ->
      params_per_system params !! i = Some p ->
      systems next !! i
      = Some (engine_a_step s p (shock_or_zero shocks_F i)
                (shock_or_zero shocks_C i)).
Proof.
  intros Hdim Hunder.
  exists (network_step_spec state params shocks_F shocks_C).
  split; [by apply engine_c_step_ok|].
  split; [apply length_network_step_spec, Hdim|].
  intros i s p Hs Hp. rewrite (lookup_network_step_spec _ _ _ _ _ _ _ Hs Hp).
  rewrite sigma_zero.
  - simpl. by rewrite Qcplus_0_r.
  - intros j. rewrite pressure_of_no_overload by done. apply Qcmult_0_r.
Qed.
End engine_c_influence_exact.

Section engine_c_influence_at_inputs.
Import engine_a engine_c.

Lemma engine_c_step_coupling_through_pressure_witness :
  let params :=
    {| params_per_system :=
         [scenario_A_params_binary64; scenario_A_params_binary64];
       W := [[0; 1]; [0.5; 0]]%float |} in
  let state :=
    {| systems := [scenario_A_state_binary64;
                   {| F := 13; C := 8; T := 0.5; D := 0 |}%float] |} in
  let state' :=
    {| systems := [scenario_A_state_binary64;
                   {| F := 6; C := 1; T := 0.25; D := 3 |}%float] |} in
  exists next next',
    engine_c_step state params None None = Ok next /\
    engine_c_step state' params None None = Ok next' /\
    systems next !! 0 = systems next' !! 0.
Proof.
  intros params state state'.
  apply (engine_c_step_coupling_through_pressure state state' params).
  - repeat split; repeat constructor.
  - reflexivity.
  - intros [|[|j]]; reflexivity.
  - reflexivity.
Defined.

End engine_c_influence_at_inputs.

(** ** The recording kernels, record by record *)

Section recorded_series_properties.
Context {A : Type} `{Arith A}.

(** X17. The records of [simulate_kernel2] form one consistent series:
    record [i] is stamped [t = i] and holds the stock and capacity before
    the step (the first one the initial [S0] and [C0]), the inflow and
    outflow its rules give for them, [flow = inflow - outflow] and
    [pressure = flow - capacity]; and the next record's stock and capacity
    are [stock + inflow - outflow] and
    [capacity + k_capacity * (flow - capacity)]. *)
Theorem simulate_kernel2_records_chain (T : Z) (S0 C0 k_capacity : A)
    (inflow_rule outflow_rule : Z -> A -> A -> A) :
  let states :=
    kernel_2_capacity_pressure.simulate_kernel2 T S0 C0 k_capacity
      inflow_rule outflow_rule in
  (forall i r, states !! i = Some r ->
     kernel_2_capacity_pressure.t r = Z.of_nat i /\
     kernel_2_capacity_pressure.inflow r
     = inflow_rule (Z.of_nat i) (kernel_2_capacity_pressure.stock r)
         (kernel_2_capacity_pressure.capacity r) /\
     kernel_2_capacity_pressure.outflow r
     = outflow_rule (Z.of_nat i) (kernel_2_capacity_pressure.stock r)
         (kernel_2_capacity_pressure.capacity r) /\
     kernel_2_capacity_pressure.flow r
     = (kernel_2_capacity_pressure.inflow r
        - kernel_2_capacity_pressure.outflow r)%A /\
     kernel_2_capacity_pressure.pressure r
     = (kernel_2_capacity_pressure.flow r
        - kernel_2_capacity_pressure.capacity r)%A) /\
  (forall r, states !! 0 = Some r ->
     kernel_2_capacity_pressure.stock r = S0 /\
     kernel_2_capacity_pressure.capacity r = C0) /\
  (forall i r r', states !! i = Some r -> states !! S i = Some r' ->
     kernel_2_capacity_pressure.stock r'
     = (kernel_2_capacity_pressure.stock r
        + kernel_2_capacity_pressure.inflow r
        - kernel_2_capacity_pressure.outflow r)%A /\
     kernel_2_capacity_pressure.capacity r'
     = (kernel_2_capacity_pressure.capacity r
        + k_capacity * (kernel_2_capacity_pressure.flow r
                        - kernel_2_capacity_pressure.capacity r))%A).
Proof.
  intros states. subst states. rewrite simulate_kernel2_series.
  split; [|split].
  - intros i r Hr. by apply lookup_fmap_seq in Hr as [_ ->].
  - intros r Hr. by apply lookup_fmap_seq in Hr as [_ ->].
  - intros i r r' Hr Hr'.
    apply lookup_fmap_seq in Hr as [_ ->].
    apply lookup_fmap_seq in Hr' as [_ ->].
    cbn [kernel2_after].
    by destruct (kernel2_after S0 C0 k_capacity inflow_rule outflow_rule i).
Qed.

Lemma kernel3_after_kernel2 (S0 C0 D0 k_capacity alpha delta : A)
    (inflow_rule outflow_rule : Z -> A -> A -> A) (t : nat) :
  (kernel3_after S0 C0 D0 k_capacity alpha delta
     (fun t S_t C_t _ => inflow_rule t S_t C_t)
     (fun t S_t C_t _ => outflow_rule t S_t C_t) t).1
  = kernel2_after S0 C0 k_capacity inflow_rule outflow_rule t.
Proof.
  induction t as [|t IH]; [done|]. cbn [kernel3_after kernel2_after].
  destruct (kernel3_after _ _ _ _ _ _ _ _ t) as [[S_t C_t] D_t].
  simpl in IH. by rewrite <- IH.
Qed.

(** X18. Kernel 3 is Kernel 2 with a drift beside it: when the inflow and
    outflow rules do not read the drift, the records of [simulate_kernel3]
    without their drift field are the records of [simulate_kernel2], for any
    [D0], [alpha] and [delta]. *)
Theorem simulate_kernel3_extends_kernel2 (T : Z)
    (S0 C0 D0 k_capacity alpha delta : A)
    (inflow_rule outflow_rule : Z -> A -> A -> A) :
  kernel2_view
    <$> kernel_3_drift_cycle.simulate_kernel3 T S0 C0 D0 k_capacity alpha delta
          (fun t S_t C_t _ => inflow_rule t S_t C_t)
          (fun t S_t C_t _ => outflow_rule t S_t C_t)
  = kernel_2_capacity_pressure.simulate_kernel2 T S0 C0 k_capacity
      inflow_rule outflow_rule.
Proof.
  rewrite simulate_kernel3_series, simulate_kernel2_series,
    <- list_fmap_compose.
  apply list_fmap_ext. intros _ t _. simpl.
  rewrite <- kernel3_after_kernel2 with (D0 := D0) (alpha := alpha)
                                        (delta := delta).
  by destruct (kernel3_after _ _ _ _ _ _ _ _ t) as [[S_t C_t] D_t].
Qed.

(** X19. The drift that [simulate_kernel3] records starts at [D0] and
    follows [drift' = (1 - delta) * drift + alpha * pressure] from each
    record to the next, the pressure being the signed [flow - capacity] of
    the earlier record. *)
Theorem simulate_kernel3_drift_chain (T : Z)
    (S0 C0 D0 k_capacity alpha delta : A)
    (inflow_rule outflow_rule : Z -> A -> A -> A -> A) :
  let states :=
    kernel_3_drift_cycle.simulate_kernel3 T S0 C0 D0 k_capacity alpha delta
      inflow_rule outflow_rule in
  (forall r, states !! 0 = Some r -> kernel_3_drift_cycle.drift r = D0) /\
  (forall i r r', states !! i = Some r -> states !! S i = Some r' ->
     kernel_3_drift_cycle.pressure r
     = (kernel_3_drift_cycle.flow r - kernel_3_drift_cycle.capacity r)%A /\
     kernel_3_drift_cycle.drift r'
     = ((fone - delta) * kernel_3_drift_cycle.drift r
        + alpha * kernel_3_drift_cycle.pressure r)%A).
Proof.
  intros states. subst states. rewrite simulate_kernel3_series. split.
  - intros r Hr. by apply lookup_fmap_seq in Hr as [_ ->].
  - intros i r r' Hr Hr'.
    apply lookup_fmap_seq in Hr as [_ ->].
    apply lookup_fmap_seq in Hr' as [_ ->].
    cbn [kernel3_after].
    by destruct (kernel3_after _ _ _ _ _ _ _ _ i) as [[S_t C_t] D_t].
Qed.
End recorded_series_properties.

Section two_system_records.
Context {A : Type} `{Arith A}.
Import two_system_contagion_kernel.

(** X20. In the records of [simulate_two_system_kernel] the pressures lag
    the state by one step: record [i] is stamped [t = i]; its [P1] and [P2]
    are the signed [F - C] of the state before the step, that is of the
    initial condition for the first record and of the previous record
    otherwise; and its capacities, drift of system 1 and trust are the
    updates of the previous record's by those pressures. *)
Theorem simulate_two_system_kernel_records_chain (T_steps : Z)
    (F1_0 C1_0 D1_0 F2_0 C2_0 D2_0 T0 : A)
    (k1 k2 alpha1 alpha2 delta1 delta2 r1 r2 lambda_T coupling : A)
    (bubble_steps : Z) (bubble_shock : A) :
  let states :=
    simulate_two_system_kernel T_steps F1_0 C1_0 D1_0 F2_0 C2_0 D2_0 T0
      k1 k2 alpha1 alpha2 delta1 delta2 r1 r2 lambda_T coupling
      bubble_steps bubble_shock in
  (forall i r, states !! i = Some r -> t r = Z.of_nat i) /\
  (forall r, states !! 0 = Some r ->
     P1 r = (F1_0 - C1_0)%A /\ P2 r = (F2_0 - C2_0)%A /\
     C1 r = (C1_0 + k1 * P1 r)%A /\ C2 r = (C2_0 + k2 * P2 r)%A /\
     T r = py_max fzero (T0 - lambda_T * (fabs (P1 r) + fabs (P2 r)))%A) /\
  (forall i r r', states !! i = Some r -> states !! S i = Some r' ->
     P1 r' = (F1 r - C1 r)%A /\ P2 r' = (F2 r - C2 r)%A /\
     C1 r' = (C1 r + k1 * P1 r')%A /\ C2 r' = (C2 r + k2 * P2 r')%A /\
     D1 r' = ((fone - delta1) * D1 r + alpha1 * P1 r')%A /\
     D2 r' = ((fone - delta2) * D2 r + alpha2 * (P2 r' + coupling * P1 r'))%A /\
     T r' = py_max fzero (T r - lambda_T * (fabs (P1 r') + fabs (P2 r')))%A).
Proof.
  intros states. subst states. rewrite simulate_two_system_kernel_series.
  split; [|split].
  - intros i r Hr. apply lookup_fmap_seq in Hr as [_ ->].
    cbn [two_system_after].
    by destruct (two_system_after _ _ _ _ _ _ _ _ _ _ _ _ _ _ _ _ _ _ _ i)
      as [[[[[[F1 C1] D1] F2] C2] D2] T].
  - intros r Hr. by apply lookup_fmap_seq in Hr as [_ ->].
  - intros i r r' Hr Hr'.
    apply lookup_fmap_seq in Hr as [_ ->].
    apply lookup_fmap_seq in Hr' as [_ ->].
    cbn [two_system_after].
    by destruct (two_system_after _ _ _ _ _ _ _ _ _ _ _ _ _ _ _ _ _ _ _ i)
      as [[[[[[F1 C1] D1] F2] C2] D2] T].
Qed.

Lemma two_system_after_shocks (F1_0 C1_0 D1_0 F2_0 C2_0 D2_0 T0 : A)
    (k1 k2 alpha1 alpha2 delta1 delta2 r1 r2 lambda_T coupling : A)
    (bubble_steps bubble_steps' : Z) (bubble_shock bubble_shock' : A) (n : nat) :
  (forall t : nat, t < n ->
     (if (Z.of_nat t <? bubble_steps)%Z then bubble_shock else fzero)
     = (if (Z.of_nat t <? bubble_steps')%Z then bubble_shock' else fzero)) ->
  two_system_after F1_0 C1_0 D1_0 F2_0 C2_0 D2_0 T0 k1 k2 alpha1 alpha2
    delta1 delta2 r1 r2 lambda_T coupling bubble_steps bubble_shock n
  = two_system_after F1_0 C1_0 D1_0 F2_0 C2_0 D2_0 T0 k1 k2 alpha1 alpha2
      delta1 delta2 r1 r2 lambda_T coupling bubble_steps' bubble_shock' n.
Proof.
  induction n as [|n IH]; intros Hshock; [done|].
  cbn [two_system_after]. rewrite IH, Hshock by (intros; auto with lia). done.
Qed.

(** X21. The bubble of [simulate_two_system_kernel] is the shock
    [bubble_shock] on the flow of system 1 in the rounds [t < bubble_steps]
    and nothing else: any two [bubble_steps] at or beyond [T_steps] give the
    same records, and with [bubble_steps <= 0] the records do not depend on
    [bubble_shock]. *)
Theorem simulate_two_system_kernel_bubble_edges (T_steps : Z)
    (F1_0 C1_0 D1_0 F2_0 C2_0 D2_0 T0 : A)
    (k1 k2 alpha1 alpha2 delta1 delta2 r1 r2 lambda_T coupling : A)
    (bubble_steps bubble_steps' : Z) (bubble_shock bubble_shock' : A) :
  let run := simulate_two_system_kernel T_steps F1_0 C1_0 D1_0 F2_0 C2_0 D2_0
               T0 k1 k2 alpha1 alpha2 delta1 delta2 r1 r2 lambda_T coupling in
  ((T_steps <= bubble_steps)%Z -> (T_steps <= bubble_steps')%Z ->
   run bubble_steps bubble_shock = run bubble_steps' bubble_shock) /\
  ((bubble_steps <= 0)%Z ->
   run bubble_steps bubble_shock = run bubble_steps bubble_shock').
Proof.
  intros run. subst run. rewrite !simulate_two_system_kernel_series.
  cbv zeta. split.
  - intros Hb Hb'. apply list_fmap_ext. intros i t Ht.
    apply lookup_seq in Ht as [-> Hi]. cbn [Nat.add].
    f_equal; apply two_system_after_shocks; intros t Ht;
      destruct (Z.ltb_spec (Z.of_nat t) bubble_steps),
               (Z.ltb_spec (Z.of_nat t) bubble_steps'); try done; lia.
  - intros Hb. apply list_fmap_ext. intros i t Ht.
    apply lookup_seq in Ht as [-> Hi]. cbn [Nat.add].
    f_equal; apply two_system_after_shocks; intros t Ht;
      destruct (Z.ltb_spec (Z.of_nat t) bubble_steps); try done; lia.
Qed.
End two_system_records.

Section stock_accounting.
Local Open Scope Qc_scope.

Lemma sigma_S (n : nat) (f : nat -> Qc) : sigma (S n) f = sigma n f + f n.
Proof. unfold sigma. by rewrite seq_S, fold_left_app. Qed.

(** In exact arithmetic borrow and return add up: the stock in record [i] of
    [simulate_kernel2] is the initial stock plus the sum of the net flows
    [inflow - outflow] of the records before it. *)
Remark simulate_kernel2_stock_is_sum_of_flows_exact (T : Z) (S0 C0 k_capacity : Qc)
    (inflow_rule outflow_rule : Z -> Qc -> Qc -> Qc) :
  let states :=
    kernel_2_capacity_pressure.simulate_kernel2 T S0 C0 k_capacity
      inflow_rule outflow_rule in
  let flow_at := fun j =>
    default 0 (kernel_2_capacity_pressure.flow <$> states !! j) in
  forall i r, states !! i = Some r ->
    kernel_2_capacity_pressure.stock r = S0 + sigma i flow_at.
Proof.
  intros states flow_at i r Hr.
  assert (Hseries := simulate_kernel2_series T S0 C0 k_capacity
                       inflow_rule outflow_rule).
  fold states in Hseries.
  assert (Hi : (i < Z.to_nat T)%nat).
  { rewrite Hseries in Hr. by apply lookup_fmap_seq in Hr as [? _]. }
  assert (Hstock : forall n, (n <= Z.to_nat T)%nat ->
    (kernel2_after S0 C0 k_capacity inflow_rule outflow_rule n).1
    = S0 + sigma n flow_at).
  { induction n as [|n IH]; intros Hn.
    - simpl. unfold sigma. simpl. by rewrite Qcplus_0_r.
    - rewrite sigma_S, Qcplus_assoc, <- IH by lia.
      assert (Hflow : flow_at n
        = kernel_2_capacity_pressure.flow
            (kernel2_record k_capacity inflow_rule outflow_rule
               (kernel2_after S0 C0 k_capacity inflow_rule outflow_rule n) n)).
      { unfold flow_at. rewrite Hseries, list_lookup_fmap.
        by rewrite lookup_seq_lt by lia. }
      rewrite Hflow. cbn [kernel2_after].
      destruct (kernel2_after S0 C0 k_capacity inflow_rule outflow_rule n)
        as [S_n C_n].
      simpl. ring. }
  rewrite Hseries in Hr. apply lookup_fmap_seq in Hr as [_ ->].
  simpl. apply Hstock. lia.
Qed.
End stock_accounting.

Section trust_binary64.
Import engine_a engine_c.
Local Open Scope float_scope.

(** X23. On doubles, every trust that Engines A and C compute lies in
    [[0, 1]], whatever the inputs are, NaN and the infinities included: in a
    history of [run_engine_a] or [run_engine_c] every state after the
    initial one has its trusts in [[0, 1]] (so never NaN). *)
Theorem computed_trust_in_unit_interval_binary64 :
  (forall (state : EngineAState float) params steps shocks_F shocks_C i s,
      run_engine_a state params steps shocks_F shocks_C !! S i = Some s ->
      (0 <=? T s) = true /\ (T s <=? 1) = true) /\
  (forall (state : EngineCState float) params steps history i state_t j s,
      run_engine_c state params steps = Ok history ->
      history !! S i = Some state_t ->
      systems state_t !! j = Some s ->
      (0 <=? T s) = true /\ (T s <=? 1) = true).
Proof.
  split.
  - intros state params steps shocks_F shocks_C i s Hs.
    rewrite run_engine_a_history in Hs.
    apply lookup_fmap_seq in Hs as [_ ->]. apply clamp_binary64.
  - intros state params steps history i state_t j s Hrun Ht Hs.
    destruct (run_engine_c_Ok _ _ _ _ Hrun) as [Hlen Hhist].
    destruct (Hhist (S i)) as (state_t' & Hafter & Ht').
    { apply lookup_lt_Some in Ht. lia. }
    rewrite Ht in Ht'. injection Ht' as <-. simpl in Hafter.
    destruct (engine_c_after state params i) as [prev|]; [|done].
    simpl in Hafter.
    pose proof (engine_c_step_checked _ _ _ _ _ Hafter) as Hdim.
    rewrite engine_c_step_ok in Hafter by done. injection Hafter as <-.
    unfold network_step_spec in Hs. cbn [systems] in Hs.
    rewrite list_lookup_imap in Hs.
    destruct (zip _ _ !! j) as [[s0 p0]|]; [|done].
    simpl in Hs. injection Hs as <-. apply clamp_binary64.
Qed.

Lemma computed_trust_in_unit_interval_binary64_witness :
  exists s,
    run_engine_a {| F := nan; C := infinity; T := nan; D := 0 |}
      scenario_A_params_binary64 2%Z None None !! 1%nat = Some s /\
    (0 <=? T s) = true /\ (T s <=? 1) = true.
Proof.
  eexists. split; [reflexivity|].
  apply (proj1 computed_trust_in_unit_interval_binary64
           {| F := nan; C := infinity; T := nan; D := 0 |}
           scenario_A_params_binary64 2%Z None None 0%nat).
  reflexivity.
Defined.
End trust_binary64.

Section recorded_series_at_inputs.
Local Open Scope float_scope.

Lemma simulate_kernel2_records_chain_witness :
  exists r r',
    kernel_2_capacity_pressure.simulate_kernel2 3%Z 10 8 0.5
      (fun _ _ _ => 2) (fun _ stock _ => 0.5 * stock) !! 0%nat = Some r /\
    kernel_2_capacity_pressure.simulate_kernel2 3%Z 10 8 0.5
      (fun _ _ _ => 2) (fun _ stock _ => 0.5 * stock) !! 1%nat = Some r' /\
    kernel_2_capacity_pressure.stock r'
    = (kernel_2_capacity_pressure.stock r
       + kernel_2_capacity_pressure.inflow r
       - kernel_2_capacity_pressure.outflow r)%A /\
    kernel_2_capacity_pressure.capacity r'
    = (kernel_2_capacity_pressure.capacity r
       + 0.5 * (kernel_2_capacity_pressure.flow r
                - kernel_2_capacity_pressure.capacity r))%A.
Proof.
  eexists. eexists.
  split; [reflexivity|]. split; [reflexivity|].
  apply (proj2 (proj2 (simulate_kernel2_records_chain 3%Z 10 8 0.5
                         (fun _ _ _ => 2) (fun _ stock _ => 0.5 * stock)))
           0%nat); reflexivity.
Defined.

Lemma simulate_kernel3_drift_chain_witness :
  exists r r',
    kernel_3_drift_cycle.simulate_kernel3 3%Z 10 8 1 0.5 0.25 0.5
      (fun _ _ _ _ => 2) (fun _ stock _ drift => 0.5 * stock + drift)
      !! 0%nat = Some r /\
    kernel_3_drift_cycle.simulate_kernel3 3%Z 10 8 1 0.5 0.25 0.5
      (fun _ _ _ _ => 2) (fun _ stock _ drift => 0.5 * stock + drift)
      !! 1%nat = Some r' /\
    kernel_3_drift_cycle.pressure r
    = (kernel_3_drift_cycle.flow r - kernel_3_drift_cycle.capacity r)%A /\
    kernel_3_drift_cycle.drift r'
    = ((fone - 0.5) * kernel_3_drift_cycle.drift r
       + 0.25 * kernel_3_drift_cycle.pressure r)%A.
Proof.
  eexists. eexists.
  split; [reflexivity|]. split; [reflexivity|].
  apply (proj2 (simulate_kernel3_drift_chain 3%Z 10 8 1 0.5 0.25 0.5
                  (fun _ _ _ _ => 2)
                  (fun _ stock _ drift => 0.5 * stock + drift))
           0%nat); reflexivity.
Defined.

Lemma simulate_two_system_kernel_records_chain_witness :
  exists r r',
    two_system_contagion_kernel.simulate_two_system_kernel 3%Z
      2 1 0 1 1 0 1 0.2 0.05 0.4 0.2 0.1 0.05 0.8 0.5 0.1 0.3 10%Z 0.5
      !! 0%nat = Some r /\
    two_system_contagion_kernel.simulate_two_system_kernel 3%Z
      2 1 0 1 1 0 1 0.2 0.05 0.4 0.2 0.1 0.05 0.8 0.5 0.1 0.3 10%Z 0.5
      !! 1%nat = Some r' /\
    two_system_contagion_kernel.P1 r'
    = (two_system_contagion_kernel.F1 r - two_system_contagion_kernel.C1 r)%A.
Proof.
  eexists. eexists.
  split; [reflexivity|]. split; [reflexivity|].
  apply (proj2 (proj2 (simulate_two_system_kernel_records_chain 3%Z
                         2 1 0 1 1 0 1 0.2 0.05 0.4 0.2 0.1 0.05 0.8 0.5 0.1
                         0.3 10%Z 0.5)) 0%nat); reflexivity.
Defined.

Lemma simulate_two_system_kernel_bubble_edges_witness :
  two_system_contagion_kernel.simulate_two_system_kernel 3%Z
    2 1 0 1 1 0 1 0.2 0.05 0.4 0.2 0.1 0.05 0.8 0.5 0.1 0.3 10%Z 0.5
  = two_system_contagion_kernel.simulate_two_system_kernel 3%Z
      2 1 0 1 1 0 1 0.2 0.05 0.4 0.2 0.1 0.05 0.8 0.5 0.1 0.3 3%Z 0.5.
Proof.
  apply (proj1 (simulate_two_system_kernel_bubble_edges 3%Z
                  2 1 0 1 1 0 1 0.2 0.05 0.4 0.2 0.1 0.05 0.8 0.5 0.1 0.3
                  10%Z 3%Z 0.5 0.5)); by vm_compute.
Defined.
End recorded_series_at_inputs.


(** ** Couplings that vanish, on doubles *)

Section couplings_binary64.
Import engine_a engine_b engine_c.
Local Open Scope float_scope.

Lemma finite_cases (x : float) :
  (abs x <? infinity) = true ->
  (exists s, Prim2SF x = S754_zero s) \/
  (exists s m e, Prim2SF x = S754_finite s m e).
Proof.
  rewrite ltb_spec, abs_spec. unfold SFltb.
  change (Prim2SF infinity) with (S754_infinity false).
  destruct (Prim2SF x) as [s|s| |s m e]; simpl; try done; eauto.
Qed.

Lemma mul_zero_finite (x : float) :
  (abs x <? infinity) = true -> 0 * x = 0 \/ 0 * x = -0.
Proof.
  intros Hx.
  destruct (finite_cases x Hx) as [[[] Hs]|([] & m & e & Hs)];
    [right|left|right|left]; apply Prim2SF_inj; rewrite mul_spec, Hs;
    reflexivity.
Qed.

Lemma mul_finite_zero (w : float) :
  (abs w <? infinity) = true -> w * 0 = 0 \/ w * 0 = -0.
Proof.
  intros Hw.
  destruct (finite_cases w Hw) as [[[] Hs]|([] & m & e & Hs)];
    [right|left|right|left]; apply Prim2SF_inj; rewrite mul_spec, Hs;
    reflexivity.
Qed.

Lemma add_zero_twice (x : float) : x + 0 + 0 = x + 0.
Proof.
  destruct (add_zero_binary64 x) as [Hx|Hx]; [by rewrite !Hx|].
  apply Prim2SF_inj. rewrite !add_spec, Hx. reflexivity.
Qed.

Lemma add_neg_zero (x : float) : x + -0 = x.
Proof.
  apply Prim2SF_inj. rewrite add_spec.
  change (Prim2SF (-0)) with (S754_zero true).
  by destruct (Prim2SF x) as [[]|[]| |s m e].
Qed.

Lemma unit_interval_finite (x : float) :
  (0 <=? x) = true -> (x <=? 1) = true -> (abs x <? infinity) = true.
Proof.
  rewrite !leb_spec, ltb_spec, abs_spec. unfold SFleb, SFltb.
  change (Prim2SF 0) with (S754_zero false).
  change (Prim2SF infinity) with (S754_infinity false).
  destruct (Prim2SF x) as [s|[]| |s m e]; simpl; try done.
Qed.

Lemma slow_trust_finite (state : EngineBState float) params t :
  (abs (T (slow_state state)) <? infinity) = true ->
  (abs (T (slow_state (engine_b_after state params t))) <? infinity) = true.
Proof.
  intros HT. destruct t as [|t]; [done|]. cbn [engine_b_after].
  apply unit_interval_finite; apply clamp_binary64.
Qed.

(** X10. On doubles, with [gamma_fs = 0.0] and a finite slow trust to start
    from, the fast layer of Engine B does not feel the slow layer: along
    [run_engine_b] the fast layer follows, state for state and bit for bit,
    the history of [run_engine_a] on the fast layer alone, whatever the slow
    layer and its parameters are. *)
Theorem run_engine_b_uncoupled (state : EngineBState float) params steps :
  gamma_fs params = 0 ->
  (abs (T (slow_state state)) <? infinity) = true ->
  fast_state <$> run_engine_b state params steps
  = run_engine_a (fast_state state) (layer_params (fast params)) steps
      None None.
Proof.
  intros Hgamma HT.
  assert (Hafter : forall t,
    fast_state (engine_b_after state params t)
    = engine_a_after (fast_state state) (layer_params (fast params))
        None None t).
  { induction t as [|t IH]; [done|].
    cbn [engine_b_after engine_a_after].
    pose proof (slow_trust_finite state params t HT) as HTs.
    rewrite <- IH. clear IH.
    destruct (engine_b_after state params t) as [fs ss].
    cbn [fast_state slow_state] in *.
    unfold engine_b_step, engine_a_step.
    cbn [fast_state slow_state F C T D layer_params engine_a.r
         engine_a.alpha engine_a.delta engine_a.lambda_trust
         engine_a.rho_trust engine_a.kappa_capacity shock_or_zero].
    f_equal. rewrite Hgamma.
    cbn [fadd fsub fmul fzero binary64_arith].
    destruct (mul_zero_finite _ HTs) as [-> | ->].
    - by rewrite add_zero_twice.
    - by rewrite add_neg_zero. }
  rewrite run_engine_b_history, run_engine_a_history, <- list_fmap_compose.
  apply list_fmap_ext. intros _ t _. apply Hafter.
Qed.

Lemma run_engine_b_uncoupled_witness :
  fast_state
    <$> run_engine_b
          {| fast_state := scenario_A_state_binary64;
             slow_state := {| F := 3; C := 2; T := 0.25; D := 1 |} |}
          {| fast :=
               {| engine_b.r := 0.1; engine_b.alpha := 0.2;
                  engine_b.delta := 0.1; engine_b.lambda_trust := 0.05;
                  engine_b.rho_trust := 0.02; engine_b.kappa_capacity := 0.3;
                  beta_drift_from_other := 0.7 |};
             slow :=
               {| engine_b.r := 0.3; engine_b.alpha := 0.1;
                  engine_b.delta := 0.2; engine_b.lambda_trust := 0.01;
                  engine_b.rho_trust := 0.03; engine_b.kappa_capacity := 0.5;
                  beta_drift_from_other := 0.4 |};
             gamma_fs := 0 |} 3
  = run_engine_a scenario_A_state_binary64 scenario_A_params_binary64 3
      None None.
Proof.
  apply (run_engine_b_uncoupled
           {| fast_state := scenario_A_state_binary64;
              slow_state := {| F := 3; C := 2; T := 0.25; D := 1 |} |});
    reflexivity.
Defined.

Lemma entry_zero_row_binary64 (W : list (list float)) (i j : nat)
    (row : list float) :
  W !! i = Some row -> Forall (fun w => w = 0 \/ w = -0) row ->
  entry W i j = 0 \/ entry W i j = -0.
Proof.
  intros Hrow Hzero. unfold entry. rewrite Hrow. simpl.
  destruct (row !! j) as [w|] eqn:Hw; [|by left]. simpl.
  rewrite Forall_lookup in Hzero. by apply (Hzero _ _ Hw).
Qed.

Lemma zero_row_after_binary64 (state : EngineCState float) params n i row
    s p :
  W params !! i = Some row -> Forall (fun w => w = 0 \/ w = -0) row ->
  systems state !! i = Some s ->
  params_per_system params !! i = Some p ->
  (forall t, (t < n)%nat ->
     Forall finite_pressure (systems (network_after state params t))) ->
  forall t, (t <= n)%nat ->
    systems (network_after state params t) !! i
    = Some (engine_a_after s p None None t).
Proof.
  intros Hrow Hzero Hs Hp Hfin t. induction t as [|t IH]; intros Ht; [done|].
  cbn [network_after engine_a_after].
  rewrite (lookup_network_step_spec _ _ _ _ _ _ _ (IH ltac:(lia)) Hp).
  rewrite sigma_signed_zero; [reflexivity|].
  intros j. apply mul_signed_zero_pressure_of; [|apply Hfin; lia].
  by apply (entry_zero_row_binary64 _ _ _ row).
Qed.

(** X15. On doubles, a system whose row of the coupling matrix is all zero
    ([0.0] or [-0.0]) is not influenced by the network as long as no pressure overflows: with
    fitting dimensions [run_engine_c] returns, and if every pressure
    [max(0, F - C)] in the returned history is finite, the trajectory of
    that system is, state for state and bit for bit, the history of
    [run_engine_a] on that system alone, whatever the other rows and the
    other systems are. *)
Theorem zero_row_system_is_isolated (state : EngineCState float) params steps
    i row s p :
  dimensions_ok state params ->
  W params !! i = Some row -> Forall (fun w => w = 0 \/ w = -0) row ->
  systems state !! i = Some s ->
  params_per_system params !! i = Some p ->
  exists history,
    run_engine_c state params steps = Ok history /\
    (Forall (fun state_t => Forall finite_pressure (systems state_t)) history ->
     (fun state_t => systems state_t !! i) <$> history
     = Some <$> run_engine_a s p steps None None).
Proof.
  intros Hdim Hrow Hzero Hs Hp. eexists. split; [by apply run_engine_c_ok|].
  intros Hfin.
  rewrite run_engine_a_history, <- !list_fmap_compose.
  apply list_fmap_ext. intros k t Ht. apply lookup_seq in Ht as [-> Hk].
  simpl.
  apply (zero_row_after_binary64 state params (Z.to_nat steps) i row);
    try done; [|lia].
  intros t Ht. rewrite Forall_lookup in Hfin. apply (Hfin t).
  rewrite list_lookup_fmap, lookup_seq_lt by lia. done.
Qed.

Lemma zero_row_system_is_isolated_witness :
  exists history,
    run_engine_c
      {| systems := [scenario_A_state_binary64;
                     {| F := 13; C := 8; T := 0.5; D := 0 |}] |}
      {| params_per_system :=
           [scenario_A_params_binary64; scenario_A_params_binary64];
         W := [[0; 0]; [0.5; 0.25]] |} 3
    = Ok history /\
    (fun state_t => systems state_t !! 0%nat) <$> history
    = Some <$> run_engine_a scenario_A_state_binary64
                 scenario_A_params_binary64 3 None None.
Proof.
  destruct (zero_row_system_is_isolated
              {| systems := [scenario_A_state_binary64;
                             {| F := 13; C := 8; T := 0.5; D := 0 |}] |}
              {| params_per_system :=
                   [scenario_A_params_binary64; scenario_A_params_binary64];
                 W := [[0; 0]; [0.5; 0.25]] |} 3 0%nat [0; 0]
              scenario_A_state_binary64 scenario_A_params_binary64)
    as (history & Hrun & Htrajectory).
  - repeat split; repeat constructor.
  - reflexivity.
  - repeat constructor.
  - reflexivity.
  - reflexivity.
  - exists history. split; [exact Hrun|]. apply Htrajectory.
    vm_compute in Hrun. injection Hrun as <-. repeat constructor.
Defined.

Lemma pressure_of_zero (state : EngineCState float) (j : nat) :
  Forall (fun s => pressure (F s) (C s) = 0) (systems state) ->
  pressure_of state j = 0.
Proof.
  intros Hzero. unfold pressure_of.
  destruct (systems state !! j) as [s|] eqn:Hs; [|done]. simpl.
  rewrite Forall_lookup in Hzero. by apply (Hzero _ _ Hs).
Qed.

Lemma entry_finite (W : list (list float)) (i j : nat) :
  Forall (Forall (fun w => (abs w <? infinity) = true)) W ->
  (abs (entry W i j) <? infinity) = true.
Proof.
  intros HW. unfold entry.
  destruct (W !! i) as [row|] eqn:Hrow; [|done]. simpl.
  destruct (row !! j) as [w|] eqn:Hw; [|done]. simpl.
  rewrite Forall_lookup in HW. specialize (HW _ _ Hrow).
  rewrite Forall_lookup in HW. by apply (HW _ _ Hw).
Qed.

(** X16. On doubles, while every pressure is [0.0] (no system has
    [F - C > 0]) and every entry of the coupling matrix is finite, the
    coupling matrix has no effect: one step of Engine C (dimensions fitting)
    returns a network of the same size in which every system is the Engine A
    step of that system under its exogenous shocks alone, the flow shock
    being [exo_F + 0.0] (which is [exo_F] unless [exo_F] is [-0.0]). *)
Theorem engine_c_step_without_overload (state : EngineCState float) params
    shocks_F shocks_C :
  dimensions_ok state params ->
  Forall (fun s => pressure (F s) (C s) = 0) (systems state) ->
  Forall (Forall (fun w => (abs w <? infinity) = true)) (W params) ->
  exists next,
    engine_c_step state params shocks_F shocks_C = Ok next /\
    length (systems next) = length (systems state) /\
    forall i s p,
      systems state !! i = Some s ->
      params_per_system params !! i = Some p ->
      systems next !! i
      = Some (engine_a_step s p (shock_or_zero shocks_F i + 0)
                (shock_or_zero shocks_C i)).
Proof.
  intros Hdim Hzero HW.
  exists (network_step_spec state params shocks_F shocks_C).
  split; [by apply engine_c_step_ok|].
  split; [apply length_network_step_spec, Hdim|].
  intros i s p Hs Hp. rewrite (lookup_network_step_spec _ _ _ _ _ _ _ Hs Hp).
  rewrite sigma_signed_zero; [done|].
  intros j. rewrite pressure_of_zero by done.
  apply mul_finite_zero. by apply entry_finite.
Qed.

Lemma engine_c_step_without_overload_witness :
  exists next,
    engine_c_step
      {| systems := [ {| F := 8; C := 10; T := 0.5; D := 0 |};
                      {| F := 3; C := 3; T := 0.5; D := 0 |} ] |}
      {| params_per_system :=
           [scenario_A_params_binary64; scenario_A_params_binary64];
         W := [[0.5; 2]; [-1; 0.25]] |} (Some [0.125; 0.25]) None
    = Ok next /\
    systems next
    = [ engine_a_step {| F := 8; C := 10; T := 0.5; D := 0 |}
          scenario_A_params_binary64 0.125 0;
        engine_a_step {| F := 3; C := 3; T := 0.5; D := 0 |}
          scenario_A_params_binary64 0.25 0 ].
Proof.
  destruct (engine_c_step_without_overload
              {| systems := [ {| F := 8; C := 10; T := 0.5; D := 0 |};
                              {| F := 3; C := 3; T := 0.5; D := 0 |} ] |}
              {| params_per_system :=
                   [scenario_A_params_binary64; scenario_A_params_binary64];
                 W := [[0.5; 2]; [-1; 0.25]] |} (Some [0.125; 0.25]) None)
    as (next & Hstep & Hlen & Hnext).
  - repeat split; repeat constructor.
  - repeat constructor.
  - repeat constructor.
  - exists next. split; [exact Hstep|].
    pose proof (Hnext 0%nat _ _ eq_refl eq_refl) as H0.
    pose proof (Hnext 1%nat _ _ eq_refl eq_refl) as H1.
    destruct next as [[|s0 [|s1 [|s2 l]]]]; try done.
    simpl in H0, H1. injection H0 as ->. injection H1 as ->. reflexivity.
Defined.
End couplings_binary64.

(** ** The store: calls do not interfere *)

Section store.
Context {A : Type} `{Arith A}.
Import engine_a engine_b engine_c.

Lemma py_bind_Ok {X Y} (m : objects.py A X) (k : X -> objects.py A Y)
    (h h' : objects.store A) (x : X) :
  m h = Some (Ok x, h') -> (m ≫= k) h = k x h'.
Proof. intros Hm. unfold mbind, objects.py_bind. by rewrite Hm. Qed.

Lemma py_bind_Raise {X Y} (m : objects.py A X) (k : X -> objects.py A Y)
    (h h' : objects.store A) (e : exn) :
  m h = Some (Raise e, h') -> (m ≫= k) h = Some (Raise e, h').
Proof. intros Hm. unfold mbind, objects.py_bind. by rewrite Hm. Qed.

Lemma py_for_each_app {S I} (body : S -> I -> objects.py A S)
    (l1 l2 : list I) (s : S) (h : objects.store A) :
  objects.for_each body (l1 ++ l2) s h
  = (objects.for_each body l1 s ≫= objects.for_each body l2) h.
Proof.
  revert s h. induction l1 as [|i l1 IH]; intros s h; [done|].
  simpl. unfold mbind, objects.py_bind.
  destruct (body s i h) as [[[s'|e] h']|]; [apply IH|done..].
Qed.

Lemma py_for_each_ext {S I} (body body' : S -> I -> objects.py A S)
    (items : list I) (s : S) (h : objects.store A) :
  (forall s i h, body s i h = body' s i h) ->
  objects.for_each body items s h = objects.for_each body' items s h.
Proof.
  intros Hbody. revert s h. induction items as [|i items IH]; intros s h;
    [done|].
  simpl. unfold mbind, objects.py_bind. rewrite Hbody.
  destruct (body' s i h) as [[[s'|e] h']|]; [apply IH|done..].
Qed.

Lemma holds_A_prefix (h h' : objects.store A) l s :
  holds_A h l s -> h `prefix_of` h' -> holds_A h' l s.
Proof. intros Hl [k ->]. by apply lookup_app_l_Some. Qed.

Lemma holds_B_prefix (h h' : objects.store A) l s :
  holds_B h l s -> h `prefix_of` h' -> holds_B h' l s.
Proof.
  intros (fast & slow & Hl & Hf & Hs) Hh. exists fast, slow.
  destruct Hh as [k ->].
  split; [by apply lookup_app_l_Some|].
  split; eapply holds_A_prefix; try done; by exists k.
Qed.

Lemma holds_C_prefix (h h' : objects.store A) l s :
  holds_C h l s -> h `prefix_of` h' -> holds_C h' l s.
Proof.
  intros (systems & Hl & Hsys) Hh. exists systems. split.
  - destruct Hh as [k ->]. by apply lookup_app_l_Some.
  - eapply Forall2_impl; [done|]. intros. by eapply holds_A_prefix.
Qed.

(** A loop that keeps a reference to a state and appends it to a history,
    against the states [after 0], [after 1], ... it goes through. *)
Lemma history_loop_py {V} (holds : objects.store A -> objects.ref -> V -> Prop)
    (step : objects.ref -> nat -> objects.py A objects.ref)
    (after : nat -> V) (n : nat) :
  (forall h h' l v, holds h l v -> h `prefix_of` h' -> holds h' l v) ->
  (forall t h l, t < n -> holds h l (after t) ->
     exists l' h', step l t h = Some (Ok l', h') /\ h `prefix_of` h' /\
                   holds h' l' (after (S t))) ->
  forall h l, holds h l (after 0) ->
    exists l' history h',
      objects.for_each
        (fun '(state, history) t =>
           state ← step state t; mret (state, history ++ [state]))
        (seq 0 n) (l, [l]) h
      = Some (Ok (l', history), h') /\
      h `prefix_of` h' /\
      holds h' l' (after n) /\
      Forall2 (holds h') history (after <$> seq 0 (S n)).
Proof.
  intros Hstable. induction n as [|n IH]; intros Hstep h l Hl.
  - exists l, [l], h. split; [done|]. split; [done|]. split; [done|].
    by repeat constructor.
  - destruct (IH ltac:(intros; apply Hstep; [lia|done]) h l Hl)
      as (l1 & history & h1 & Hloop & Hh1 & Hl1 & Hhistory).
    destruct (Hstep n h1 l1 ltac:(lia) Hl1) as (l2 & h2 & Hs & Hh2 & Hl2).
    exists l2, (history ++ [l2]), h2.
    split; [|split; [by etrans|split; [done|]]].
    + rewrite seq_S, py_for_each_app, (py_bind_Ok _ _ _ _ _ Hloop).
      simpl. unfold mbind, objects.py_bind, mret, objects.py_ret.
      by rewrite Hs.
    + rewrite (seq_S (S n)), fmap_app. apply Forall2_app.
      * eapply Forall2_impl; [done|]. intros. by eapply Hstable.
      * by constructor.
Qed.

Lemma returns_twice_intro {X V} (holds : objects.store A -> X -> V -> Prop)
    (ready : objects.store A -> Prop) (m : objects.py A X)
    (h : objects.store A) (v : V) :
  (forall h h' x v, holds h x v -> h `prefix_of` h' -> holds h' x v) ->
  (forall h h', ready h -> h `prefix_of` h' -> ready h') ->
  (forall h, ready h ->
     exists x h', m h = Some (Ok x, h') /\ h `prefix_of` h' /\ holds h' x v) ->
  ready h -> returns_twice holds m h v.
Proof.
  intros Hholds Hready Hm Hh.
  destruct (Hm h Hh) as (x & h' & Hx & Hh' & Hv).
  destruct (Hm h' (Hready _ _ Hh Hh')) as (x' & h'' & Hx' & Hh'' & Hv').
  exists x, h', x', h''. repeat split; try done. by eapply Hholds.
Qed.

Lemma Forall2_holds_prefix {V}
    (holds : objects.store A -> objects.ref -> V -> Prop) :
  (forall h h' l v, holds h l v -> h `prefix_of` h' -> holds h' l v) ->
  forall h h' ls vs,
    Forall2 (holds h) ls vs -> h `prefix_of` h' -> Forall2 (holds h') ls vs.
Proof.
  intros Hstable h h' ls vs Hls Hh. eapply Forall2_impl; [done|].
  intros. by eapply Hstable.
Qed.

Lemma lookup_new (h k : list (objects.object A)) (i : nat)
    (o : objects.object A) :
  k !! i = Some o -> (h ++ k) !! (length h + i) = Some o.
Proof.
  intros Hi. rewrite lookup_app_r by lia.
  by replace (length h + i - length h) with i by lia.
Qed.

(** *** Engine A *)

Lemma engine_a_step_returns (h : objects.store A) l s params shock_F shock_C :
  holds_A h l s ->
  objects.engine_a_step l params shock_F shock_C h
  = Some (Ok (length h),
          h ++ [objects.AState (engine_a_step s params shock_F shock_C)]).
Proof.
  intros Hl. unfold objects.engine_a_step.
  rewrite (py_bind_Ok _ _ h h s); [done|].
  unfold objects.get_A. by rewrite Hl.
Qed.

Lemma run_engine_a_returns (h : objects.store A) state s params steps
    shocks_F shocks_C :
  holds_A h state s ->
  exists history h',
    objects.run_engine_a state params steps shocks_F shocks_C h
    = Some (Ok history, h') /\
    h `prefix_of` h' /\
    Forall2 (holds_A h') history
      (run_engine_a s params steps shocks_F shocks_C).
Proof.
  intros Hstate.
  destruct (history_loop_py holds_A
              (fun l t => objects.engine_a_step l params
                            (shock_or_zero shocks_F t)
                            (shock_or_zero shocks_C t))
              (engine_a_after s params shocks_F shocks_C)
              (Z.to_nat steps) holds_A_prefix) with (h := h) (l := state)
    as (l' & history & h' & Hloop & Hh' & _ & Hhistory); [|done|].
  { intros t h0 l _ Hl. eexists _, _.
    split; [by apply engine_a_step_returns|].
    split; [by apply prefix_app_r|].
    by apply list_lookup_middle. }
  exists history, h'. split; [|split; [done|]].
  - unfold objects.run_engine_a, py_range.
    by rewrite (py_bind_Ok _ _ _ _ _ Hloop).
  - by rewrite run_engine_a_history.
Qed.

(** *** Engine B *)

Lemma engine_b_step_returns (h : objects.store A) l s params sFf sCf sFs sCs :
  holds_B h l s ->
  exists l' h',
    objects.engine_b_step l params sFf sCf sFs sCs h = Some (Ok l', h') /\
    h `prefix_of` h' /\
    holds_B h' l' (engine_b_step s params sFf sCf sFs sCs).
Proof.
  intros (fast & slow & Hl & Hfast & Hslow).
  set (next := engine_b_step s params sFf sCf sFs sCs).
  exists (length h + 2),
         (h ++ [objects.AState (fast_state next);
                objects.AState (slow_state next);
                objects.BState (length h + 0) (length h + 1)]).
  split; [|split].
  - unfold objects.engine_b_step.
    rewrite (py_bind_Ok _ _ h h (fast, slow));
      [|unfold objects.get_B; by rewrite Hl].
    rewrite (py_bind_Ok _ _ h h (fast_state s));
      [|unfold objects.get_A; by rewrite Hfast].
    rewrite (py_bind_Ok _ _ h h (slow_state s));
      [|unfold objects.get_A; by rewrite Hslow].
    replace {| fast_state := fast_state s; slow_state := slow_state s |}
      with s by (by destruct s).
    fold next. unfold mbind, objects.py_bind, objects.new.
    rewrite !length_app, <- !app_assoc. cbn [length app].
    rewrite Nat.add_0_r.
    by replace (length h + 1 + 1) with (length h + 2) by lia.
  - by apply prefix_app_r.
  - exists (length h + 0), (length h + 1).
    split; [|split]; by apply lookup_new.
Qed.

Lemma run_engine_b_returns (h : objects.store A) state s params steps :
  holds_B h state s ->
  exists history h',
    objects.run_engine_b state params steps h = Some (Ok history, h') /\
    h `prefix_of` h' /\
    Forall2 (holds_B h') history (run_engine_b s params steps).
Proof.
  intros Hstate.
  destruct (history_loop_py holds_B
              (fun l _ => objects.engine_b_step l params fzero fzero fzero
                            fzero)
              (engine_b_after s params)
              (Z.to_nat steps) holds_B_prefix) with (h := h) (l := state)
    as (l' & history & h' & Hloop & Hh' & _ & Hhistory); [|done|].
  { intros t h0 l _ Hl. by apply engine_b_step_returns. }
  exists history, h'. split; [|split; [done|]].
  - unfold objects.run_engine_b, py_range.
    by rewrite (py_bind_Ok _ _ _ _ _ Hloop).
  - by rewrite run_engine_b_history.
Qed.
(** *** The recording kernels *)

(** A loop that keeps a state and allocates one record per round. *)
Lemma record_loop_py {S} (step : S -> nat -> S)
    (rec : S -> nat -> objects.object A) (after : nat -> S) (n : nat)
    (h : objects.store A) :
  (forall t, after (Datatypes.S t) = step (after t) t) ->
  objects.for_each
    (fun '(st, records) t =>
       record ← objects.new (rec st t);
       mret (step st t, records ++ [record]))
    (seq 0 n) (after 0, []) h
  = Some (Ok (after n, seq (length h) n),
          h ++ ((fun t => rec (after t) t) <$> seq 0 n)).
Proof.
  intros Hafter. induction n as [|n IH]; [by rewrite app_nil_r|].
  rewrite seq_S, py_for_each_app, (py_bind_Ok _ _ _ _ _ IH).
  cbn [objects.for_each Nat.add].
  unfold mbind, objects.py_bind, mret, objects.py_ret, objects.new.
  rewrite length_app, length_fmap, length_seq, Hafter, seq_S, fmap_app.
  by rewrite <- app_assoc.
Qed.

Lemma holds_new_records {R} (wrap : R -> objects.object A)
    (h : objects.store A) (rs : list R) :
  Forall2 (fun l r => (h ++ (wrap <$> rs)) !! l = Some (wrap r))
          (seq (length h) (length rs)) rs.
Proof.
  apply Forall2_same_length_lookup_2.
  - by rewrite length_seq.
  - intros i l r Hl Hr. apply lookup_seq in Hl as [-> _].
    apply lookup_new. by rewrite list_lookup_fmap, Hr.
Qed.

Lemma simulate_two_system_kernel_returns (h : objects.store A) (T_steps : Z)
    (F1_0 C1_0 D1_0 F2_0 C2_0 D2_0 T0 : A)
    (k1 k2 alpha1 alpha2 delta1 delta2 r1 r2 lambda_T coupling : A)
    (bubble_steps : Z) (bubble_shock : A) :
  exists states h',
    objects.simulate_two_system_kernel T_steps F1_0 C1_0 D1_0 F2_0 C2_0 D2_0
      T0 k1 k2 alpha1 alpha2 delta1 delta2 r1 r2 lambda_T coupling
      bubble_steps bubble_shock h
    = Some (Ok states, h') /\
    h `prefix_of` h' /\
    Forall2 (holds_two_system h') states
      (two_system_contagion_kernel.simulate_two_system_kernel T_steps
         F1_0 C1_0 D1_0 F2_0 C2_0 D2_0 T0 k1 k2 alpha1 alpha2 delta1 delta2
         r1 r2 lambda_T coupling bubble_steps bubble_shock).
Proof.
  set (after :=
    two_system_after F1_0 C1_0 D1_0 F2_0 C2_0 D2_0 T0 k1 k2 alpha1 alpha2
      delta1 delta2 r1 r2 lambda_T coupling bubble_steps bubble_shock).
  set (step := fun (st : A * A * A * A * A * A * A) (t : nat) =>
    let '(F1, C1, D1, F2, C2, D2, T) := st in
    let shock1 :=
      if (Z.of_nat t <? bubble_steps)%Z then bubble_shock else fzero in
    let '(F1', C1', D1', F2', C2', D2', T', _, _) :=
      two_system_contagion_kernel.two_system_step F1 C1 D1 F2 C2 D2 T
        k1 k2 alpha1 alpha2 delta1 delta2 r1 r2 lambda_T coupling shock1 in
    (F1', C1', D1', F2', C2', D2', T')).
  assert (Hstep : forall t, after (S t) = step (after t) t).
  { intros t. unfold step, after. simpl.
    by destruct (two_system_after _ _ _ _ _ _ _ _ _ _ _ _ _ _ _ _ _ _ _ t)
      as [[[[[[F1 C1] D1] F2] C2] D2] T]. }
  set (rec := fun st t =>
    objects.TwoSystem (two_system_record st (step st t) t)).
  exists (seq (length h) (Z.to_nat T_steps)),
         (h ++ ((fun t => rec (after t) t) <$> seq 0 (Z.to_nat T_steps))).
  split; [|split].
  - unfold objects.simulate_two_system_kernel, py_range.
    erewrite py_bind_Ok; cycle 1.
    { erewrite py_for_each_ext;
        [apply (record_loop_py step rec after _ _ Hstep)|].
      by intros [[[[[[[F1 C1] D1] F2] C2] D2] T] states] t h0. }
    by destruct (after (Z.to_nat T_steps)) as [[[[[[F1 C1] D1] F2] C2] D2] T].
  - by apply prefix_app_r.
  - rewrite simulate_two_system_kernel_series. fold after.
    replace ((fun t => rec (after t) t) <$> seq 0 (Z.to_nat T_steps))
      with (objects.TwoSystem
              <$> ((fun t => two_system_record (after t) (after (S t)) t)
                     <$> seq 0 (Z.to_nat T_steps))).
    + pose proof (holds_new_records objects.TwoSystem h
        ((fun t => two_system_record (after t) (after (S t)) t)
           <$> seq 0 (Z.to_nat T_steps))) as Hnew.
      by rewrite length_fmap, length_seq in Hnew.
    + rewrite <- list_fmap_compose. apply list_fmap_ext. intros _ t _.
      simpl. unfold rec. by rewrite Hstep.
Qed.

Lemma simulate_kernel2_returns (h : objects.store A) (T : Z)
    (S0 C0 k_capacity : A) (inflow_rule outflow_rule : Z -> A -> A -> A) :
  exists states h',
    objects.simulate_kernel2 T S0 C0 k_capacity inflow_rule outflow_rule h
    = Some (Ok states, h') /\
    h `prefix_of` h' /\
    Forall2 (holds_kernel2 h') states
      (kernel_2_capacity_pressure.simulate_kernel2 T S0 C0 k_capacity
         inflow_rule outflow_rule).
Proof.
  set (after := kernel2_after S0 C0 k_capacity inflow_rule outflow_rule).
  set (step := fun (st : A * A) (t : nat) =>
    (st.1 + inflow_rule (Z.of_nat t) st.1 st.2
     - outflow_rule (Z.of_nat t) st.1 st.2,
     st.2 + k_capacity
            * (inflow_rule (Z.of_nat t) st.1 st.2
               - outflow_rule (Z.of_nat t) st.1 st.2 - st.2))%A).
  assert (Hstep : forall t, after (S t) = step (after t) t).
  { intros t. unfold after. simpl.
    by destruct (kernel2_after S0 C0 k_capacity inflow_rule outflow_rule t). }
  set (rec := fun st t =>
    objects.Kernel2 (kernel2_record k_capacity inflow_rule outflow_rule st t)).
  exists (seq (length h) (Z.to_nat T)),
         (h ++ ((fun t => rec (after t) t) <$> seq 0 (Z.to_nat T))).
  split; [|split].
  - unfold objects.simulate_kernel2, py_range.
    erewrite py_bind_Ok; cycle 1.
    { erewrite py_for_each_ext;
        [apply (record_loop_py step rec after _ _ Hstep)|].
      by intros [[S_t C_t] states] t h0. }
    by destruct (after (Z.to_nat T)) as [S_t C_t].
  - by apply prefix_app_r.
  - rewrite simulate_kernel2_series. fold after.
    replace ((fun t => rec (after t) t) <$> seq 0 (Z.to_nat T))
      with (objects.Kernel2
              <$> ((fun t => kernel2_record k_capacity inflow_rule
                               outflow_rule (after t) t)
                     <$> seq 0 (Z.to_nat T)))
      by (by rewrite <- list_fmap_compose).
    pose proof (holds_new_records objects.Kernel2 h
      ((fun t => kernel2_record k_capacity inflow_rule outflow_rule
                   (after t) t) <$> seq 0 (Z.to_nat T))) as Hnew.
    by rewrite length_fmap, length_seq in Hnew.
Qed.

Lemma simulate_kernel3_returns (h : objects.store A) (T : Z)
    (S0 C0 D0 k_capacity alpha delta : A)
    (inflow_rule outflow_rule : Z -> A -> A -> A -> A) :
  exists states h',
    objects.simulate_kernel3 T S0 C0 D0 k_capacity alpha delta inflow_rule
      outflow_rule h
    = Some (Ok states, h') /\
    h `prefix_of` h' /\
    Forall2 (holds_kernel3 h') states
      (kernel_3_drift_cycle.simulate_kernel3 T S0 C0 D0 k_capacity alpha
         delta inflow_rule outflow_rule).
Proof.
  set (after :=
    kernel3_after S0 C0 D0 k_capacity alpha delta inflow_rule outflow_rule).
  set (step := fun (st : A * A * A) (t : nat) =>
    let I_t := inflow_rule (Z.of_nat t) st.1.1 st.1.2 st.2 in
    let O_t := outflow_rule (Z.of_nat t) st.1.1 st.1.2 st.2 in
    (st.1.1 + I_t - O_t,
     st.1.2 + k_capacity * (I_t - O_t - st.1.2),
     (fone - delta) * st.2 + alpha * (I_t - O_t - st.1.2))%A).
  assert (Hstep : forall t, after (S t) = step (after t) t).
  { intros t. unfold after. simpl.
    by destruct (kernel3_after S0 C0 D0 k_capacity alpha delta inflow_rule
                   outflow_rule t) as [[S_t C_t] D_t]. }
  set (rec := fun st t =>
    objects.Kernel3
      (kernel3_record k_capacity alpha delta inflow_rule outflow_rule st t)).
  exists (seq (length h) (Z.to_nat T)),
         (h ++ ((fun t => rec (after t) t) <$> seq 0 (Z.to_nat T))).
  split; [|split].
  - unfold objects.simulate_kernel3, py_range.
    erewrite py_bind_Ok; cycle 1.
    { erewrite py_for_each_ext;
        [apply (record_loop_py step rec after _ _ Hstep)|].
      by intros [[[S_t C_t] D_t] states] t h0. }
    by destruct (after (Z.to_nat T)) as [[S_t C_t] D_t].
  - by apply prefix_app_r.
  - rewrite simulate_kernel3_series. fold after.
    replace ((fun t => rec (after t) t) <$> seq 0 (Z.to_nat T))
      with (objects.Kernel3
              <$> ((fun t => kernel3_record k_capacity alpha delta
                               inflow_rule outflow_rule (after t) t)
                     <$> seq 0 (Z.to_nat T)))
      by (by rewrite <- list_fmap_compose).
    pose proof (holds_new_records objects.Kernel3 h
      ((fun t => kernel3_record k_capacity alpha delta inflow_rule
                   outflow_rule (after t) t) <$> seq 0 (Z.to_nat T))) as Hnew.
    by rewrite length_fmap, length_seq in Hnew.
Qed.
End store.

(** *** Engine C *)

Section store_engine_c.
Context {A : Type} `{Arith A}.
Import engine_a engine_b engine_c.

Lemma pressures_py (h : objects.store A) refs vs acc :
  Forall2 (holds_A h) refs vs ->
  objects.for_each
    (fun pressures s =>
       s ← objects.get_A s;
       mret (pressures ++ [py_max fzero (F s - C s)%A]))
    refs acc h
  = Some (Ok (fold_left
                (fun pressures s => pressures ++ [py_max fzero (F s - C s)%A])
                vs acc),
          h).
Proof.
  intros Hrefs. revert acc.
  induction Hrefs as [|l s refs vs Hl _ IH]; intros acc; [done|].
  cbn [objects.for_each fold_left].
  erewrite py_bind_Ok; [apply IH|].
  erewrite py_bind_Ok; [done|]. unfold objects.get_A. by rewrite Hl.
Qed.

Lemma get_C_prefix (h h' : objects.store A) state refs :
  h !! state = Some (objects.CState refs) -> h `prefix_of` h' ->
  objects.get_C state h' = Some (Ok refs, h').
Proof.
  intros Hstate Hh. pose proof (prefix_lookup_Some _ _ _ _ Hstate Hh) as Hs.
  unfold objects.get_C. by rewrite Hs.
Qed.

Lemma new_systems_py (h : objects.store A) state refs vs params
    shocks_F shocks_C (e : nat -> A) (N k : nat) :
  h !! state = Some (objects.CState refs) ->
  Forall2 (holds_A h) refs vs ->
  length (params_per_system params) = length vs ->
  N = length vs -> k <= N ->
  let g := fun i =>
    match vs !! i, params_per_system params !! i with
    | Some s, Some p =>
        engine_a_step s p (shock_or_zero shocks_F i + e i)%A
          (shock_or_zero shocks_C i)
    | _, _ => {| F := fzero; C := fzero; T := fzero; D := fzero |}
    end in
  objects.for_each
    (fun new_systems i =>
       systems ← objects.get_C state;
       s ← objects.lift (getitem systems i);
       p ← objects.lift (getitem (params_per_system params) i);
       let exo_F := shock_or_zero shocks_F i in
       let exo_C := shock_or_zero shocks_C i in
       e ← objects.lift (getitem (e <$> seq 0 N) i);
       let total_F_shock := (exo_F + e)%A in
       new_s ← objects.engine_a_step s p total_F_shock exo_C;
       mret (new_systems ++ [new_s]))
    (seq 0 k) [] h
  = Some (Ok (seq (length h) k),
          h ++ (objects.AState <$> (g <$> seq 0 k))).
Proof.
  intros Hstate Hrefs Hp HN Hk g.
  induction k as [|k IH]; [by rewrite app_nil_r|].
  rewrite seq_S, py_for_each_app, (py_bind_Ok _ _ _ _ _ (IH ltac:(lia))).
  set (hk := h ++ (objects.AState <$> (g <$> seq 0 k))).
  assert (Hhk : h `prefix_of` hk) by (by apply prefix_app_r).
  assert (Hlen : length hk = length h + k).
  { unfold hk. by rewrite length_app, !length_fmap, length_seq. }
  destruct (lookup_lt_is_Some_2 vs k) as [s Hs]; [lia|].
  destruct (lookup_lt_is_Some_2 (params_per_system params) k) as [p Hpk];
    [lia|].
  destruct (Forall2_lookup_r _ _ _ _ _ Hrefs Hs) as (l & Hl & Hls).
  cbn [objects.for_each Nat.add].
  erewrite py_bind_Ok; cycle 1.
  { erewrite py_bind_Ok; cycle 1.
    { by apply (get_C_prefix h). }
    erewrite py_bind_Ok; cycle 1.
    { unfold objects.lift. by rewrite (getitem_Some _ _ _ Hl). }
    erewrite py_bind_Ok; cycle 1.
    { unfold objects.lift. by rewrite (getitem_Some _ _ _ Hpk). }
    cbv zeta.
    erewrite py_bind_Ok; cycle 1.
    { unfold objects.lift, getitem.
      by rewrite list_lookup_fmap, lookup_seq_lt by lia. }
    erewrite py_bind_Ok; cycle 1.
    { apply engine_a_step_returns. by eapply holds_A_prefix. }
    reflexivity. }
  unfold mret, objects.py_ret.
  rewrite Hlen, (seq_S k), !fmap_app. unfold hk. rewrite <- app_assoc.
  cbn [fmap list_fmap Nat.add]. unfold g at 3. by rewrite Hs, Hpk.
Qed.

Lemma network_step_spec_systems (v : EngineCState A) params shocks_F
    shocks_C :
  length (params_per_system params) = length (systems v) ->
  systems (network_step_spec v params shocks_F shocks_C)
  = (fun i =>
       match systems v !! i, params_per_system params !! i with
       | Some s, Some p =>
           engine_a_step s p
             (shock_or_zero shocks_F i
              + sigma (length (systems v))
                  (fun j => entry (W params) i j * pressure_of v j))%A
             (shock_or_zero shocks_C i)
       | _, _ => {| F := fzero; C := fzero; T := fzero; D := fzero |}
       end) <$> seq 0 (length (systems v)).
Proof.
  intros Hp. unfold network_step_spec. cbn [systems].
  apply list_eq. intros i.
  rewrite list_lookup_fmap, list_lookup_imap, lookup_zip_with.
  destruct (decide (i < length (systems v))) as [Hi|Hi].
  - rewrite lookup_seq_lt by done. simpl.
    destruct (lookup_lt_is_Some_2 (systems v) i Hi) as [s ->].
    destruct (lookup_lt_is_Some_2 (params_per_system params) i) as [p ->];
      [lia|]. done.
  - rewrite lookup_seq_ge by lia. simpl.
    rewrite (lookup_ge_None_2 (systems v)) by lia. done.
Qed.

Lemma engine_c_step_returns (h : objects.store A) l v params shocks_F
    shocks_C :
  holds_C h l v -> dimensions_ok v params ->
  exists l' h',
    objects.engine_c_step l params shocks_F shocks_C h = Some (Ok l', h') /\
    h `prefix_of` h' /\
    holds_C h' l' (network_step_spec v params shocks_F shocks_C).
Proof.
  intros (refs & Hl & Hrefs) Hdim. pose proof Hdim as (Hp & HW & Hrows).
  pose proof (Forall2_length _ _ _ Hrefs) as Hlen.
  set (N := length (systems v)) in *.
  set (news := systems (network_step_spec v params shocks_F shocks_C)).
  assert (Hnews : length news = N).
  { unfold news. by rewrite length_network_step_spec. }
  exists (length h + N),
         (h ++ (objects.AState <$> news) ++ [objects.CState (seq (length h) N)]).
  split; [|split].
  - unfold objects.engine_c_step.
    erewrite py_bind_Ok; cycle 1.
    { unfold objects.get_C. by rewrite Hl. }
    cbv zeta. rewrite Hlen, Hp. fold N. rewrite Nat.eqb_refl.
    erewrite py_bind_Ok; cycle 1; [reflexivity|].
    rewrite HW. fold N. rewrite Nat.eqb_refl.
    replace (forallb _ (W params)) with true; cycle 1.
    { symmetry. apply forallb_forall. intros row Hin.
      apply Nat.eqb_eq. rewrite Forall_forall in Hrows. apply Hrows.
      by apply list_elem_of_In. }
    erewrite py_bind_Ok; cycle 1; [reflexivity|].
    erewrite py_bind_Ok; cycle 1.
    { unfold objects.get_C. by rewrite Hl. }
    erewrite py_bind_Ok; cycle 1.
    { by apply pressures_py. }
    erewrite py_bind_Ok; cycle 1.
    { unfold objects.lift. fold (pressures v).
      by rewrite (endogenous_shocks_F_sigma v params Hdim). }
    rewrite py_range_nat.
    erewrite py_bind_Ok; cycle 1.
    { by apply (new_systems_py h l refs (systems v) params shocks_F shocks_C). }
    unfold objects.new.
    rewrite length_app, !length_fmap, length_seq, <- app_assoc.
    unfold news. by rewrite network_step_spec_systems.
  - by apply prefix_app_r.
  - exists (seq (length h) N). split.
    + apply lookup_new, list_lookup_middle. by rewrite length_fmap.
    + eapply Forall2_holds_prefix;
        [apply holds_A_prefix| |by rewrite app_assoc; apply prefix_app_r].
      pose proof (holds_new_records objects.AState h news) as Hnew.
      by rewrite Hnews in Hnew.
Qed.

Lemma engine_c_step_raises (h : objects.store A) l v params shocks_F
    shocks_C :
  holds_C h l v -> ~ dimensions_ok v params ->
  objects.engine_c_step l params shocks_F shocks_C h
  = Some (Raise AssertionError, h).
Proof.
  intros (refs & Hl & Hrefs) Hdim.
  pose proof (Forall2_length _ _ _ Hrefs) as Hlen.
  unfold objects.engine_c_step.
  erewrite py_bind_Ok; cycle 1.
  { unfold objects.get_C. by rewrite Hl. }
  cbv zeta. rewrite Hlen.
  destruct (Nat.eqb_spec (length (params_per_system params))
              (length (systems v))) as [Hp|]; [|done].
  erewrite py_bind_Ok; cycle 1; [reflexivity|].
  destruct (Nat.eqb_spec (length (W params)) (length (systems v)))
    as [HW|]; [|done].
  destruct (forallb _ (W params)) eqn:Hrows; [|done].
  destruct Hdim. repeat split; [done..|].
  rewrite Forall_forall. intros row Hin.
  rewrite forallb_forall in Hrows. apply Nat.eqb_eq, Hrows.
  by apply list_elem_of_In.
Qed.
Lemma run_engine_c_returns (h : objects.store A) state v params steps :
  holds_C h state v -> dimensions_ok v params ->
  exists history h',
    objects.run_engine_c state params steps h = Some (Ok history, h') /\
    h `prefix_of` h' /\
    Forall2 (holds_C h') history
      (network_after v params <$> seq 0 (S (Z.to_nat steps))).
Proof.
  intros Hstate Hdim.
  destruct (history_loop_py holds_C
              (fun l _ => objects.engine_c_step l params None None)
              (network_after v params)
              (Z.to_nat steps) holds_C_prefix) with (h := h) (l := state)
    as (l' & history & h' & Hloop & Hh' & _ & Hhistory); [|done|].
  { intros t h0 l _ Hl. apply engine_c_step_returns; [done|].
    by apply dimensions_ok_network_after. }
  exists history, h'. split; [|done].
  unfold objects.run_engine_c, py_range.
  by rewrite (py_bind_Ok _ _ _ _ _ Hloop).
Qed.

Lemma run_engine_c_raises (h : objects.store A) state v params steps :
  holds_C h state v -> ~ dimensions_ok v params -> (0 < steps)%Z ->
  run_engine_c v params steps = Raise AssertionError /\
  objects.run_engine_c state params steps h = Some (Raise AssertionError, h).
Proof.
  intros Hstate Hdim Hsteps.
  unfold run_engine_c, objects.run_engine_c, py_range.
  destruct (Z.to_nat steps) as [|n] eqn:Hn; [lia|]. cbn [seq]. split.
  - rewrite (for_each_raise_first _ _ _ _ AssertionError); [done|].
    by rewrite engine_c_step_mismatch.
  - cbn [objects.for_each].
    do 3 (erewrite py_bind_Raise; [done|]).
    by apply (engine_c_step_raises _ _ v).
Qed.

Lemma run_engine_c_no_step (h : objects.store A) state (v : EngineCState A)
    params steps :
  (steps <= 0)%Z ->
  run_engine_c v params steps = Ok [v] /\
  objects.run_engine_c state params steps h = Some (Ok [state], h).
Proof.
  intros Hsteps. unfold run_engine_c, objects.run_engine_c.
  by rewrite py_range_nonpos by done.
Qed.

(** C8. Two calls of a driver in a row, with the same initial state object,
    the same parameters, step count and shock schedules, return histories
    that hold the same values, field for field: those of the driver read as
    a function of the values of its inputs. The store the first call finds
    (what else has been allocated, and where) has no part in the result;
    neither call modifies an object that existed before it, its own
    arguments included; the states and records of a history after the
    initial one are new objects. When the dimensions of an Engine C network
    do not fit, both calls raise the same [AssertionError] and allocate
    nothing. *)
Theorem drivers_deterministic :
  (forall (h : objects.store A) state s params steps shocks_F shocks_C,
      holds_A h state s ->
      returns_twice (fun h => Forall2 (holds_A h))
        (objects.run_engine_a state params steps shocks_F shocks_C) h
        (run_engine_a s params steps shocks_F shocks_C)) /\
  (forall (h : objects.store A) state s params steps,
      holds_B h state s ->
      returns_twice (fun h => Forall2 (holds_B h))
        (objects.run_engine_b state params steps) h
        (run_engine_b s params steps)) /\
  (forall (h : objects.store A) state s params shocks_F shocks_C,
      holds_C h state s ->
      match engine_c_step s params shocks_F shocks_C with
      | Ok next =>
          returns_twice holds_C
            (objects.engine_c_step state params shocks_F shocks_C) h next
      | Raise e =>
          raises_cleanly
            (objects.engine_c_step state params shocks_F shocks_C) h e
      end) /\
  (forall (h : objects.store A) state s params steps,
      holds_C h state s ->
      match run_engine_c s params steps with
      | Ok history =>
          returns_twice (fun h => Forall2 (holds_C h))
            (objects.run_engine_c state params steps) h history
      | Raise e =>
          raises_cleanly (objects.run_engine_c state params steps) h e
      end) /\
  (forall (h : objects.store A) T_steps F1_0 C1_0 D1_0 F2_0 C2_0 D2_0 T0
          k1 k2 alpha1 alpha2 delta1 delta2 r1 r2 lambda_T coupling
          bubble_steps bubble_shock,
      returns_twice (fun h => Forall2 (holds_two_system h))
        (objects.simulate_two_system_kernel T_steps F1_0 C1_0 D1_0 F2_0 C2_0
           D2_0 T0 k1 k2 alpha1 alpha2 delta1 delta2 r1 r2 lambda_T coupling
           bubble_steps bubble_shock) h
        (two_system_contagion_kernel.simulate_two_system_kernel T_steps
           F1_0 C1_0 D1_0 F2_0 C2_0 D2_0 T0 k1 k2 alpha1 alpha2 delta1
           delta2 r1 r2 lambda_T coupling bubble_steps bubble_shock)) /\
  (forall (h : objects.store A) T S0 C0 k_capacity inflow_rule outflow_rule,
      returns_twice (fun h => Forall2 (holds_kernel2 h))
        (objects.simulate_kernel2 T S0 C0 k_capacity inflow_rule
           outflow_rule) h
        (kernel_2_capacity_pressure.simulate_kernel2 T S0 C0 k_capacity
           inflow_rule outflow_rule)) /\
  (forall (h : objects.store A) T S0 C0 D0 k_capacity alpha delta
          inflow_rule outflow_rule,
      returns_twice (fun h => Forall2 (holds_kernel3 h))
        (objects.simulate_kernel3 T S0 C0 D0 k_capacity alpha delta
           inflow_rule outflow_rule) h
        (kernel_3_drift_cycle.simulate_kernel3 T S0 C0 D0 k_capacity alpha
           delta inflow_rule outflow_rule)).
Proof.
  split; [|split; [|split; [|split; [|split; [|split]]]]].
  - intros h state s params steps shocks_F shocks_C Hstate.
    apply (returns_twice_intro _ (fun h => holds_A h state s)); try done.
    + apply Forall2_holds_prefix, holds_A_prefix.
    + intros. by eapply holds_A_prefix.
    + intros h0 Hh0. by apply run_engine_a_returns.
  - intros h state s params steps Hstate.
    apply (returns_twice_intro _ (fun h => holds_B h state s)); try done.
    + apply Forall2_holds_prefix, holds_B_prefix.
    + intros. by eapply holds_B_prefix.
    + intros h0 Hh0. by apply run_engine_b_returns.
  - intros h state s params shocks_F shocks_C Hstate.
    destruct (engine_c_step_cases s params shocks_F shocks_C)
      as [[Hdim ->]|[Hdim ->]].
    + apply (returns_twice_intro _ (fun h => holds_C h state s)); try done.
      * intros. by eapply holds_C_prefix.
      * intros. by eapply holds_C_prefix.
      * intros h0 Hh0. by apply engine_c_step_returns.
    + by apply (engine_c_step_raises _ _ s).
  - intros h state s params steps Hstate.
    destruct (Z.le_gt_cases steps 0) as [Hsteps|Hsteps].
    { destruct (run_engine_c_no_step h state s params steps Hsteps)
        as [-> Hrun].
      exists [state], h, [state], h. repeat split; try done.
      all: by repeat constructor. }
    destruct (engine_c_step_cases s params None None)
      as [[Hdim _]|[Hdim _]].
    + rewrite run_engine_c_ok by done.
      apply (returns_twice_intro _ (fun h => holds_C h state s)); try done.
      * apply Forall2_holds_prefix, holds_C_prefix.
      * intros. by eapply holds_C_prefix.
      * intros h0 Hh0. by apply run_engine_c_returns.
    + destruct (run_engine_c_raises h state s params steps Hstate Hdim)
        as [-> Hrun]; [lia|done].
  - intros. apply (returns_twice_intro _ (fun _ => True)); try done.
    + apply Forall2_holds_prefix. intros ? ? ? ? ? [k ->].
      by apply lookup_app_l_Some.
    + intros h0 _. apply simulate_two_system_kernel_returns.
  - intros. apply (returns_twice_intro _ (fun _ => True)); try done.
    + apply Forall2_holds_prefix. intros ? ? ? ? ? [k ->].
      by apply lookup_app_l_Some.
    + intros h0 _. apply simulate_kernel2_returns.
  - intros. apply (returns_twice_intro _ (fun _ => True)); try done.
    + apply Forall2_holds_prefix. intros ? ? ? ? ? [k ->].
      by apply lookup_app_l_Some.
    + intros h0 _. apply simulate_kernel3_returns.
Qed.
End store_engine_c.

Section store_at_inputs.
Import engine_a.
Local Open Scope float_scope.

Lemma drivers_deterministic_witness :
  returns_twice (fun h => Forall2 (holds_A h))
    (objects.run_engine_a 0%nat scenario_A_params_binary64 3
       (Some [0.5; 0.25]) None)
    [objects.AState scenario_A_state_binary64]
    (run_engine_a scenario_A_state_binary64 scenario_A_params_binary64 3
       (Some [0.5; 0.25]) None).
Proof.
  apply (proj1 drivers_deterministic). reflexivity.
Defined.
End store_at_inputs.
